(** * Feishu comment monitor: diff engine, polling tick and agent-event translation

    A shallow embedding of the polling / diff / dispatch pipeline of the
    comment monitor (the Express application and the stand-alone agent
    example).  JavaScript values are modelled as JSON-like trees, property
    access and iteration follow the language (reading a property of
    [undefined] or [null] throws a [TypeError]), console output, HTTP response
    writes and cache updates are recorded as an ordered list of events. *)

From Stdlib Require Import ZArith String Ascii List Bool Lia.
From stdpp Require Import gmap strings list pretty.
Import ListNotations.

#[local] Set Warnings "-register-all".
Open Scope string_scope.
Open Scope list_scope.

(** ** JavaScript values *)

(** The data the program inspects comes from [JSON.parse] and from the agent
    runtime's progress chunks.  Numbers are only ever tested for truthiness,
    compared with [0] or used as a length, so integers stand for them.  A
    string is its sequence of bytes; the program only tests strings for
    emptiness, compares them, splits them at a colon and prints them. *)
Inductive JSValue : Type :=
  | JUndefined
  | JNull
  | JBool (b : bool)
  | JNum (n : Z)
  | JStr (s : string)
  | JArr (elems : list JSValue)
  | JObj (props : list (string * JSValue)).

(** A thrown [Error]: its [name] and its [message]. *)
Record JSError : Type := mkError { name : string; message : string }.

Definition TypeError (msg : string) : JSError := mkError "TypeError" msg.
Definition SyntaxError (msg : string) : JSError := mkError "SyntaxError" msg.

(** The outcome of evaluating an expression: a value, or an exception. *)
Inductive Completion (A : Type) : Type :=
  | Normal (a : A)
  | Throw (e : JSError).
Arguments Normal {A} a.
Arguments Throw {A} e.

Definition cbind {A B} (c : Completion A) (f : A -> Completion B) : Completion B :=
  match c with
  | Normal a => f a
  | Throw e => Throw e
  end.

Declare Scope js_scope.
Delimit Scope js_scope with js.
Notation "'let?' x ':=' c 'in' k" := (cbind c (fun x => k))
  (at level 10, x name, c at level 100, k at level 200) : js_scope.
Open Scope js_scope.

(** [if (v)]: the falsy values are [undefined], [null], [false], [0] and the
    empty string; arrays and objects are always truthy. *)
Definition truthy (v : JSValue) : bool :=
  match v with
  | JUndefined | JNull => false
  | JBool b => b
  | JNum n => negb (n =? 0)%Z
  | JStr s => negb (s =? "")
  | JArr _ | JObj _ => true
  end.

Definition nullish (v : JSValue) : bool :=
  match v with
  | JUndefined | JNull => true
  | _ => false
  end.

(** [a || b] *)
Definition js_or (a b : JSValue) : JSValue := if truthy a then a else b.

(** [v === 0] *)
Definition is_zero (v : JSValue) : bool :=
  match v with
  | JNum n => (n =? 0)%Z
  | _ => false
  end.

(** Own property lookup in an object literal. *)
Fixpoint lookup_prop (k : string) (props : list (string * JSValue)) : JSValue :=
  match props with
  | [] => JUndefined
  | (k', v) :: rest => if k' =? k then v else lookup_prop k rest
  end.

(** [{...props, k: v}]: an existing key keeps its place, a new one is added
    at the end. *)
Fixpoint set_prop (k : string) (v : JSValue) (props : list (string * JSValue))
  : list (string * JSValue) :=
  match props with
  | [] => [(k, v)]
  | (k', v') :: rest =>
      if k' =? k then (k', v) :: rest else (k', v') :: set_prop k v rest
  end.

(** The characters of a string as one-character strings. *)
Fixpoint chars (s : string) : list JSValue :=
  match s with
  | EmptyString => []
  | String c rest => JStr (String c EmptyString) :: chars rest
  end.

Definition indexed (l : list JSValue) : list (string * JSValue) :=
  imap (fun i v => (pretty i, v)) l.

(** The own enumerable properties copied by an object spread [{...v}] and
    listed by [Object.entries(v)]. *)
Definition own_props (v : JSValue) : list (string * JSValue) :=
  match v with
  | JObj props => props
  | JArr l => indexed l
  | JStr s => indexed (chars s)
  | _ => []
  end.

(** [v.k] for the data properties the program reads (none of them is a
    method of [Array], [String] or [Object]). *)
Definition get (v : JSValue) (k : string) : Completion JSValue :=
  match v with
  | JUndefined => Throw (TypeError ("Cannot read properties of undefined (reading '" +:+ k +:+ "')"))
  | JNull => Throw (TypeError ("Cannot read properties of null (reading '" +:+ k +:+ "')"))
  | JObj props => Normal (lookup_prop k props)
  | JArr l => Normal (if k =? "length" then JNum (Z.of_nat (length l)) else JUndefined)
  | JStr s => Normal (if k =? "length" then JNum (Z.of_nat (String.length s)) else JUndefined)
  | JBool _ | JNum _ => Normal JUndefined
  end.

(** [v?.k] *)
Definition opt_get (v : JSValue) (k : string) : JSValue :=
  match get v k with
  | Normal x => x
  | Throw _ => JUndefined
  end.

(** [v?.[0]] *)
Definition opt_first (v : JSValue) : JSValue :=
  match v with
  | JArr l => hd JUndefined l
  | JStr s => hd JUndefined (chars s)
  | JObj props => lookup_prop "0" props
  | _ => JUndefined
  end.

(** The comparison used by [Set.prototype.has] (SameValueZero).  Primitives
    compare by value.  Objects and arrays compare by identity, and two nodes
    of parsed JSON trees are never the same object. *)
Definition same_value_zero (a b : JSValue) : bool :=
  match a, b with
  | JUndefined, JUndefined => true
  | JNull, JNull => true
  | JBool x, JBool y => Bool.eqb x y
  | JNum x, JNum y => (x =? y)%Z
  | JStr x, JStr y => (x =? y)
  | _, _ => false
  end.

(** A [Set] of values, in insertion order. *)
Definition Set_has (ids : list JSValue) (v : JSValue) : bool :=
  existsb (same_value_zero v) ids.

Definition Set_add (v : JSValue) (ids : list JSValue) : list JSValue :=
  if Set_has ids v then ids else ids ++ [v].

(** [s.split(':')[0]]: the segment before the first colon. *)
Fixpoint before_colon (s : string) : string :=
  match s with
  | EmptyString => EmptyString
  | String c rest =>
      if Ascii.eqb c ":"%char then EmptyString else String c (before_colon rest)
  end.

(** ** The language runtime

    Built-in functions of the language that the program calls and whose
    results are not computed here. *)
Class Builtins : Type := {
  (** [JSON.parse(v)]: the parsed value, or a [SyntaxError]. *)
  JSON_parse : JSValue -> Completion JSValue;
  (** [JSON.stringify(v)] of an object literal. *)
  JSON_stringify : JSValue -> string;
  (** The string a template literal substitutes for [v]. *)
  to_String : JSValue -> string;
  (** The property key of [n - 1] where [n] is the [length] property of a
      plain object. *)
  pred_key : JSValue -> string
}.

(** ** Observable effects *)

(** One constructor per console report of the program; the values printed
    are carried as they are, before formatting. *)
Inductive ConsoleLine : Type :=
  (* invokeGetCommentsTools *)
  | LClientMissing
  | LToolMissing
  | LNewCount (count : nat)
  | LNewComment (index : nat) (author createTime commentText : JSValue)
  | LCommentError (msg : string)
  | LSeparator
  | LFetchFailed (msg : string)
  | LToolException (msg : string)
  (* detectNewComments *)
  | LBaseline (count : JSValue)
  (* processNewCommentWithAgent *)
  | LAgentMissing
  | LExecuting (commentText : JSValue) (docId : string)
  | LProcessing
  | LTokenUsage (input output total : JSValue)
  | LAgent (content : JSValue)
  | LThinking (reasoning : JSValue)
  | LCallingTools
  | LToolName (toolName : JSValue)
  | LToolCalled (toolName : string)
  | LToolCallId (toolCallId : string)
  | LToolSuccess (data : JSValue)
  | LToolError (msg : JSValue)
  | LToolRaw (content : JSValue)
  | LDone
  | LFinal (content : JSValue)
  | LBlank
  | LAgentFailed (msg : string)
  (* POST /api/agent/execute *)
  | LRequest (msg : JSValue)
  | LStreamError (msg : string)
  | LExecuteFailed (msg : string)
  (* runAgent *)
  | LToolArgs (args : JSValue)
  | LToolResponseFrom (toolName : string)
  | LToolOk
  | LToolData (data : JSValue)
  | LCompleted.

Inductive Event : Type :=
  | Console (line : ConsoleLine)
  (** [commentsCache.set(docId, snapshot)] *)
  | CacheSet (docId : string) (snapshot : JSValue)
  (** the agent is started for a new comment: [reactAgent.stream(agentInput)]
      in [processNewCommentWithAgent] *)
  | AgentCall (input : JSValue)
  (** [res.writeHead(status, headers)] *)
  | ResWriteHead (status : Z)
  (** [res.write(data)] *)
  | ResWrite (data : string)
  (** [res.end()] *)
  | ResEnd
  (** [res.status(status).json(body)] *)
  | ResJson (status : Z) (body : JSValue).

(** A computation that reports events in order and then returns or throws;
    the events reported before an exception stay reported. *)
Definition Out (A : Type) : Type := (list Event * Completion A)%type.

Definition ret {A} (a : A) : Out A := ([], Normal a).
Definition throw {A} (e : JSError) : Out A := ([], Throw e).
Definition emit (e : Event) : Out unit := ([e], Normal tt).
Definition console (l : ConsoleLine) : Out unit := emit (Console l).
Definition lift {A} (c : Completion A) : Out A := ([], c).

Definition bind {A B} (m : Out A) (f : A -> Out B) : Out B :=
  match m with
  | (o, Normal a) => let (o', r) := f a in (o ++ o', r)
  | (o, Throw e) => (o, Throw e)
  end.

(** [try { m } catch (e) { h e }] *)
Definition try_catch {A} (m : Out A) (h : JSError -> Out A) : Out A :=
  match m with
  | (o, Throw e) => let (o', r) := h e in (o ++ o', r)
  | (o, Normal a) => (o, Normal a)
  end.

Notation "'let*' x ':=' m 'in' k" := (bind m (fun x => k))
  (at level 10, x name, m at level 100, k at level 200) : js_scope.
Notation "m ';;;' k" := (bind m (fun _ => k))
  (at level 100, k at level 200, right associativity) : js_scope.

(** A loop over a list whose body may throw; [acc] is the state the body
    updates. *)
Fixpoint for_each {A B} (l : list B) (body : B -> A -> Out A) (acc : A) : Out A :=
  match l with
  | [] => ret acc
  | x :: rest => let* acc' := body x acc in for_each rest body acc'
  end.

(** The same loop for bodies without output. *)
Fixpoint cfold {A B} (l : list B) (body : B -> A -> Completion A) (acc : A)
  : Completion A :=
  match l with
  | [] => Normal acc
  | x :: rest => let? acc' := body x acc in cfold rest body acc'
  end.

(** [v.forEach(f)]: only arrays have the method. *)
Definition forEach {A} (v : JSValue) (body : JSValue -> A -> Completion A) (acc : A)
  : Completion A :=
  match v with
  | JArr l => cfold l body acc
  | JUndefined | JNull => Throw (TypeError "Cannot read properties of undefined (reading 'forEach')")
  | _ => Throw (TypeError "forEach is not a function")
  end.

(** [for (const x of v)]: arrays and strings are iterable. *)
Definition iterate (v : JSValue) : Completion (list JSValue) :=
  match v with
  | JArr l => Normal l
  | JStr s => Normal (chars s)
  | _ => Throw (TypeError "value is not iterable")
  end.

(** ** The diff engine: [detectNewComments] *)

(** The inner callback of the first walk: [if (reply.reply_id) add it]. *)
Definition add_reply_id (reply : JSValue) (ids : list JSValue)
  : Completion (list JSValue) :=
  let? id := get reply "reply_id" in
  Normal (if truthy id then Set_add id ids else ids).

(** The outer callback of the first walk. *)
Definition add_comment_ids (comment : JSValue) (ids : list JSValue)
  : Completion (list JSValue) :=
  let? reply_list := get comment "reply_list" in
  if truthy reply_list then
    let? replies := get reply_list "replies" in
    if truthy replies then forEach replies add_reply_id ids else Normal ids
  else Normal ids.

(** [{...comment, reply_list: {...comment.reply_list, replies: [reply]}}] *)
Definition single_reply_comment (comment reply_list reply : JSValue) : JSValue :=
  JObj (set_prop "reply_list"
          (JObj (set_prop "replies" (JArr [reply]) (own_props reply_list)))
          (own_props comment)).

(** The inner callback of the second walk. *)
Definition push_if_new (cachedCommentIds : list JSValue) (comment reply_list : JSValue)
    (reply : JSValue) (newComments : list JSValue) : Completion (list JSValue) :=
  let? id := get reply "reply_id" in
  Normal (if truthy id && negb (Set_has cachedCommentIds id)
          then newComments ++ [single_reply_comment comment reply_list reply]
          else newComments).

(** The outer callback of the second walk. *)
Definition push_new_replies (cachedCommentIds : list JSValue) (comment : JSValue)
    (newComments : list JSValue) : Completion (list JSValue) :=
  let? reply_list := get comment "reply_list" in
  if truthy reply_list then
    let? replies := get reply_list "replies" in
    if truthy replies
    then forEach replies (push_if_new cachedCommentIds comment reply_list) newComments
    else Normal newComments
  else Normal newComments.

Definition detectNewComments (cachedComments currentComments : JSValue)
  : Out (list JSValue) :=
  let* cachedLength := lift (get cachedComments "length") in
  if is_zero cachedLength then
    let* currentLength := lift (get currentComments "length") in
    console (LBaseline currentLength) ;;;
    ret []
  else
    let* cachedCommentIds := lift (forEach cachedComments add_comment_ids []) in
    lift (forEach currentComments (push_new_replies cachedCommentIds) []).

(** ** The agent runtime *)

(** The asynchronous iterator returned by [reactAgent.stream]: the chunks it
    yields, then normal completion or a rejection. *)
Record AgentStream : Type := mkStream {
  chunks : list JSValue;
  failure : option JSError
}.

(** [for await (const chunk of stream) body] *)
Definition for_await {A} (stream : AgentStream) (body : JSValue -> A -> Out A) (acc : A)
  : Out A :=
  let* acc' := for_each (chunks stream) body acc in
  match failure stream with
  | None => ret acc'
  | Some e => throw e
  end.

(** [if (c) m] for a statement [m] *)
Definition when (c : bool) (m : Out unit) : Out unit := if c then m else ret tt.

Section Translators.
Context `{Builtins}.

(** [v[v.length - 1]] *)
Definition last_element (v : JSValue) : Completion JSValue :=
  match v with
  | JUndefined => Throw (TypeError "Cannot read properties of undefined (reading 'length')")
  | JNull => Throw (TypeError "Cannot read properties of null (reading 'length')")
  | JArr l => Normal (List.last l JUndefined)
  | JStr s => Normal (List.last (chars s) JUndefined)
  | JObj props => Normal (lookup_prop (pred_key (lookup_prop "length" props)) props)
  | JBool _ | JNum _ => Normal JUndefined
  end.

(** [chunk.agent.messages[chunk.agent.messages.length - 1]] *)
Definition last_agent_message (agent : JSValue) : Completion JSValue :=
  let? messages := get agent "messages" in
  last_element messages.

(** [toolCallId.split(':')[0]]: only strings have the method. *)
Definition tool_name_of (toolCallId : JSValue) : Completion string :=
  match toolCallId with
  | JStr s => Normal (before_colon s)
  | JUndefined | JNull => Throw (TypeError "Cannot read properties of undefined (reading 'split')")
  | _ => Throw (TypeError "split is not a function")
  end.

(** The string carried by a tool-call identifier that has a [split] method. *)
Definition id_text (toolCallId : JSValue) : string :=
  match toolCallId with
  | JStr s => s
  | _ => EmptyString
  end.

(** [for (const [key, toolMessages] of Object.entries(tools))
      if (Array.isArray(toolMessages)) for (const message of toolMessages) body]
    The key is not used. *)
Definition for_tool_messages (tools : JSValue) (body : JSValue -> Out unit) : Out unit :=
  for_each (own_props tools)
    (fun entry _ =>
       match snd entry with
       | JArr toolMessages => for_each toolMessages (fun msg _ => body msg) tt
       | _ => ret tt
       end) tt.

(** *** The console translator of [processNewCommentWithAgent] *)

(** The token-usage report of one agent message. *)
Definition console_token_usage (agentMessage : JSValue) : Out unit :=
  let* usage := lift (get agentMessage "usage_metadata") in
  if truthy usage then
    console (LTokenUsage (opt_get usage "input_tokens") (opt_get usage "output_tokens")
               (opt_get usage "total_tokens"))
  else
    let* response_metadata := lift (get agentMessage "response_metadata") in
    let tokenUsage := opt_get response_metadata "tokenUsage" in
    when (truthy tokenUsage)
      (console (LTokenUsage (opt_get tokenUsage "promptTokens")
                  (opt_get tokenUsage "completionTokens") (opt_get tokenUsage "totalTokens"))).

(** [toolCall.function.name] *)
Definition tool_call_name (toolCall : JSValue) : Completion JSValue :=
  let? function := get toolCall "function" in
  get function "name".

Definition console_tool_calls (agentMessage : JSValue) : Out unit :=
  let* additional_kwargs := lift (get agentMessage "additional_kwargs") in
  let tool_calls := opt_get additional_kwargs "tool_calls" in
  when (truthy tool_calls)
    (console LCallingTools ;;;
     let* calls := lift (iterate tool_calls) in
     for_each calls
       (fun toolCall _ =>
          let* toolName := lift (tool_call_name toolCall) in
          console (LToolName toolName)) tt).

Definition console_agent (chunk : JSValue) : Out unit :=
  let* agent := lift (get chunk "agent") in
  when (truthy agent)
    (let* agentMessage := lift (last_agent_message agent) in
     console_token_usage agentMessage ;;;
     let* content := lift (get agentMessage "content") in
     when (truthy content) (console (LAgent content)) ;;;
     let* reasoning := lift (get agentMessage "reasoning_content") in
     when (truthy reasoning) (console (LThinking reasoning)) ;;;
     console_tool_calls agentMessage).

(** The report of one tool response: parse the payload, fall back to the raw
    content when anything in the [try] block throws. *)
Definition console_tool_response (kwargs : JSValue) : Out unit :=
  try_catch
    (let* raw := lift (get kwargs "content") in
     let* content := lift (JSON_parse raw) in
     let* code := lift (get content "code") in
     let* data := lift (if is_zero code then get content "data" else Normal JUndefined) in
     if is_zero code && truthy data then
       console (LToolSuccess data)
     else
       let* msg := lift (get content "msg") in
       console (LToolError (js_or msg (JStr "Unknown error"))))
    (fun _ => console (LToolRaw (opt_get kwargs "content"))).

Definition console_tool_message (msg : JSValue) : Out unit :=
  let* kwargs := lift (get msg "kwargs") in
  let toolCallId := opt_get kwargs "tool_call_id" in
  when (truthy toolCallId)
    (let* toolName := lift (tool_name_of toolCallId) in
     console (LToolCalled toolName) ;;;
     console (LToolCallId (id_text toolCallId)) ;;;
     console_tool_response kwargs).

Definition console_tools (chunk : JSValue) : Out unit :=
  let* tools := lift (get chunk "tools") in
  when (truthy tools) (for_tool_messages tools console_tool_message).

(** The loop body: [finalResponse] is the state it updates. *)
Definition console_chunk (chunk : JSValue) (finalResponse : JSValue) : Out JSValue :=
  console_agent chunk ;;;
  console_tools chunk ;;;
  let* end_marker := lift (get chunk "__end__") in
  ret (if truthy end_marker then chunk else finalResponse).

(** [comment.reply_list?.replies?.[0]] *)
Definition first_reply (comment : JSValue) : JSValue :=
  opt_first (opt_get (opt_get comment "reply_list") "replies").

(** [reply?.content?.elements?.[0]?.text_run?.text || '无法获取评论内容'] *)
Definition comment_text (comment : JSValue) : JSValue :=
  js_or (opt_get (opt_get (opt_first (opt_get (opt_get (first_reply comment) "content")
                                         "elements")) "text_run") "text")
        (JStr "无法获取评论内容").

Definition comment_author (comment : JSValue) : JSValue :=
  js_or (opt_get (first_reply comment) "user_name") (JStr "未知用户").

Definition comment_time (comment : JSValue) : JSValue :=
  js_or (opt_get (first_reply comment) "create_time") (JStr "未知时间").

(** The instruction handed to the agent. *)
Definition agent_input (docId : string) (commentText : JSValue) : JSValue :=
  JObj [("messages",
         JArr [JObj [("role", JStr "user");
                     ("content", JStr ("按照以下要求修改这个文档（文档ID:" +:+ docId +:+ ")："
                                       +:+ to_String commentText))]])].

Definition processNewCommentWithAgent
    (reactAgent : option (JSValue -> Completion AgentStream))
    (comment : JSValue) (docId : string) : Out JSValue :=
  match reactAgent with
  | None => console LAgentMissing ;;; ret JNull
  | Some agent =>
      try_catch
        (let commentText := comment_text comment in
         console (LExecuting commentText docId) ;;;
         let agentInput := agent_input docId commentText in
         emit (AgentCall agentInput) ;;;
         let* stream := lift (agent agentInput) in
         console LProcessing ;;;
         let* finalResponse := for_await stream console_chunk JNull in
         let* messages := lift (if truthy finalResponse then get finalResponse "messages"
                                else Normal JUndefined) in
         when (truthy finalResponse && truthy messages)
           (let* lastMessage := lift (last_element messages) in
            console LDone ;;;
            let* content := lift (get lastMessage "content") in
            console (LFinal content)) ;;;
         console LBlank ;;;
         ret finalResponse)
        (fun error => console (LAgentFailed (message error)) ;;; ret JNull)
  end.

End Translators.

(** ** The stream sink: [POST /api/agent/execute] *)

Definition newline : string := String "010"%char EmptyString.

Section StreamSink.
Context `{Builtins}.

(** [res.write(`data: ${JSON.stringify(event)}\n\n`)] *)
Definition sse_frame (event : JSValue) : string :=
  "data: " +:+ JSON_stringify event +:+ newline +:+ newline.

Definition write_event (event : JSValue) : Out unit := emit (ResWrite (sse_frame event)).

(** [res.write('data: [DONE]\n\n')] *)
Definition done_frame : string := "data: [DONE]" +:+ newline +:+ newline.

Definition agent_event (content : JSValue) : JSValue :=
  JObj [("type", JStr "agent"); ("content", content)].

Definition tool_call_event (tool args : JSValue) : JSValue :=
  JObj [("type", JStr "tool_call"); ("tool", tool); ("args", args)].

Definition tool_response_event (toolName : string) : JSValue :=
  JObj [("type", JStr "tool_response"); ("tool", JStr toolName); ("success", JBool true)].

Definition final_event (content : JSValue) : JSValue :=
  JObj [("type", JStr "final"); ("content", content)].

Definition error_event (msg : string) : JSValue :=
  JObj [("type", JStr "error"); ("message", JStr msg)].

(** One [tool_call] frame: the name is read first, then the serialized
    arguments are parsed. *)
Definition sse_tool_call (toolCall : JSValue) : Out unit :=
  let* toolName := lift (tool_call_name toolCall) in
  let* function := lift (get toolCall "function") in
  let* arguments := lift (get function "arguments") in
  let* args := lift (JSON_parse arguments) in
  write_event (tool_call_event toolName args).

Definition sse_agent (chunk : JSValue) : Out unit :=
  let* agent := lift (get chunk "agent") in
  when (truthy agent)
    (let* agentMessage := lift (last_agent_message agent) in
     let* content := lift (get agentMessage "content") in
     when (truthy content) (write_event (agent_event content)) ;;;
     let* additional_kwargs := lift (get agentMessage "additional_kwargs") in
     let tool_calls := opt_get additional_kwargs "tool_calls" in
     when (truthy tool_calls)
       (let* calls := lift (iterate tool_calls) in
        for_each calls (fun toolCall _ => sse_tool_call toolCall) tt)).

Definition sse_tool_message (msg : JSValue) : Out unit :=
  let* kwargs := lift (get msg "kwargs") in
  let toolCallId := opt_get kwargs "tool_call_id" in
  when (truthy toolCallId)
    (let* toolName := lift (tool_name_of toolCallId) in
     write_event (tool_response_event toolName)).

Definition sse_tools (chunk : JSValue) : Out unit :=
  let* tools := lift (get chunk "tools") in
  when (truthy tools) (for_tool_messages tools sse_tool_message).

Definition sse_final (chunk : JSValue) : Out unit :=
  let* end_marker := lift (get chunk "__end__") in
  let* messages := lift (if truthy end_marker then get chunk "messages"
                         else Normal JUndefined) in
  when (truthy end_marker && truthy messages)
    (let* lastMessage := lift (last_element messages) in
     let* content := lift (get lastMessage "content") in
     write_event (final_event content)).

(** The loop body of the handler. *)
Definition sse_chunk (chunk : JSValue) (_ : unit) : Out unit :=
  sse_agent chunk ;;;
  sse_tools chunk ;;;
  sse_final chunk.

(** The inner [try]/[catch] of the handler, entered after the response
    head has been written. *)
Definition stream_to_response
    (agent : JSValue -> Completion AgentStream) (msg : JSValue) : Out unit :=
  try_catch
    (let* stream := lift (agent (JObj [("messages",
                            JArr [JObj [("role", JStr "user"); ("content", msg)]])])) in
     for_await stream sse_chunk tt ;;;
     emit (ResWrite done_frame) ;;;
     emit ResEnd)
    (fun streamError =>
       console (LStreamError (message streamError)) ;;;
       write_event (error_event (message streamError)) ;;;
       emit ResEnd).

(** The handler; [now] is the time stamp put in the JSON bodies. *)
Definition agent_execute
    (reactAgent : option (JSValue -> Completion AgentStream))
    (now : string) (body : JSValue) : Out unit :=
  try_catch
    (match reactAgent with
     | None =>
         emit (ResJson 503 (JObj [("error", JStr "React Agent未初始化");
                                  ("timestamp", JStr now)]))
     | Some agent =>
         let* msg := lift (get body "message") in
         if truthy msg then
           console (LRequest msg) ;;;
           emit (ResWriteHead 200) ;;;
           stream_to_response agent msg
         else
           emit (ResJson 400 (JObj [("error", JStr "请提供消息内容");
                                    ("timestamp", JStr now)]))
     end)
    (fun error =>
       console (LExecuteFailed (message error)) ;;;
       emit (ResJson 500 (JObj [("error", JStr "Agent执行失败");
                                ("message", JStr (message error));
                                ("timestamp", JStr now)]))).

(** ** The stand-alone example: the chunk loop of [runAgent] *)

(** The loop body for one requested invocation: its name is printed, then
    its arguments are parsed and printed. *)
Definition example_tool_call (toolCall : JSValue) : Out unit :=
  let* toolName := lift (tool_call_name toolCall) in
  console (LToolName toolName) ;;;
  let* function := lift (get toolCall "function") in
  let* arguments := lift (get function "arguments") in
  let* args := lift (JSON_parse arguments) in
  console (LToolArgs args).

Definition example_tool_calls (agentMessage : JSValue) : Out unit :=
  let* additional_kwargs := lift (get agentMessage "additional_kwargs") in
  let tool_calls := opt_get additional_kwargs "tool_calls" in
  when (truthy tool_calls)
    (console LCallingTools ;;;
     let* calls := lift (iterate tool_calls) in
     for_each calls (fun toolCall _ => example_tool_call toolCall) tt).

Definition example_agent (chunk : JSValue) : Out unit :=
  let* agent := lift (get chunk "agent") in
  when (truthy agent)
    (let* agentMessage := lift (last_agent_message agent) in
     let* usage := lift (get agentMessage "usage_metadata") in
     when (truthy usage)
       (console (LTokenUsage (opt_get usage "input_tokens") (opt_get usage "output_tokens")
                   (opt_get usage "total_tokens"))) ;;;
     let* content := lift (get agentMessage "content") in
     when (truthy content) (console (LAgent content)) ;;;
     let* reasoning := lift (get agentMessage "reasoning_content") in
     when (truthy reasoning) (console (LThinking reasoning)) ;;;
     example_tool_calls agentMessage).

Definition example_tool_response (kwargs : JSValue) : Out unit :=
  try_catch
    (let* raw := lift (get kwargs "content") in
     let* content := lift (JSON_parse raw) in
     let* code := lift (get content "code") in
     if is_zero code then
       console LToolOk ;;;
       let* data := lift (get content "data") in
       when (truthy data) (console (LToolData data))
     else
       let* msg := lift (get content "msg") in
       console (LToolError (js_or msg (JStr "Unknown error"))))
    (fun _ => console (LToolRaw (opt_get kwargs "content"))).

Definition example_tool_message (msg : JSValue) : Out unit :=
  let* kwargs := lift (get msg "kwargs") in
  let toolCallId := opt_get kwargs "tool_call_id" in
  when (truthy toolCallId)
    (let* toolName := lift (tool_name_of toolCallId) in
     console (LToolResponseFrom toolName) ;;;
     example_tool_response kwargs).

Definition example_tools (chunk : JSValue) : Out unit :=
  let* tools := lift (get chunk "tools") in
  when (truthy tools) (for_tool_messages tools example_tool_message).

Definition example_end (chunk : JSValue) : Out unit :=
  let* end_marker := lift (get chunk "__end__") in
  when (truthy end_marker)
    (console LCompleted ;;;
     let* messages := lift (get chunk "messages") in
     when (truthy messages)
       (let* lastMessage := lift (last_element messages) in
        console LDone ;;;
        let* content := lift (get lastMessage "content") in
        console (LFinal content))).

Definition example_chunk (chunk : JSValue) (_ : unit) : Out unit :=
  example_agent chunk ;;;
  example_tools chunk ;;;
  example_end chunk.

End StreamSink.

(** ** The polling tick: [invokeGetCommentsTools] *)

(** A tool of the MCP client. *)
Record McpTool : Type := mkTool {
  tool_name : string;
  invoke : JSValue -> Completion JSValue
}.

(** The collaborators as one tick finds them: the MCP client ([None] when it
    was never initialised) with the outcome of [getTools()], and the agent. *)
Record Env : Type := mkEnv {
  mcpClient : option (Completion (list McpTool));
  reactAgent : option (JSValue -> Completion AgentStream)
}.

(** A computation that also reads and updates [commentsCache]; an update
    made before an exception stays made. *)
Definition Task (A : Type) : Type :=
  gmap string JSValue -> gmap string JSValue * Out A.

Definition task_bind {A B} (m : Task A) (f : A -> Task B) : Task B :=
  fun cache =>
    match m cache with
    | (cache', (o, Normal a)) =>
        match f a cache' with
        | (cache'', (o', r)) => (cache'', (o ++ o', r))
        end
    | (cache', (o, Throw e)) => (cache', (o, Throw e))
    end.

Definition task_try {A} (m : Task A) (h : JSError -> Task A) : Task A :=
  fun cache =>
    match m cache with
    | (cache', (o, Throw e)) =>
        match h e cache' with
        | (cache'', (o', r)) => (cache'', (o ++ o', r))
        end
    | done => done
    end.

(** An output-only computation run as a task. *)
Definition run {A} (m : Out A) : Task A := fun cache => (cache, m).

(** [commentsCache.get(docId)] *)
Definition commentsCache_get (docId : string) : Task JSValue :=
  fun cache => (cache, ret (default JUndefined (cache !! docId))).

(** [commentsCache.set(docId, snapshot)] *)
Definition commentsCache_set (docId : string) (snapshot : JSValue) : Task unit :=
  fun cache => (<[docId := snapshot]> cache, emit (CacheSet docId snapshot)).

Notation "'let!' x ':=' m 'in' k" := (task_bind m (fun x => k))
  (at level 10, x name, m at level 100, k at level 200) : js_scope.
Notation "m ';;!' k" := (task_bind m (fun _ => k))
  (at level 100, k at level 200, right associativity) : js_scope.

(** The [for (let index = 0; ...)] loop over the new comments. *)
Fixpoint task_for {B} (l : list B) (index : nat) (body : nat -> B -> Task unit) : Task unit :=
  match l with
  | [] => run (ret tt)
  | x :: rest => body index x ;;! task_for rest (S index) body
  end.

Section Tick.
Context `{Builtins}.

(** The arguments of the [drive_comment_list] call. *)
Definition comment_list_args (docId : string) : JSValue :=
  JObj [("file_token", JStr docId); ("file_type", JStr "docx");
        ("is_whole", JBool true); ("is_solved", JBool false)].

(** The body of the dispatch loop for one new comment. *)
Definition dispatch_comment (env : Env) (docId : string) (index : nat) (comment : JSValue)
  : Task unit :=
  run (console (LNewComment (S index) (comment_author comment) (comment_time comment)
                  (comment_text comment))) ;;!
  task_try
    (run (processNewCommentWithAgent (reactAgent env) comment docId ;;; ret tt))
    (fun error => run (console (LCommentError (message error)))).

Definition invokeGetCommentsTools (env : Env) (docId : string) : Task JSValue :=
  match mcpClient env with
  | None => run (console LClientMissing ;;; ret JNull)
  | Some getTools =>
      task_try
        (let! tools := run (lift getTools) in
         match find (fun tool => tool_name tool =? "drive_comment_list") tools with
         | None => run (console LToolMissing ;;; ret JNull)
         | Some commentTool =>
             let! result := run (lift (invoke commentTool (comment_list_args docId))) in
             let! responseData := run (lift (JSON_parse result)) in
             let! items := run (lift (get responseData "items")) in
             let currentComments := js_or items (JArr []) in
             let! cached := commentsCache_get docId in
             let cachedComments := js_or cached (JArr []) in
             let! newComments := run (detectNewComments cachedComments currentComments) in
             commentsCache_set docId currentComments ;;!
             (if (0 <? length newComments)%nat then
                run (console (LNewCount (length newComments))) ;;!
                task_for newComments 0 (dispatch_comment env docId) ;;!
                run (console LSeparator)
              else run (ret tt)) ;;!
             run (ret result)
         end)
        (fun error =>
           run (console (LFetchFailed (message error)) ;;;
                when (name error =? "ToolException")
                  (console (LToolException (message error))) ;;;
                ret JNull))
  end.

End Tick.

(** ** The monitor registry and its timers *)

(** The process-wide tables, the interval timers the event loop still fires
    (each with the document its callback captured), and the ticks that were
    started and whose fetch has not settled yet. *)
Record Monitor : Type := mkMonitor {
  activeTimers : gmap string nat;
  commentsCache : gmap string JSValue;
  intervals : gmap nat string;
  next_timer : nat;
  in_flight : list string;
  (** what the ticks have reported so far *)
  history : list Event
}.

Definition initial : Monitor := mkMonitor ∅ ∅ ∅ 0 [] [].

(** One turn of the event loop; each runs to completion before the next. *)
Inductive Action : Type :=
  (** [GET /?url=...] with a URL of the document [docId] *)
  | StartMonitor (docId : string)
  (** [DELETE /api/monitors/:docId] *)
  | StopMonitor (docId : string)
  (** [DELETE /api/monitors] *)
  | StopAll
  (** an interval timer fires and its callback calls
      [invokeGetCommentsTools], which suspends at its first [await] *)
  | TimerFires (timer : nat)
  (** the fetch of an in-flight tick settles and the tick runs on *)
  | FetchSettles (index : nat) (env : Env).

(** [activeTimers.forEach(timer => clearInterval(timer))] *)
Definition clear_all (timers : list (string * nat)) (live : gmap nat string)
  : gmap nat string :=
  foldr (fun entry acc => delete (snd entry) acc) live timers.

Section Registry.
Context `{Builtins}.

Definition step (a : Action) (m : Monitor) : option Monitor :=
  match a with
  | StartMonitor docId =>
      let stopped :=
        match activeTimers m !! docId with
        | Some timer => (delete timer (intervals m), delete docId (commentsCache m))
        | None => (intervals m, commentsCache m)
        end in
      let timer := next_timer m in
      Some (mkMonitor (<[docId := timer]> (activeTimers m)) (snd stopped)
              (<[timer := docId]> (fst stopped)) (S timer) (in_flight m) (history m))
  | StopMonitor docId =>
      match activeTimers m !! docId with
      | Some timer =>
          Some (mkMonitor (delete docId (activeTimers m)) (delete docId (commentsCache m))
                  (delete timer (intervals m)) (next_timer m) (in_flight m) (history m))
      | None => Some m
      end
  | StopAll =>
      Some (mkMonitor ∅ ∅ (clear_all (map_to_list (activeTimers m)) (intervals m))
              (next_timer m) (in_flight m) (history m))
  | TimerFires timer =>
      match intervals m !! timer with
      | Some docId =>
          Some (mkMonitor (activeTimers m) (commentsCache m) (intervals m) (next_timer m)
                  (in_flight m ++ [docId]) (history m))
      | None => None
      end
  | FetchSettles index env =>
      match in_flight m !! index with
      | Some docId =>
          let tick := invokeGetCommentsTools env docId (commentsCache m) in
          Some (mkMonitor (activeTimers m) (fst tick) (intervals m) (next_timer m)
                  (delete index (in_flight m)) (history m ++ fst (snd tick)))
      | None => None
      end
  end.

(** A schedule: the turns of the event loop in order. *)
Fixpoint run_schedule (actions : list Action) (m : Monitor) : option Monitor :=
  match actions with
  | [] => Some m
  | a :: rest =>
      match step a m with
      | Some m' => run_schedule rest m'
      | None => None
      end
  end.

End Registry.

(** The number of ticks of [docId] between the start of their fetch and
    their snapshot update. *)
Definition ticks_in_flight (docId : string) (m : Monitor) : nat :=
  length (filter (fun d => d = docId) (in_flight m)).

(** ** A reference runtime

    [JSON.parse], [JSON.stringify] and string conversion on the fragment of
    JSON without string escapes, fractions and exponents.  The examples run
    on it; the theorems hold for every runtime. *)

Definition quote : string := String "034"%char EmptyString.

Definition is_space (c : ascii) : bool :=
  (Ascii.eqb c " " || Ascii.eqb c "009" || Ascii.eqb c "010" || Ascii.eqb c "013")%char.

Definition digit_of (c : ascii) : option Z :=
  let n := Z.of_nat (nat_of_ascii c) in
  if ((48 <=? n) && (n <=? 57))%Z then Some (n - 48)%Z else None.

Fixpoint skip_space (s : string) : string :=
  match s with
  | String c rest => if is_space c then skip_space rest else s
  | EmptyString => s
  end.

(** The digits at the head of [s], as a number, and what follows them. *)
Fixpoint read_digits (s : string) (acc : Z) : Z * string :=
  match s with
  | String c rest =>
      match digit_of c with
      | Some d => read_digits rest (10 * acc + d)%Z
      | None => (acc, s)
      end
  | EmptyString => (acc, s)
  end.

(** An integer literal without leading zeros. *)
Definition read_int (s : string) : option (Z * string) :=
  match s with
  | String c rest =>
      match digit_of c with
      | Some d =>
          match rest with
          | String c' _ =>
              if (d =? 0)%Z && bool_decide (is_Some (digit_of c')) then None
              else Some (read_digits s 0)
          | EmptyString => Some (d, rest)
          end
      | None => None
      end
  | EmptyString => None
  end.

(** The characters up to the closing quote; escapes and control characters
    are outside the fragment. *)
Fixpoint read_string (s : string) : option (string * string) :=
  match s with
  | String c rest =>
      if Ascii.eqb c "034"%char then Some (EmptyString, rest)
      else if Ascii.eqb c "\"%char || (nat_of_ascii c <? 32)%nat then None
      else match read_string rest with
           | Some (body, rest') => Some (String c body, rest')
           | None => None
           end
  | EmptyString => None
  end.

Definition starts_with (p s : string) : option string :=
  if String.prefix p s then Some (String.substring (String.length p)
                                    (String.length s - String.length p) s)
  else None.

Fixpoint read_value (fuel : nat) (s : string) : option (JSValue * string) :=
  match fuel with
  | O => None
  | S fuel' =>
      match skip_space s with
      | String "[" rest =>
          match skip_space rest with
          | String "]" rest' => Some (JArr [], rest')
          | _ => read_elements fuel' rest []
          end
      | String "{" rest =>
          match skip_space rest with
          | String "}" rest' => Some (JObj [], rest')
          | _ => read_members fuel' rest []
          end
      | String "034" rest =>
          match read_string rest with
          | Some (body, rest') => Some (JStr body, rest')
          | None => None
          end
      | String "-" rest =>
          match read_int rest with
          | Some (n, rest') => Some (JNum (- n), rest')
          | None => None
          end
      | String "n" _ as t => option_map (pair JNull) (starts_with "null" t)
      | String "t" _ as t => option_map (pair (JBool true)) (starts_with "true" t)
      | String "f" _ as t => option_map (pair (JBool false)) (starts_with "false" t)
      | t => option_map (fun r => (JNum (fst r), snd r)) (read_int t)
      end
  end
with read_elements (fuel : nat) (s : string) (acc : list JSValue)
  : option (JSValue * string) :=
  match fuel with
  | O => None
  | S fuel' =>
      match read_value fuel' s with
      | Some (v, rest) =>
          match skip_space rest with
          | String "," rest' => read_elements fuel' rest' (acc ++ [v])
          | String "]" rest' => Some (JArr (acc ++ [v]), rest')
          | _ => None
          end
      | None => None
      end
  end
with read_members (fuel : nat) (s : string) (acc : list (string * JSValue))
  : option (JSValue * string) :=
  match fuel with
  | O => None
  | S fuel' =>
      match skip_space s with
      | String "034" rest =>
          match read_string rest with
          | Some (key, rest') =>
              match skip_space rest' with
              | String ":" rest'' =>
                  match read_value fuel' rest'' with
                  | Some (v, rest3) =>
                      match skip_space rest3 with
                      | String "," rest4 => read_members fuel' rest4 (set_prop key v acc)
                      | String "}" rest4 => Some (JObj (set_prop key v acc), rest4)
                      | _ => None
                      end
                  | None => None
                  end
              | _ => None
              end
          | None => None
          end
      | _ => None
      end
  end.

(** [JSON.parse(text)] on the fragment. *)
Definition parse_text (text : string) : Completion JSValue :=
  match read_value (S (String.length text)) text with
  | Some (v, rest) =>
      match skip_space rest with
      | EmptyString => Normal v
      | _ => Throw (SyntaxError "Unexpected non-whitespace character after JSON")
      end
  | None => Throw (SyntaxError "Unexpected token in JSON")
  end.

Definition join (sep : string) (parts : list string) : string :=
  match parts with
  | [] => EmptyString
  | p :: rest => foldl (fun acc q => acc +:+ sep +:+ q) p rest
  end.

(** [JSON.stringify(v)]; [None] stands for [undefined]. *)
Fixpoint stringify (v : JSValue) : option string :=
  match v with
  | JUndefined => None
  | JNull => Some "null"
  | JBool b => Some (if b then "true" else "false")
  | JNum n => Some (pretty n)
  | JStr s => Some (quote +:+ s +:+ quote)
  | JArr l =>
      Some ("[" +:+ join "," (map (fun x => default "null" (stringify x)) l) +:+ "]")
  | JObj props =>
      let member :=
        fix member (props : list (string * JSValue)) : list string :=
          match props with
          | [] => []
          | (k, x) :: rest =>
              match stringify x with
              | Some t => (quote +:+ k +:+ quote +:+ ":" +:+ t) :: member rest
              | None => member rest
              end
          end in
      Some ("{" +:+ join "," (member props) +:+ "}")
  end.

(** The string conversion of a value. *)
Fixpoint text_of (v : JSValue) : string :=
  match v with
  | JUndefined => "undefined"
  | JNull => "null"
  | JBool b => if b then "true" else "false"
  | JNum n => pretty n
  | JStr s => s
  | JArr l => join "," (map (fun x => if nullish x then EmptyString else text_of x) l)
  | JObj _ => "[object Object]"
  end.

(** The key of [length - 1] for integral lengths. *)
Definition length_pred_key (len : JSValue) : string :=
  match len with
  | JNum n => pretty (n - 1)%Z
  | JNull | JBool false => "-1"
  | JBool true => "0"
  | JStr _ | JArr _ =>
      match skip_space (text_of len) with
      | EmptyString => "-1"
      | t => match parse_text t with
             | Normal (JNum n) => pretty (n - 1)%Z
             | _ => "NaN"
             end
      end
  | JUndefined | JObj _ => "NaN"
  end.

#[export] Instance reference_runtime : Builtins := {
  JSON_parse v := parse_text (text_of v);
  JSON_stringify v := default "undefined" (stringify v);
  to_String := text_of;
  pred_key := length_pred_key
}.

(** JSON source text for the examples. *)
Definition json_key (k : string) : string := quote +:+ k +:+ quote +:+ ":".

(** ** The diff as the specification words it *)

(** The replies a comment carries, in order. *)
Definition comment_replies (comment : JSValue) : list JSValue :=
  match opt_get (opt_get comment "reply_list") "replies" with
  | JArr replies => replies
  | _ => []
  end.

(** The replies of a snapshot, each with its parent comment, walking the
    comments in order and each comment's replies in order. *)
Definition snapshot_replies (snapshot : JSValue) : list (JSValue * JSValue) :=
  match snapshot with
  | JArr comments => flat_map (fun c => map (pair c) (comment_replies c)) comments
  | _ => []
  end.

Definition reply_id (reply : JSValue) : JSValue := opt_get reply "reply_id".

(** A reply has an identifier when its [reply_id] is present and not empty. *)
Definition has_id (reply : JSValue) : bool := truthy (reply_id reply).

(** The [reply_id] values collected from all reply lists of a snapshot. *)
Definition snapshot_ids (snapshot : JSValue) : list JSValue :=
  map reply_id (filter (fun r => has_id r = true) (map snd (snapshot_replies snapshot))).

(** The reply's identifier is among those of [old]. *)
Definition known (old reply : JSValue) : bool :=
  existsb (same_value_zero (reply_id reply)) (snapshot_ids old).

(** A reply tagged with its parent comment's context. *)
Definition tagged (cr : JSValue * JSValue) : JSValue :=
  single_reply_comment (fst cr) (opt_get (fst cr) "reply_list") (snd cr).

Definition diff (old new : JSValue) : list JSValue :=
  map tagged
    (filter (fun cr => has_id (snd cr) && negb (known old (snd cr)) = true)
       (snapshot_replies new)).

(** A snapshot as the comment service delivers it: an array of comments, a
    comment's replies (when it has any) an array of reply objects. *)
Definition well_formed_comment (comment : JSValue) : bool :=
  negb (nullish comment) &&
  (if truthy (opt_get comment "reply_list")
      && truthy (opt_get (opt_get comment "reply_list") "replies")
   then match opt_get (opt_get comment "reply_list") "replies" with
        | JArr replies => forallb (fun r => negb (nullish r)) replies
        | _ => false
        end
   else true).

Definition well_formed (snapshot : JSValue) : bool :=
  match snapshot with
  | JArr comments => forallb well_formed_comment comments
  | _ => false
  end.

(** The stored snapshot as a tick reads it: [commentsCache.get(docId) || []]. *)
Definition stored_snapshot (cache : gmap string JSValue) (docId : string) : JSValue :=
  js_or (default JUndefined (cache !! docId)) (JArr []).

(** What the first walk of [detectNewComments] adds to the identifier set
    for a list of replies. *)
Definition add_ids (replies : list JSValue) (ids : list JSValue) : list JSValue :=
  foldl (fun acc r => if has_id r then Set_add (reply_id r) acc else acc) ids replies.

(** What the second walk pushes for a list of replies. *)
Definition fresh_replies (ids : list JSValue) (replies : list JSValue) : list JSValue :=
  filter (fun r => has_id r && negb (Set_has ids (reply_id r)) = true) replies.

(** ** The phases of a tick *)

Section TickPhases.
Context `{Builtins}.

(** What the tick computes before it reads the cache: the raw result of the
    comment tool and the current comments, [None] when the client or the
    tool is missing, an exception when a call or the parsing fails. *)
Definition fetch_comments (env : Env) (docId : string)
  : Completion (option (JSValue * JSValue)) :=
  match mcpClient env with
  | None => Normal None
  | Some getTools =>
      let? tools := getTools in
      match find (fun tool => tool_name tool =? "drive_comment_list") tools with
      | None => Normal None
      | Some commentTool =>
          let? result := invoke commentTool (comment_list_args docId) in
          let? responseData := JSON_parse result in
          let? items := get responseData "items" in
          Normal (Some (result, js_or items (JArr [])))
      end
  end.

(** What the dispatch loop reports for the new comments, numbered from
    [index]. *)
Definition dispatch_output (env : Env) (docId : string) (index : nat)
    (newComments : list JSValue) : list Event :=
  fst (snd (task_for newComments index (dispatch_comment env docId) ∅)).

(** What the tick reports after the cache update. *)
Definition report_output (env : Env) (docId : string) (newComments : list JSValue)
  : list Event :=
  if (0 <? length newComments)%nat then
    Console (LNewCount (length newComments))
      :: dispatch_output env docId 0 newComments ++ [Console LSeparator]
  else [].

(** What the [catch] block of the tick reports. *)
Definition failure_output (error : JSError) : list Event :=
  Console (LFetchFailed (message error))
    :: (if name error =? "ToolException" then [Console (LToolException (message error))]
        else []).

End TickPhases.

(** The events by which the handling of a new reply shows: its report line
    and everything [processNewCommentWithAgent] may print or start. *)
Definition dispatch_event (e : Event) : bool :=
  match e with
  | AgentCall _ => true
  | Console (LNewCount _) | Console (LNewComment _ _ _ _) => true
  | Console LAgentMissing | Console (LExecuting _ _) | Console (LAgentFailed _) => true
  | _ => false
  end.

(** ** Sample data *)

Definition sample_reply (id text : string) : JSValue :=
  JObj [("reply_id", JStr id); ("user_name", JStr "alice");
        ("create_time", JNum 1700000000);
        ("content", JObj [("elements",
                           JArr [JObj [("text_run", JObj [("text", JStr text)])]])])].

Definition sample_comment (id : string) (replies : list JSValue) : JSValue :=
  JObj [("comment_id", JStr id); ("reply_list", JObj [("replies", JArr replies)])].

(** A document with one comment thread and one reply. *)
Definition sample_snapshot_1 : JSValue :=
  JArr [sample_comment "c1" [sample_reply "r1" "first"]].

(** The same document after a second reply arrived. *)
Definition sample_snapshot_2 : JSValue :=
  JArr [sample_comment "c1" [sample_reply "r1" "first"; sample_reply "r2" "second"]].

(** A comment tool that answers with the given response text. *)
Definition sample_tool (response : JSValue) : McpTool :=
  mkTool "drive_comment_list" (fun _ => Normal response).

(** An agent whose stream fails at once. *)
Definition failing_agent : JSValue -> Completion AgentStream :=
  fun _ => Throw (mkError "Error" "model unavailable").

(** Collaborators that deliver [response] and an agent that fails. *)
Definition sample_env (response : JSValue) : Env :=
  mkEnv (Some (Normal [sample_tool response])) (Some failing_agent).

(** A reply that carries nothing but its identifier, and its JSON text. *)
Definition bare_reply (id : string) : JSValue := JObj [("reply_id", JStr id)].

Definition bare_reply_text (id : string) : string :=
  "{" +:+ json_key "reply_id" +:+ quote +:+ id +:+ quote +:+ "}".

(** The response text of a document with one comment thread holding the
    replies [ids], and the snapshot it parses to. *)
Definition response_text (ids : list string) : string :=
  "{" +:+ json_key "items" +:+ "[{" +:+ json_key "reply_list" +:+ "{"
  +:+ json_key "replies" +:+ "[" +:+ join "," (map bare_reply_text ids) +:+ "]}}]}".

Definition response_snapshot (ids : list string) : JSValue :=
  JArr [JObj [("reply_list", JObj [("replies", JArr (map bare_reply ids))])]].

(** The cache after a poll that saw the reply [r1]. *)
Definition sample_cache : gmap string JSValue :=
  <["doc" := response_snapshot ["r1"]]> ∅.

(** A poll that sees [r1] and [r2] while the agent is failing. *)
Definition sample_poll : Env := sample_env (JStr (response_text ["r1"; "r2"])).

(** A poll whose response is not JSON. *)
Definition broken_poll : Env := sample_env (JStr "<html>Bad Gateway</html>").

(** ** What a response looks like from outside *)

(** The body written so far, frame by frame. *)
Definition response_body (events : list Event) : list string :=
  omap (fun e => match e with ResWrite data => Some data | _ => None end) events.

(** How many times the response was closed. *)
Definition is_end (e : Event) : bool :=
  match e with
  | ResEnd => true
  | _ => false
  end.

Definition times_ended (events : list Event) : nat :=
  length (filter (fun e => is_end e = true) events).

(** The request object of a directly requested run. *)
Definition user_request (msg : JSValue) : JSValue :=
  JObj [("messages", JArr [JObj [("role", JStr "user"); ("content", msg)]])].

(** The translation of the whole stream by the stream sink, before the
    sentinel or the error frame is written. *)
Definition sse_translate `{Builtins} (agent : JSValue -> Completion AgentStream)
    (msg : JSValue) : Out unit :=
  let* stream := lift (agent (user_request msg)) in
  for_await stream sse_chunk tt.

(** A chunk whose last agent message is [agentMessage]. *)
Definition agent_chunk (agentMessage : JSValue) : JSValue :=
  JObj [("agent", JObj [("messages", JArr [agentMessage])])].

(** A requested tool invocation. *)
Definition tool_call (toolName : string) (arguments : string) : JSValue :=
  JObj [("function", JObj [("name", JStr toolName); ("arguments", JStr arguments)])].

(** An agent message that requests the given invocations. *)
Definition calling_message (calls : list JSValue) : JSValue :=
  JObj [("content", JStr ""); ("additional_kwargs", JObj [("tool_calls", JArr calls)])].

(** A chunk that carries one tool execution result. *)
Definition tool_chunk (toolCallId content : string) : JSValue :=
  JObj [("tools",
         JObj [("messages",
                JArr [JObj [("kwargs", JObj [("tool_call_id", JStr toolCallId);
                                             ("content", JStr content)])]])])].

(** [toolCall.function.name] and [toolCall.function.arguments] of an
    invocation that has a [function]. *)
Definition call_name (toolCall : JSValue) : JSValue :=
  opt_get (opt_get toolCall "function") "name".

Definition call_arguments (toolCall : JSValue) : JSValue :=
  opt_get (opt_get toolCall "function") "arguments".

Definition has_function (toolCall : JSValue) : bool :=
  negb (nullish toolCall) && negb (nullish (opt_get toolCall "function")).

(** No colon occurs in [s]. *)
Fixpoint colon_free (s : string) : bool :=
  match s with
  | EmptyString => true
  | String c rest => negb (Ascii.eqb c ":"%char) && colon_free rest
  end.

(** An event that writes one [data: <json>] frame. *)
Definition data_frame `{Builtins} (e : Event) : Prop :=
  exists event, e = ResWrite (sse_frame event).

(** The frame of the agent text of a message, when it has any. *)
Definition content_frames `{Builtins} (agentMessage : JSValue) : list Event :=
  if truthy (opt_get agentMessage "content")
  then [ResWrite (sse_frame (agent_event (opt_get agentMessage "content")))]
  else [].

(** One [tool_call] frame per invocation, with its parsed arguments. *)
Definition call_frames `{Builtins} (calls parsed : list JSValue) : list Event :=
  zip_with (fun call args => ResWrite (sse_frame (tool_call_event (call_name call) args)))
    calls parsed.

(** The console lines of the example for the same invocations. *)
Definition call_lines (calls parsed : list JSValue) : list Event :=
  concat (zip_with (fun call args => [Console (LToolName (call_name call));
                                      Console (LToolArgs args)]) calls parsed).

(** A chunk in which the agent asks for a search with well-formed arguments
    and then for an edit whose arguments are cut short. *)
Definition sample_calls_chunk : JSValue :=
  agent_chunk (calling_message [tool_call "search" "{}"; tool_call "edit" "{bad"]).

(** The payload of a tool that refused: [{"code":1,"msg":"denied"}]. *)
Definition denied_payload : string :=
  "{" +:+ json_key "code" +:+ "1," +:+ json_key "msg" +:+ quote +:+ "denied" +:+ quote +:+ "}".

(** The payload of a tool that succeeded without data: [{"code":0}]. *)
Definition bare_success_payload : string := "{" +:+ json_key "code" +:+ "0}".

(** A tool execution result as it sits in a chunk. *)
Definition tool_message (toolCallId content : string) : JSValue :=
  JObj [("kwargs", JObj [("tool_call_id", JStr toolCallId); ("content", JStr content)])].

(** How many times the agent was started. *)
Definition agent_calls (events : list Event) : nat :=
  length (filter (fun e => match e with AgentCall _ => true | _ => false end = true) events).

(** A poll that sees only [r1], and one that sees [r1] and [r2]. *)
Definition poll_one : Env := sample_env (JStr (response_text ["r1"])).
Definition poll_two : Env := sample_env (JStr (response_text ["r1"; "r2"])).

(** A schedule in which a slow tick that fetched before [r2] was written
    settles after a tick that fetched after it. *)
Definition racing_schedule : list Action :=
  [StartMonitor "doc";
   TimerFires 0; FetchSettles 0 poll_one;
   TimerFires 0; TimerFires 0;
   FetchSettles 1 poll_two; FetchSettles 0 poll_one;
   TimerFires 0; FetchSettles 0 poll_two].

(** Every live interval timer is the one the registry records for its
    document, and timer handles are never reused. *)
Definition registry_consistent (m : Monitor) : Prop :=
  (forall timer docId,
      intervals m !! timer = Some docId -> activeTimers m !! docId = Some timer)
  /\ (forall docId timer, activeTimers m !! docId = Some timer -> timer < next_timer m).

(** Monitoring started twice for one document, with a tick of each timer. *)
Definition restart_schedule : list Action :=
  [StartMonitor "doc"; TimerFires 0; StartMonitor "doc"; TimerFires 1].

Definition restarted : Monitor := default initial (run_schedule restart_schedule initial).

(** The response text of a document with several comment threads, and the
    snapshot it parses to. *)
Definition thread_text (ids : list string) : string :=
  "{" +:+ json_key "reply_list" +:+ "{" +:+ json_key "replies" +:+ "["
  +:+ join "," (map bare_reply_text ids) +:+ "]}}".

Definition document_text (threads : list (list string)) : string :=
  "{" +:+ json_key "items" +:+ "[" +:+ join "," (map thread_text threads) +:+ "]}".

Definition document_snapshot (threads : list (list string)) : JSValue :=
  JArr (map (fun ids => JObj [("reply_list", JObj [("replies", JArr (map bare_reply ids))])])
          threads).

(** A document with two comments and three replies is polled; a fourth
    reply arrives and the document is polled again, while the agent fails. *)
Definition scenario : list Action :=
  [StartMonitor "D";
   TimerFires 0;
   FetchSettles 0 (sample_env (JStr (document_text [["r1"; "r2"]; ["r3"]])));
   TimerFires 0;
   FetchSettles 0 (sample_env (JStr (document_text [["r1"; "r2"]; ["r3"; "r4"]])))].

(** ** Several polls in a row *)

(** The comments reported by successive ticks that fetch the snapshots
    [fetched] one after the other, the first of them diffing against
    [stored]: a tick whose diff returns stores what it fetched, a tick whose
    diff throws reports nothing and stores nothing. *)
Fixpoint reported_by_polls (stored : JSValue) (fetched : list JSValue) : list JSValue :=
  match fetched with
  | [] => []
  | current :: rest =>
      match snd (detectNewComments stored current) with
      | Normal newComments =>
          newComments ++ reported_by_polls (js_or current (JArr [])) rest
      | Throw _ => reported_by_polls stored rest
      end
  end.

(** [later] holds every reply identifier that [earlier] holds. *)
Definition grows (earlier later : JSValue) : Prop :=
  forall reply, known earlier reply = true -> known later reply = true.

(** No reply disappears from one fetched snapshot to the next. *)
Fixpoint cumulative (stored : JSValue) (fetched : list JSValue) : Prop :=
  match fetched with
  | [] => True
  | current :: rest => grows stored current /\ cumulative current rest
  end.

(** * The rest of the program *)

(** ** More about the diff *)

(** A value that [Set.prototype.has] finds again: anything but an object or
    an array. *)
Definition primitive (v : JSValue) : bool :=
  match v with
  | JArr _ | JObj _ => false
  | _ => true
  end.

(** Every reply identifier of the snapshot is a primitive value. *)
Definition primitive_ids (snapshot : JSValue) : bool :=
  forallb (fun cr => primitive (reply_id (snd cr))) (snapshot_replies snapshot).

(** A reply of the fresh snapshot that the diff reports against [old]. *)
Definition fresh (old : JSValue) (cr : JSValue * JSValue) : bool :=
  has_id (snd cr) && negb (known old (snd cr)).

(** [reply?.content?.elements?.[0]?.text_run?.text || '无法获取评论内容'] for a
    reply. *)
Definition reply_text (reply : JSValue) : JSValue :=
  js_or (opt_get (opt_get (opt_first (opt_get (opt_get reply "content") "elements"))
                    "text_run") "text")
        (JStr "无法获取评论内容").

(** The instructions with which the agent was started. *)
Definition agent_inputs (events : list Event) : list JSValue :=
  omap (fun e => match e with AgentCall input => Some input | _ => None end) events.

(** ** More about the tick *)

Definition is_array (v : JSValue) : bool :=
  match v with
  | JArr _ => true
  | _ => false
  end.

(** An event other than the start of the agent. *)
Definition no_agent_call (e : Event) : Prop :=
  match e with
  | AgentCall _ => False
  | _ => True
  end.

(** What the dispatch loop prints for new comments when no agent exists. *)
Definition unhandled_lines (index : nat) (newComments : list JSValue) : list Event :=
  concat (imap (fun i comment =>
                  [Console (LNewComment (S (index + i)) (comment_author comment)
                              (comment_time comment) (comment_text comment));
                   Console LAgentMissing]) newComments).

(** Collaborators that deliver [response] while no agent exists. *)
Definition agentless_env (response : JSValue) : Env :=
  mkEnv (Some (Normal [sample_tool response])) None.

(** A response whose [items] is an object instead of a list. *)
Definition misshapen_response : JSValue :=
  JStr ("{" +:+ json_key "items" +:+ "{" +:+ json_key "total" +:+ "0}}").

(** ** Document links: [parseFeishuDocId] *)

(** [new URL(url).pathname]: the path of a link, or the [TypeError] of an
    invalid one. *)
Class Platform : Type := {
  URL_pathname : string -> Completion string
}.

(** [[a-zA-Z0-9]] *)
Definition is_alnum (c : ascii) : bool :=
  let n := nat_of_ascii c in
  ((48 <=? n) && (n <=? 57) || (65 <=? n) && (n <=? 90) || (97 <=? n) && (n <=? 122))%nat.

(** The longest run of [[a-zA-Z0-9]] at the head of a string. *)
Fixpoint take_alnum (s : string) : string :=
  match s with
  | String c rest => if is_alnum c then String c (take_alnum rest) else EmptyString
  | EmptyString => EmptyString
  end.

(** What follows the prefix [p] in [s], when [s] starts with it. *)
Fixpoint strip_prefix (p s : string) : option string :=
  match p, s with
  | EmptyString, _ => Some s
  | String a p', String b s' => if Ascii.eqb a b then strip_prefix p' s' else None
  | String _ _, EmptyString => None
  end.

(** The kinds of document the pattern names, in the order of its
    alternatives. *)
Definition doc_kinds : list string := ["docx"; "docs"; "wiki"].

(** The pattern [\/(docx|docs|wiki)\/([a-zA-Z0-9]+)] tried with one
    alternative at the head of [s]: the kind and the identifier. *)
Definition match_kind (s kind : string) : option (string * string) :=
  match strip_prefix ("/" +:+ kind +:+ "/") s with
  | Some rest =>
      let id := take_alnum rest in
      if id =? "" then None else Some (kind, id)
  | None => None
  end.

(** The pattern tried at the head of [s], alternative after alternative. *)
Fixpoint match_any (s : string) (kinds : list string) : option (string * string) :=
  match kinds with
  | [] => None
  | kind :: rest =>
      match match_kind s kind with
      | Some found => Some found
      | None => match_any s rest
      end
  end.

(** [pathname.match(pattern)]: the leftmost position at which the pattern
    matches. *)
Fixpoint search (s : string) : option (string * string) :=
  match match_any s doc_kinds with
  | Some found => Some found
  | None =>
      match s with
      | String _ rest => search rest
      | EmptyString => None
      end
  end.

(** The object the function returns. *)
Record DocInfo : Type := mkDocInfo {
  doc_type : string;
  doc_id : string;
  fullId : string
}.

(** The effects of the request handlers and of the process signals. *)
Inductive Effect : Type :=
  (** a console line: its fixed text and the values printed after it *)
  | Log (text : string) (values : list JSValue)
  (** [res.redirect(status, location)] *)
  | SendRedirect (status : Z) (location : string)
  (** [res.json(body)] after [res.status(status)] (200 when not set) *)
  | SendJson (status : Z) (body : JSValue)
  (** [authProvider.cleanup()] is called *)
  | AuthCleanup
  (** [mcpClient.close()] is called *)
  | ClientClose
  (** [process.exit(code)] *)
  | Exit (code : Z)
  (** an event of the pipeline *)
  | Pipeline (e : Event).

Section Links.
Context `{Platform}.

(** [None] stands for [null]; the list holds what was printed. *)
Definition parseFeishuDocId (url : string) : list Effect * option DocInfo :=
  match URL_pathname url with
  | Normal pathname =>
      match search pathname with
      | Some (kind, id) => ([], Some (mkDocInfo kind id id))
      | None => ([], None)
      end
  | Throw error => ([Log "URL解析错误:" [JStr (message error)]], None)
  end.

End Links.

(** Every character of [s] is in [[a-zA-Z0-9]]. *)
Fixpoint all_alnum (s : string) : bool :=
  match s with
  | String c rest => is_alnum c && all_alnum rest
  | EmptyString => true
  end.

(** [s] does not go on with a character of [[a-zA-Z0-9]]. *)
Definition stops (s : string) : bool :=
  match s with
  | String c _ => negb (is_alnum c)
  | EmptyString => true
  end.

(** ** The request handlers of the registry *)

Section Handlers.
Context `{Builtins} `{Platform}.

(** [GET /]: [url] is the query parameter, empty when it is absent; [now] is
    the time stamp put in the body. *)
Definition get_root (url now : string) (m : Monitor) : Monitor * list Effect :=
  if url =? "" then
    (m, [SendJson 200 (JObj [("message", JStr "飞书文档评论监控服务");
                              ("status", JStr "running");
                              ("activeMonitors", JNum (Z.of_nat (size (activeTimers m))));
                              ("timestamp", JStr now)])])
  else
    let parsed := parseFeishuDocId url in
    let started :=
      match snd parsed with
      | Some docInfo =>
          (default m (step (StartMonitor (fullId docInfo)) m),
           [Log "文档类型:" [JStr (doc_type docInfo)];
            Log "文档ID:" [JStr (doc_id docInfo)];
            Log "完整文档ID:" [JStr (fullId docInfo)]])
      | None => (m, [Log "无法解析文档ID，URL格式可能不正确" []])
      end in
    (fst started,
     Log "收到飞书文档URL:" [JStr url] :: fst parsed ++ snd started
       ++ [Log "重定向到:" [JStr url]; SendRedirect 302 url]).

(** [DELETE /api/monitors/:docId] *)
Definition delete_monitor (docId now : string) (m : Monitor) : Monitor * list Effect :=
  match activeTimers m !! docId with
  | Some _ =>
      (default m (step (StopMonitor docId) m),
       [SendJson 200 (JObj [("message", JStr "监控任务停止成功");
                            ("documentId", JStr docId); ("timestamp", JStr now)])])
  | None =>
      (m, [SendJson 404 (JObj [("error", JStr "监控任务不存在");
                               ("documentId", JStr docId); ("timestamp", JStr now)])])
  end.

(** [DELETE /api/monitors] *)
Definition delete_monitors (now : string) (m : Monitor) : Monitor * list Effect :=
  (default m (step StopAll m),
   [SendJson 200 (JObj [("message", JStr "所有监控任务已停止");
                        ("stoppedCount", JNum (Z.of_nat (size (activeTimers m))));
                        ("timestamp", JStr now)])]).

End Handlers.

(** The registry lists exactly the documents whose timer is live. *)
Definition registry_exact (m : Monitor) : Prop :=
  forall docId timer,
    activeTimers m !! docId = Some timer <-> intervals m !! timer = Some docId.

(** Every registered timer is live. *)
Definition timers_live (m : Monitor) : Prop :=
  forall docId timer, activeTimers m !! docId = Some timer -> intervals m !! timer = Some docId.

(** A registry in which one tick of a monitored document is in flight. *)
Definition polling : Monitor :=
  default initial (run_schedule [StartMonitor "doc"; TimerFires 0] initial).

(** A registry that monitors two documents, one of them with a stored
    snapshot. *)
Definition two_documents : Monitor :=
  default initial
    (run_schedule [StartMonitor "doc"; StartMonitor "other"; TimerFires 0;
                   FetchSettles 0 poll_one] initial).

(** The paths of the links of one host that carry no query and no
    fragment. *)
#[export] Instance sample_platform : Platform := {
  URL_pathname url :=
    match strip_prefix "https://example.feishu.cn" url with
    | Some path => Normal path
    | None => Throw (TypeError "Invalid URL")
    end
}.

(** ** Shutdown: the [SIGINT] and [SIGTERM] handlers *)

(** The resources to release: the OAuth provider and the MCP client, when
    they exist, each with the outcome of releasing it. *)
Record Resources : Type := mkResources {
  auth_cleanup : option (Completion unit);
  client_close : option (Completion unit)
}.

Section Shutdown.
Context `{Builtins}.

Definition on_sigint (r : Resources) (m : Monitor) : Monitor * list Effect :=
  (default m (step StopAll m),
   Log (newline +:+ "正在关闭服务器...") []
     :: match auth_cleanup r with
        | Some (Normal _) => [AuthCleanup; Log "OAuth认证已清理" []]
        | Some (Throw error) => [AuthCleanup; Log "清理OAuth认证时出错:" [JStr (message error)]]
        | None => []
        end
     ++ match client_close r with
        | Some (Normal _) => [Log "正在关闭MCP客户端连接..." []; ClientClose;
                              Log "MCP客户端连接已关闭" []]
        | Some (Throw error) => [Log "正在关闭MCP客户端连接..." []; ClientClose;
                                 Log "关闭MCP客户端时出错:" [JStr (message error)]]
        | None => []
        end
     ++ [Log "服务器已关闭" []; Exit 0]).

Definition on_sigterm (r : Resources) (m : Monitor) : Monitor * list Effect :=
  (default m (step StopAll m),
   Log (newline +:+ "收到SIGTERM信号，正在关闭服务器...") []
     :: match auth_cleanup r with
        | Some (Normal _) => [AuthCleanup]
        | Some (Throw error) => [AuthCleanup; Log "清理OAuth认证时出错:" [JStr (message error)]]
        | None => []
        end
     ++ match client_close r with
        | Some (Normal _) => [ClientClose; Log "MCP客户端连接已关闭" []]
        | Some (Throw error) => [ClientClose; Log "关闭MCP客户端时出错:" [JStr (message error)]]
        | None => []
        end
     ++ [Exit 0]).

End Shutdown.

(** The release calls and the exit among the effects, in order. *)
Definition is_teardown (e : Effect) : bool :=
  match e with
  | AuthCleanup | ClientClose | Exit _ => true
  | _ => false
  end.

Definition teardown (effects : list Effect) : list Effect :=
  filter (fun e => is_teardown e = true) effects.

(** The effect is a console line. *)
Definition is_log (e : Effect) : Prop :=
  match e with
  | Log _ _ => True
  | _ => False
  end.

(** ** More about the translators *)

(** How many JSON bodies were sent. *)
Definition is_json (e : Event) : bool :=
  match e with
  | ResJson _ _ => true
  | _ => false
  end.

Definition json_replies (events : list Event) : nat :=
  length (filter (fun e => is_json e = true) events).

(** The chunks that carry a truthy [__end__] field. *)
Definition end_chunks (chunks : list JSValue) : list JSValue :=
  List.filter (fun chunk => truthy (opt_get chunk "__end__")) chunks.

(** The chunks a loop reaches: all of them up to and including the first on
    which its body throws. *)
Fixpoint reached (body : JSValue -> Out unit) (chunks : list JSValue) : list JSValue :=
  match chunks with
  | [] => []
  | chunk :: rest =>
      match snd (body chunk) with
      | Normal _ => chunk :: reached body rest
      | Throw _ => [chunk]
      end
  end.

(** ** Start-up: [initializeChatModel] and [initializeMCPClient] *)

(** The outcomes of the constructors and calls of the start-up. *)
Record Startup : Type := mkStartup {
  (** [OAuthClientProvider.createWithAutoAuth(...)] *)
  create_auth : Completion unit;
  (** [new MultiServerMCPClient(...)] *)
  create_client : Completion unit;
  (** [mcpClient.getTools()] *)
  get_tools : Completion (list McpTool);
  (** [new ChatOpenAI(...)] *)
  create_model : Completion unit;
  (** [createReactAgent(...)] *)
  create_agent : Completion (JSValue -> Completion AgentStream)
}.

(** The module variables the start-up assigns; [false] and [None] stand for
    [null]. *)
Record Globals : Type := mkGlobals {
  has_client : bool;
  agent_of : option (JSValue -> Completion AgentStream);
  has_model : bool;
  has_auth : bool
}.

(** [initializeChatModel]: the globals and whether a model was returned. *)
Definition initializeChatModel (s : Startup) (g : Globals) : Globals * list Effect * bool :=
  match create_model s with
  | Normal _ =>
      (mkGlobals (has_client g) (agent_of g) true (has_auth g),
       [Log "正在初始化ChatOpenAI模型..." []; Log "ChatOpenAI模型初始化成功" []], true)
  | Throw error =>
      (mkGlobals (has_client g) (agent_of g) false (has_auth g),
       [Log "正在初始化ChatOpenAI模型..." [];
        Log "ChatOpenAI模型初始化失败:" [JStr (message error)]], false)
  end.

(** The [catch] block of [initializeMCPClient]. *)
Definition startup_failed (g : Globals) (logs : list Effect) (error : JSError)
  : Globals * list Effect * list McpTool :=
  (mkGlobals false None (has_model g) (has_auth g),
   logs ++ [Log "MCP客户端初始化失败:" [JStr (message error)];
            Log "提示: 请确保MCP服务器正在运行并且可以访问" [];
            Log "提示: 如果需要认证，请检查认证配置" []],
   []).

(** [initializeMCPClient]: the globals, what was printed and the tools
    returned; [serverUrl] is the configured server. *)
Definition initializeMCPClient (serverUrl : string) (s : Startup) (g : Globals)
  : Globals * list Effect * list McpTool :=
  let logs0 := [Log "正在初始化MCP客户端..." [];
                Log ("尝试连接到MCP服务器: " +:+ serverUrl) []] in
  match create_auth s with
  | Throw error => startup_failed g logs0 error
  | Normal _ =>
      let g1 := mkGlobals (has_client g) (agent_of g) (has_model g) true in
      match create_client s with
      | Throw error => startup_failed g1 logs0 error
      | Normal _ =>
          let g2 := mkGlobals true (agent_of g1) (has_model g1) (has_auth g1) in
          match get_tools s with
          | Throw error => startup_failed g2 logs0 error
          | Normal tools =>
              let logs1 := logs0 ++ [Log "MCP客户端初始化成功" [];
                                     Log "可用工具数量:"
                                       [JNum (Z.of_nat (length tools))]] in
              let '(g3, logs_model, model) := initializeChatModel s g2 in
              let logs2 := logs1 ++ logs_model in
              if model && (0 <? length tools)%nat then
                match create_agent s with
                | Throw error =>
                    startup_failed g3 (logs2 ++ [Log "正在初始化React Agent..." []]) error
                | Normal agent =>
                    (mkGlobals (has_client g3) (Some agent) (has_model g3) (has_auth g3),
                     logs2 ++ [Log "正在初始化React Agent..." [];
                               Log "React Agent初始化成功" []],
                     tools)
                end
              else (g3, logs2, tools)
          end
      end
  end.

(** The collaborators a tick finds after the start-up, given what
    [getTools()] answers at that tick. *)
Definition env_of (g : Globals) (tools_now : Completion (list McpTool)) : Env :=
  mkEnv (if has_client g then Some tools_now else None) (agent_of g).

(** The module variables when the process starts. *)
Definition no_globals : Globals := mkGlobals false None false false.

(** The release calls a shutdown owes for the resources [r], then the
    exit. *)
Definition owed (r : Resources) : list Effect :=
  match auth_cleanup r with Some _ => [AuthCleanup] | None => [] end
  ++ match client_close r with Some _ => [ClientClose] | None => [] end
  ++ [Exit 0].

(** A request whose stream yields a greeting, a malformed chunk and a chunk
    that is never reached. *)
Definition broken_stream : AgentStream :=
  mkStream [agent_chunk (JObj [("content", JStr "hello")]);
            JObj [("agent", JObj [])];
            agent_chunk (JObj [("content", JStr "unreached")])] None.

(** A stream with two end markers. *)
Definition two_ends_stream : AgentStream :=
  mkStream [JObj [("__end__", JBool true); ("step", JNum 1)];
            JObj [("heartbeat", JNum 7)];
            JObj [("__end__", JBool true); ("step", JNum 2)]] None.

(** A start-up in which only the chat model cannot be built. *)
Definition modelless_startup : Startup :=
  mkStartup (Normal tt) (Normal tt) (Normal [sample_tool (JStr "{}")])
    (Throw (mkError "Error" "missing API key")) (Normal failing_agent).

(** An agent that answers every request with [two_ends_stream]. *)
Definition two_ends_agent (input : JSValue) : Completion AgentStream :=
  Normal two_ends_stream.

(** An agent that answers every request with [broken_stream]. *)
Definition broken_agent (input : JSValue) : Completion AgentStream :=
  Normal broken_stream.

(** A start-up in which only [createReactAgent] fails. *)
Definition agentless_startup : Startup :=
  mkStartup (Normal tt) (Normal tt) (Normal [sample_tool (JStr "{}")])
    (Normal tt) (Throw (mkError "Error" "unsupported model")).

(** A start-up in which every step succeeds. *)
Definition full_startup : Startup :=
  mkStartup (Normal tt) (Normal tt) (Normal [sample_tool (JStr "{}")])
    (Normal tt) (Normal failing_agent).

(** The response text of a document without comments, and a poll that
    fetches it. *)
Definition empty_response_text : string := "{" +:+ json_key "items" +:+ "[]}".

Definition poll_none : Env := sample_env (JStr empty_response_text).

(** * Properties *)

(** ** Values and sets *)

Lemma same_value_zero_eq a b : same_value_zero a b = true -> a = b.
Proof.
  destruct a, b; simpl; try discriminate; try reflexivity; intros E.
  - f_equal. now apply Bool.eqb_prop.
  - f_equal. now apply Z.eqb_eq.
  - f_equal. now apply String.eqb_eq.
Qed.

Lemma Set_has_app ids ids' v : Set_has (ids ++ ids') v = Set_has ids v || Set_has ids' v.
Proof. unfold Set_has. apply existsb_app. Qed.

Lemma Set_has_add x ids v :
  Set_has (Set_add x ids) v = Set_has ids v || same_value_zero v x.
Proof.
  unfold Set_add. destruct (Set_has ids x) eqn:Hx.
  - destruct (same_value_zero v x) eqn:Hv.
    + apply same_value_zero_eq in Hv. subst v. rewrite Hx. reflexivity.
    + now rewrite orb_false_r.
  - rewrite Set_has_app. simpl. now rewrite orb_false_r.
Qed.

Lemma lookup_set_prop k v props : lookup_prop k (set_prop k v props) = v.
Proof.
  induction props as [|[k' v'] rest IH]; simpl.
  - now rewrite String.eqb_refl.
  - destruct (k' =? k) eqn:E; simpl; rewrite E; auto.
Qed.

Lemma get_opt_get v k : nullish v = false -> get v k = Normal (opt_get v k).
Proof. unfold opt_get. destruct v; simpl; intros E; try discriminate; reflexivity. Qed.

Lemma truthy_not_nullish v : truthy v = true -> nullish v = false.
Proof. destruct v; simpl; intros E; try discriminate; reflexivity. Qed.

Lemma falsy_no_replies v : truthy v = false -> opt_get v "replies" = JUndefined.
Proof. unfold opt_get. destruct v; simpl; intros E; try discriminate; reflexivity. Qed.

Lemma falsy_not_array v : truthy v = false -> forall l, v <> JArr l.
Proof. intros E l ->. discriminate. Qed.

(** ** The two walks of [detectNewComments] *)

Lemma cfold_add_reply_id replies ids :
  forallb (fun r => negb (nullish r)) replies = true ->
  cfold replies add_reply_id ids = Normal (add_ids replies ids).
Proof.
  revert ids. induction replies as [|r rest IH]; intros ids Hwf; simpl in *.
  - reflexivity.
  - apply andb_prop in Hwf as [Hr Hrest]. apply negb_true_iff in Hr.
    unfold add_reply_id at 1. rewrite (get_opt_get _ _ Hr). simpl.
    rewrite (IH _ Hrest). reflexivity.
Qed.

Lemma cfold_push_if_new ids comment reply_list replies acc :
  forallb (fun r => negb (nullish r)) replies = true ->
  cfold replies (push_if_new ids comment reply_list) acc
  = Normal (acc ++ map (single_reply_comment comment reply_list) (fresh_replies ids replies)).
Proof.
  revert acc. induction replies as [|r rest IH]; intros acc Hwf; simpl in *.
  - now rewrite app_nil_r.
  - apply andb_prop in Hwf as [Hr Hrest]. apply negb_true_iff in Hr.
    unfold push_if_new at 1. rewrite (get_opt_get _ _ Hr). simpl.
    rewrite (IH _ Hrest). unfold fresh_replies. rewrite filter_cons.
    fold (reply_id r). unfold has_id.
    destruct (truthy (reply_id r) && negb (Set_has ids (reply_id r))) eqn:E.
    + rewrite decide_True by reflexivity. simpl. now rewrite <- app_assoc.
    + rewrite decide_False by discriminate. reflexivity.
Qed.

Lemma add_comment_ids_walk comment ids :
  well_formed_comment comment = true ->
  add_comment_ids comment ids = Normal (add_ids (comment_replies comment) ids).
Proof.
  unfold well_formed_comment, add_comment_ids, comment_replies.
  intros Hwf. apply andb_prop in Hwf as [Hc Hwf]. apply negb_true_iff in Hc.
  rewrite (get_opt_get _ _ Hc). simpl.
  destruct (truthy (opt_get comment "reply_list")) eqn:Hrl; simpl in *.
  - rewrite (get_opt_get _ _ (truthy_not_nullish _ Hrl)). simpl.
    destruct (truthy (opt_get (opt_get comment "reply_list") "replies")) eqn:Hrs.
    + destruct (opt_get (opt_get comment "reply_list") "replies"); try discriminate.
      simpl. now apply cfold_add_reply_id.
    + destruct (opt_get (opt_get comment "reply_list") "replies"); try discriminate;
        reflexivity.
  - now rewrite (falsy_no_replies _ Hrl).
Qed.

Lemma push_new_replies_walk ids comment acc :
  well_formed_comment comment = true ->
  push_new_replies ids comment acc
  = Normal (acc ++ map (fun r => tagged (comment, r))
                     (fresh_replies ids (comment_replies comment))).
Proof.
  unfold well_formed_comment, push_new_replies, comment_replies, tagged.
  intros Hwf. apply andb_prop in Hwf as [Hc Hwf]. apply negb_true_iff in Hc.
  rewrite (get_opt_get _ _ Hc). simpl.
  destruct (truthy (opt_get comment "reply_list")) eqn:Hrl; simpl in *.
  - rewrite (get_opt_get _ _ (truthy_not_nullish _ Hrl)). simpl.
    destruct (truthy (opt_get (opt_get comment "reply_list") "replies")) eqn:Hrs.
    + destruct (opt_get (opt_get comment "reply_list") "replies"); try discriminate.
      simpl. now apply cfold_push_if_new.
    + destruct (opt_get (opt_get comment "reply_list") "replies"); try discriminate;
        simpl; now rewrite app_nil_r.
  - rewrite (falsy_no_replies _ Hrl). simpl. now rewrite app_nil_r.
Qed.

Lemma add_ids_app l1 l2 ids : add_ids (l1 ++ l2) ids = add_ids l2 (add_ids l1 ids).
Proof. unfold add_ids. apply foldl_app. Qed.

Lemma Set_has_add_ids replies ids v :
  Set_has (add_ids replies ids) v
  = Set_has ids v
    || existsb (same_value_zero v) (map reply_id (filter (fun r => has_id r = true) replies)).
Proof.
  revert ids. induction replies as [|r rest IH]; intros ids; simpl.
  - now rewrite orb_false_r.
  - unfold add_ids in *. simpl. rewrite IH. rewrite filter_cons.
    destruct (has_id r) eqn:Hr.
    + rewrite decide_True by reflexivity. simpl. rewrite Set_has_add.
      now rewrite orb_assoc.
    + rewrite decide_False by discriminate. reflexivity.
Qed.

Lemma cfold_add_comment_ids comments ids :
  forallb well_formed_comment comments = true ->
  cfold comments add_comment_ids ids
  = Normal (add_ids (map snd (snapshot_replies (JArr comments))) ids).
Proof.
  revert ids. induction comments as [|c rest IH]; intros ids Hwf; simpl in *.
  - reflexivity.
  - apply andb_prop in Hwf as [Hc Hrest].
    rewrite (add_comment_ids_walk _ _ Hc). simpl. rewrite (IH _ Hrest).
    rewrite map_app, add_ids_app, map_map. simpl. now rewrite map_id.
Qed.

Lemma cfold_push_new_replies ids comments acc :
  forallb well_formed_comment comments = true ->
  cfold comments (push_new_replies ids) acc
  = Normal (acc ++ map tagged
              (filter (fun cr => has_id (snd cr) && negb (Set_has ids (reply_id (snd cr))) = true)
                 (snapshot_replies (JArr comments)))).
Proof.
  revert acc. induction comments as [|c rest IH]; intros acc Hwf; simpl in *.
  - now rewrite app_nil_r.
  - apply andb_prop in Hwf as [Hc Hrest].
    rewrite (push_new_replies_walk _ _ _ Hc). simpl. rewrite (IH _ Hrest).
    rewrite filter_app, map_app, app_assoc. do 3 f_equal.
    unfold fresh_replies. generalize (comment_replies c) as l.
    induction l as [|r l IHl]; simpl; [reflexivity|].
    rewrite !filter_cons. simpl.
    destruct (decide (has_id r && negb (Set_has ids (reply_id r)) = true));
      simpl; now rewrite IHl.
Qed.

Lemma collected_ids_known old ids v comments :
  old = JArr comments ->
  ids = add_ids (map snd (snapshot_replies old)) [] ->
  Set_has ids v = existsb (same_value_zero v) (snapshot_ids old).
Proof. intros -> ->. rewrite Set_has_add_ids. reflexivity. Qed.

(** The reply a reported comment carries is the reply it was built from. *)
Lemma first_reply_tagged c r : first_reply (tagged (c, r)) = r.
Proof.
  unfold first_reply, tagged, single_reply_comment, opt_get. simpl.
  rewrite lookup_set_prop. simpl. rewrite lookup_set_prop. reflexivity.
Qed.

(** ** A walk that returns has seen a well-formed snapshot *)

Lemma get_returns v k x : get v k = Normal x -> nullish v = false.
Proof. destruct v; simpl; intros E; try discriminate; reflexivity. Qed.

Lemma cbind_returns {A B} (c : Completion A) (f : A -> Completion B) b :
  cbind c f = Normal b -> exists a, c = Normal a /\ f a = Normal b.
Proof. destruct c; simpl; intros E; [eauto | discriminate]. Qed.

Lemma cfold_push_if_new_returns ids comment reply_list replies acc res :
  cfold replies (push_if_new ids comment reply_list) acc = Normal res ->
  forallb (fun r => negb (nullish r)) replies = true.
Proof.
  revert acc. induction replies as [|r rest IH]; intros acc E; simpl in *; [reflexivity|].
  apply cbind_returns in E as (acc' & E1 & E2).
  unfold push_if_new in E1. apply cbind_returns in E1 as (id & E1 & _).
  rewrite (get_returns _ _ _ E1). simpl. eauto.
Qed.

Lemma cfold_add_reply_id_returns replies acc res :
  cfold replies add_reply_id acc = Normal res ->
  forallb (fun r => negb (nullish r)) replies = true.
Proof.
  revert acc. induction replies as [|r rest IH]; intros acc E; simpl in *; [reflexivity|].
  apply cbind_returns in E as (acc' & E1 & E2).
  unfold add_reply_id in E1. apply cbind_returns in E1 as (id & E1 & _).
  rewrite (get_returns _ _ _ E1). simpl. eauto.
Qed.

Lemma forEach_returns {A} v (body : JSValue -> A -> Completion A) acc res :
  forEach v body acc = Normal res -> exists l, v = JArr l /\ cfold l body acc = Normal res.
Proof. destruct v; simpl; intros E; try discriminate. eauto. Qed.

Lemma push_new_replies_returns ids comment acc res :
  push_new_replies ids comment acc = Normal res -> well_formed_comment comment = true.
Proof.
  unfold push_new_replies, well_formed_comment. intros E.
  apply cbind_returns in E as (rl & E1 & E).
  pose proof (get_returns _ _ _ E1) as Hc. rewrite Hc. simpl.
  rewrite (get_opt_get _ _ Hc) in E1. injection E1 as <-.
  destruct (truthy (opt_get comment "reply_list")) eqn:Hrl; simpl; [|reflexivity].
  apply cbind_returns in E as (rs & E2 & E).
  rewrite (get_opt_get _ _ (truthy_not_nullish _ Hrl)) in E2. injection E2 as <-.
  destruct (truthy (opt_get (opt_get comment "reply_list") "replies")) eqn:Hrs; [|reflexivity].
  apply forEach_returns in E as (l & -> & E).
  eapply cfold_push_if_new_returns; eauto.
Qed.

Lemma add_comment_ids_returns comment acc res :
  add_comment_ids comment acc = Normal res -> well_formed_comment comment = true.
Proof.
  unfold add_comment_ids, well_formed_comment. intros E.
  apply cbind_returns in E as (rl & E1 & E).
  pose proof (get_returns _ _ _ E1) as Hc. rewrite Hc. simpl.
  rewrite (get_opt_get _ _ Hc) in E1. injection E1 as <-.
  destruct (truthy (opt_get comment "reply_list")) eqn:Hrl; simpl; [|reflexivity].
  apply cbind_returns in E as (rs & E2 & E).
  rewrite (get_opt_get _ _ (truthy_not_nullish _ Hrl)) in E2. injection E2 as <-.
  destruct (truthy (opt_get (opt_get comment "reply_list") "replies")) eqn:Hrs; [|reflexivity].
  apply forEach_returns in E as (l & -> & E).
  eapply cfold_add_reply_id_returns; eauto.
Qed.

Lemma cfold_returns_well_formed {A} (body : JSValue -> A -> Completion A) comments acc res :
  (forall c a r, body c a = Normal r -> well_formed_comment c = true) ->
  cfold comments body acc = Normal res ->
  forallb well_formed_comment comments = true.
Proof.
  intros Hbody. revert acc. induction comments as [|c rest IH]; intros acc E; simpl in *.
  - reflexivity.
  - apply cbind_returns in E as (acc' & E1 & E2).
    rewrite (Hbody _ _ _ E1). simpl. eauto.
Qed.

(** The diff engine on a non-empty stored snapshot. *)
Lemma detect_well_formed old new :
  well_formed old = true -> well_formed new = true -> old <> JArr [] ->
  detectNewComments old new = ([], Normal (diff old new)).
Proof.
  intros Hold Hnew Hne.
  destruct old as [| | | | |comments|]; try discriminate.
  destruct new as [| | | | |current|]; try discriminate.
  destruct comments as [|c rest]; [congruence|].
  unfold detectNewComments. cbn [get lift bind String.eqb Ascii.eqb Bool.eqb is_zero].
  replace (Z.of_nat (length (c :: rest)) =? 0)%Z with false
    by (symmetry; apply Z.eqb_neq; simpl; lia).
  unfold forEach at 1. simpl in Hold. rewrite (cfold_add_comment_ids (c :: rest) [] Hold).
  cbn [lift bind app]. unfold forEach.
  rewrite (cfold_push_new_replies _ current [] Hnew). cbn [app].
  unfold diff. do 3 f_equal. apply list_filter_iff. intros [c' r]. simpl.
  unfold known. now rewrite Set_has_add_ids.
Qed.

(** Whatever [detectNewComments] returns is either the baseline answer or
    the diff of two well-formed snapshots. *)
Lemma detect_returns old new o news :
  detectNewComments old new = (o, Normal news) ->
  (exists count, is_zero (opt_get old "length") = true /\ o = [Console (LBaseline count)]
                 /\ news = [])
  \/ (is_zero (opt_get old "length") = false /\ well_formed old = true
      /\ well_formed new = true /\ old <> JArr [] /\ o = [] /\ news = diff old new).
Proof.
  unfold detectNewComments. intros E.
  destruct (get old "length") as [len|] eqn:Hlen; [|discriminate].
  pose proof (get_returns _ _ _ Hlen) as Hold.
  rewrite (get_opt_get _ _ Hold) in Hlen. injection Hlen as <-.
  cbn [lift bind] in E. destruct (is_zero (opt_get old "length")) eqn:Hz.
  - left. destruct (get new "length") as [count|] eqn:Hc; [|discriminate].
    cbn in E. injection E as <- <-. eauto.
  - right. cbn [app] in E.
    destruct (forEach old add_comment_ids []) as [ids|] eqn:Hids; [|discriminate].
    cbn [lift bind app] in E.
    destruct (forEach new (push_new_replies ids) []) as [res|] eqn:Hres;
      cbn in E; [|discriminate].
    injection E as <- <-.
    apply forEach_returns in Hids as (cs & -> & Hids).
    apply forEach_returns in Hres as (cs' & -> & Hres).
    assert (Hwf : well_formed (JArr cs) = true).
    { simpl. eapply cfold_returns_well_formed; [|exact Hids].
      intros c a r. apply add_comment_ids_returns. }
    assert (Hwf' : well_formed (JArr cs') = true).
    { simpl. eapply cfold_returns_well_formed; [|exact Hres].
      intros c a r. apply push_new_replies_returns. }
    assert (Hne : JArr cs <> JArr []).
    { intros [= ->]. discriminate. }
    pose proof (detect_well_formed _ _ Hwf Hwf' Hne) as Hd.
    unfold detectNewComments in Hd. cbn [get lift bind String.eqb Ascii.eqb Bool.eqb] in Hd.
    cbn [opt_get get String.eqb Ascii.eqb Bool.eqb] in Hz. rewrite Hz in Hd.
    unfold forEach in Hd. rewrite Hids in Hd. cbn [lift bind app] in Hd.
    rewrite Hres in Hd. cbn in Hd. injection Hd as ->.
    repeat split; auto.
Qed.

(** A reported comment carries a reply that has an identifier unknown to
    the old snapshot. *)
Lemma diff_reply_unknown old new c :
  c ∈ diff old new ->
  has_id (first_reply c) = true /\ known old (first_reply c) = false
  /\ exists parent, (parent, first_reply c) ∈ snapshot_replies new.
Proof.
  unfold diff. intros Hc. apply list_elem_of_fmap in Hc as ([parent r] & -> & Hin).
  apply list_elem_of_filter in Hin as [HP Hin]. simpl in HP.
  apply andb_prop in HP as [Hid Hk]. apply negb_true_iff in Hk.
  rewrite first_reply_tagged. eauto.
Qed.

(** The baseline answer. *)
Lemma detect_baseline new :
  nullish new = false ->
  detectNewComments (JArr []) new = ([Console (LBaseline (opt_get new "length"))], Normal []).
Proof.
  intros Hn. unfold detectNewComments. cbn [get lift bind length is_zero Z.of_nat Z.eqb].
  cbn [String.eqb Ascii.eqb Bool.eqb]. rewrite (get_opt_get _ _ Hn). reflexivity.
Qed.

(** ** The polling tick, phase by phase *)

Section TickLemmas.
Context `{Builtins}.

(** Handling one new comment never throws and leaves the cache alone. *)
Lemma dispatch_comment_runs env docId index comment cache :
  dispatch_comment env docId index comment cache
  = (cache, (fst (snd (dispatch_comment env docId index comment ∅)), Normal tt)).
Proof.
  unfold dispatch_comment, task_bind, task_try, run. cbn [console emit].
  destruct (processNewCommentWithAgent (reactAgent env) comment docId) as [o [v|e]];
    reflexivity.
Qed.

Lemma task_for_dispatch env docId newComments index cache :
  task_for newComments index (dispatch_comment env docId) cache
  = (cache, (dispatch_output env docId index newComments, Normal tt)).
Proof.
  unfold dispatch_output. revert index cache.
  induction newComments as [|c rest IH]; intros index cache; [reflexivity|].
  cbn [task_for]. unfold task_bind.
  rewrite (dispatch_comment_runs env docId index c cache).
  rewrite (dispatch_comment_runs env docId index c ∅).
  rewrite (IH (S index) cache), (IH (S index) ∅). reflexivity.
Qed.

Ltac tick_start :=
  unfold fetch_comments, invokeGetCommentsTools, stored_snapshot;
  unfold task_try, task_bind, run, lift, commentsCache_get, commentsCache_set.

Ltac tick_fetch env :=
  tick_start;
  destruct (mcpClient env) as [[?tools|?e]|]; cbn -[detectNewComments task_for];
  try discriminate;
  repeat match goal with
    | |- context [find ?f ?l] => destruct (find f l) as [?tool|];
                                 cbn -[detectNewComments task_for]; try discriminate
    | |- context [invoke ?t ?a] => destruct (invoke t a) as [?result|?e];
                                   cbn -[detectNewComments task_for]; try discriminate
    | |- context [JSON_parse ?r] => destruct (JSON_parse r) as [?data|?e];
                                    cbn -[detectNewComments task_for]; try discriminate
    | |- context [get ?d "items"] => destruct (get d "items") as [?items|?e];
                                     cbn -[detectNewComments task_for]; try discriminate
    end.

Lemma tick_fetch_failed env docId cache e :
  fetch_comments env docId = Throw e ->
  invokeGetCommentsTools env docId cache = (cache, (failure_output e, Normal JNull)).
Proof.
  unfold failure_output. tick_fetch env;
    intros [= ->]; unfold when; destruct (name e =? "ToolException"); reflexivity.
Qed.

Lemma tick_unavailable env docId cache :
  fetch_comments env docId = Normal None ->
  invokeGetCommentsTools env docId cache
  = (cache, ([Console (match mcpClient env with
                       | Some _ => LToolMissing
                       | None => LClientMissing
                       end)], Normal JNull)).
Proof. tick_fetch env; reflexivity. Qed.

Lemma tick_detect_failed env docId cache result current o e :
  fetch_comments env docId = Normal (Some (result, current)) ->
  detectNewComments (stored_snapshot cache docId) current = (o, Throw e) ->
  invokeGetCommentsTools env docId cache = (cache, (o ++ failure_output e, Normal JNull)).
Proof.
  unfold failure_output. tick_fetch env.
  intros [= -> <-] Hd. rewrite Hd. cbn.
  unfold when. destruct (name e =? "ToolException"); reflexivity.
Qed.

Lemma tick_succeeded env docId cache result current o newComments :
  fetch_comments env docId = Normal (Some (result, current)) ->
  detectNewComments (stored_snapshot cache docId) current = (o, Normal newComments) ->
  invokeGetCommentsTools env docId cache
  = (<[docId := current]> cache,
     (o ++ CacheSet docId current :: report_output env docId newComments, Normal result)).
Proof.
  unfold report_output. tick_fetch env.
  intros [= -> <-] Hd. rewrite Hd. clear Hd.
  destruct newComments as [|c rest]; cbn -[task_for].
  - reflexivity.
  - rewrite task_for_dispatch. cbn. rewrite ?app_nil_r. reflexivity.
Qed.

End TickLemmas.

Lemma fetch_current_truthy `{Builtins} env docId result current :
  fetch_comments env docId = Normal (Some (result, current)) -> truthy current = true.
Proof.
  unfold fetch_comments. destruct (mcpClient env) as [[tools|e]|]; cbn; try discriminate.
  destruct (find _ tools) as [tool|]; cbn; try discriminate.
  destruct (invoke tool _) as [res|e1]; cbn; try discriminate.
  destruct (JSON_parse res) as [data|e2]; cbn; try discriminate.
  destruct (get data "items") as [items|e3]; cbn; try discriminate.
  intros [= _ <-]. unfold js_or. destruct (truthy items) eqn:E; auto.
Qed.

Lemma stored_after_update (cache : gmap string JSValue) docId current :
  truthy current = true ->
  stored_snapshot (<[docId := current]> cache) docId = current.
Proof.
  intros Ht. unfold stored_snapshot. rewrite lookup_insert_eq. simpl.
  unfold js_or. now rewrite Ht.
Qed.

Lemma stored_absent (cache : gmap string JSValue) docId :
  cache !! docId = None -> stored_snapshot cache docId = JArr [].
Proof. intros E. unfold stored_snapshot. now rewrite E. Qed.

Lemma stored_empty (cache : gmap string JSValue) docId :
  cache !! docId = Some (JArr []) -> stored_snapshot cache docId = JArr [].
Proof. intros E. unfold stored_snapshot. now rewrite E. Qed.

(** A reply reported by one diff is known to every later diff against the
    snapshot it came from. *)
Lemma reported_then_known old current current2 o o2 news news2 c c2 :
  detectNewComments old current = (o, Normal news) -> c ∈ news ->
  detectNewComments current current2 = (o2, Normal news2) -> c2 ∈ news2 ->
  same_value_zero (reply_id (first_reply c2)) (reply_id (first_reply c)) = false.
Proof.
  intros H1 Hc H2 Hc2.
  apply detect_returns in H1 as [(count & _ & _ & ->)|(_ & _ & _ & _ & _ & ->)].
  { now apply elem_of_nil in Hc. }
  apply detect_returns in H2 as [(count & _ & _ & ->)|(_ & _ & _ & _ & _ & ->)].
  { now apply elem_of_nil in Hc2. }
  apply diff_reply_unknown in Hc as (Hid & _ & parent & Hin).
  apply diff_reply_unknown in Hc2 as (_ & Hk & _).
  unfold known in Hk.
  destruct (same_value_zero (reply_id (first_reply c2)) (reply_id (first_reply c))) eqn:E;
    [|reflexivity].
  rewrite <- Hk. symmetry. apply existsb_exists.
  exists (reply_id (first_reply c)). split; [|exact E].
  unfold snapshot_ids. apply in_map. apply list_elem_of_In.
  apply list_elem_of_filter. split; [exact Hid|].
  apply list_elem_of_fmap. exists (parent, first_reply c). split; [reflexivity|exact Hin].
Qed.

Lemma baseline_no_dispatch count :
  Forall (fun e => dispatch_event e = false) [Console (LBaseline count)].
Proof. repeat constructor. Qed.

Lemma detect_output_no_dispatch old new o r :
  detectNewComments old new = (o, r) -> Forall (fun e => dispatch_event e = false) o.
Proof.
  unfold detectNewComments. destruct (get old "length") as [len|]; cbn.
  - destruct (is_zero len).
    + destruct (get new "length"); cbn; intros [= <- _]; repeat constructor.
    + destruct (forEach old add_comment_ids []); cbn; intros [= <- _]; constructor.
  - intros [= <- _]. constructor.
Qed.

(** ** The translators *)

Section TranslatorLemmas.
Context `{Builtins}.

Lemma bind_lift_normal {A B} (a : A) (f : A -> Out B) : bind (lift (Normal a)) f = f a.
Proof. unfold bind, lift. destruct (f a). reflexivity. Qed.

Lemma bind_lift_throw {A B} e (f : A -> Out B) : bind (lift (Throw e)) f = ([], Throw e).
Proof. reflexivity. Qed.

Lemma bind_ret_unit {B} (f : unit -> Out B) : bind (ret tt) f = f tt.
Proof. unfold bind, ret. destruct (f tt). reflexivity. Qed.

Lemma bind_get {B} v k (f : JSValue -> Out B) :
  nullish v = false -> bind (lift (get v k)) f = f (opt_get v k).
Proof. intros Hv. rewrite (get_opt_get _ _ Hv). apply bind_lift_normal. Qed.




(** The handler of a new comment catches whatever its body throws. *)
Lemma processNewCommentWithAgent_returns agent comment docId :
  exists o v, processNewCommentWithAgent agent comment docId = (o, Normal v).
Proof.
  unfold processNewCommentWithAgent. destruct agent as [agent|].
  - unfold try_catch.
    match goal with |- context [match ?m with _ => _ end] => destruct m as [o [v|e]] end.
    + eauto.
    + cbn. eauto.
  - cbn. eauto.
Qed.

End TranslatorLemmas.

(** ** What a computation can emit *)

Section Emits.
Context (P : Event -> Prop).

Lemma emits_ret {A} (a : A) : Forall P (fst (ret a)).
Proof. constructor. Qed.

Lemma emits_lift {A} (c : Completion A) : Forall P (fst (lift c)).
Proof. constructor. Qed.

Lemma emits_bind {A B} (m : Out A) (f : A -> Out B) :
  Forall P (fst m) -> (forall a, Forall P (fst (f a))) -> Forall P (fst (bind m f)).
Proof.
  intros Hm Hf. destruct m as [o [a|e]]; simpl in *; [|exact Hm].
  specialize (Hf a). destruct (f a) as [o' r]. simpl in *.
  apply Forall_app. now split.
Qed.

Lemma emits_when c (m : Out unit) : Forall P (fst m) -> Forall P (fst (when c m)).
Proof. intros Hm. destruct c; simpl; [exact Hm | constructor]. Qed.

Lemma emits_for_each {A B} (l : list B) (body : B -> A -> Out A) acc :
  (forall x a, Forall P (fst (body x a))) -> Forall P (fst (for_each l body acc)).
Proof.
  intros Hbody. revert acc. induction l as [|x rest IH]; intros acc; simpl.
  - constructor.
  - apply emits_bind; [apply Hbody | intros a; apply IH].
Qed.

Lemma emits_for_await {A} (s : AgentStream) (body : JSValue -> A -> Out A) acc :
  (forall x a, Forall P (fst (body x a))) -> Forall P (fst (for_await s body acc)).
Proof.
  intros Hbody. unfold for_await. apply emits_bind.
  - now apply emits_for_each.
  - intros a. destruct (failure s); constructor.
Qed.

Lemma emits_for_tool_messages tools (body : JSValue -> Out unit) :
  (forall msg, Forall P (fst (body msg))) -> Forall P (fst (for_tool_messages tools body)).
Proof.
  intros Hbody. unfold for_tool_messages. apply emits_for_each.
  intros entry []. destruct (snd entry); try apply emits_ret.
  apply emits_for_each. intros msg []. apply Hbody.
Qed.

End Emits.

Ltac emits :=
  repeat first
    [ apply emits_ret | apply emits_lift
    | apply emits_bind; [|intros ?]
    | apply emits_when
    | apply emits_for_tool_messages; intros ?
    | apply emits_for_await; intros ? ?
    | apply emits_for_each; intros ? ? ].

Section SinkLemmas.
Context `{Builtins}.

Lemma write_event_frame event : Forall data_frame (fst (write_event event)).
Proof. repeat constructor. now exists event. Qed.

(** The stream sink writes nothing but [data:] frames while it translates. *)
Lemma sse_chunk_frames chunk u : Forall data_frame (fst (sse_chunk chunk u)).
Proof.
  unfold sse_chunk, sse_agent, sse_tools, sse_final, sse_tool_call, sse_tool_message.
  emits; apply write_event_frame.
Qed.

Lemma sse_translate_frames agent msg : Forall data_frame (fst (sse_translate agent msg)).
Proof.
  unfold sse_translate. apply emits_bind; [apply emits_lift|].
  intros stream. apply emits_for_await. intros chunk u. apply sse_chunk_frames.
Qed.

Lemma stream_to_response_unfold agent msg :
  stream_to_response agent msg
  = match sse_translate agent msg with
    | (o, Normal _) => (o ++ [ResWrite done_frame; ResEnd], Normal tt)
    | (o, Throw e) =>
        (o ++ [Console (LStreamError (message e));
               ResWrite (sse_frame (error_event (message e))); ResEnd], Normal tt)
    end.
Proof.
  unfold stream_to_response, sse_translate, user_request, try_catch.
  destruct (agent _) as [stream|e]; cbn [lift bind app]; [|reflexivity].
  destruct (for_await stream sse_chunk tt) as [o [[]|e]]; cbn; [|reflexivity].
  reflexivity.
Qed.

(** The handler streams once the request carries a message. *)
Lemma agent_execute_streams agent now body :
  nullish body = false ->
  truthy (opt_get body "message") = true ->
  agent_execute (Some agent) now body
  = (Console (LRequest (opt_get body "message")) :: ResWriteHead 200
       :: fst (stream_to_response agent (opt_get body "message")), Normal tt).
Proof.
  intros Hb Hm. unfold agent_execute. rewrite (bind_get _ _ _ Hb), Hm.
  rewrite stream_to_response_unfold.
  destruct (sse_translate agent (opt_get body "message")) as [o [[]|e]]; reflexivity.
Qed.


Lemma times_ended_app o o' : times_ended (o ++ o') = times_ended o + times_ended o'.
Proof. unfold times_ended. rewrite filter_app. apply length_app. Qed.

Lemma frames_body o :
  Forall data_frame o ->
  times_ended o = 0
  /\ exists events, response_body o = map sse_frame events /\ o = map (fun v => ResWrite (sse_frame v)) events.
Proof.
  induction 1 as [|e o [v ->] _ (IH1 & vs & IH2 & IH3)].
  - split; [reflexivity|]. now exists [].
  - split.
    + unfold times_ended in *. rewrite filter_cons.
      cbn [is_end]. rewrite decide_False by discriminate. exact IH1.
    + exists (v :: vs). split; simpl; [now rewrite <- IH2 | now rewrite <- IH3].
Qed.

End SinkLemmas.

Section ToolLemmas.
Context `{Builtins}.

Lemma has_function_get call :
  has_function call = true ->
  get call "function" = Normal (opt_get call "function")
  /\ forall k, get (opt_get call "function") k = Normal (opt_get (opt_get call "function") k).
Proof.
  unfold has_function. intros Hf. apply andb_prop in Hf as [Hc Hfn].
  apply negb_true_iff in Hc, Hfn. split.
  - now apply get_opt_get.
  - intros k. now apply get_opt_get.
Qed.

Lemma sse_tool_call_parsed call args :
  has_function call = true ->
  JSON_parse (call_arguments call) = Normal args ->
  sse_tool_call call
  = ([ResWrite (sse_frame (tool_call_event (call_name call) args))], Normal tt).
Proof.
  intros Hf Hp. destruct (has_function_get _ Hf) as [Hg Hk].
  unfold sse_tool_call, tool_call_name. rewrite Hg. cbn [cbind].
  rewrite Hk, !bind_lift_normal. rewrite Hk, bind_lift_normal.
  fold (call_arguments call). rewrite Hp, bind_lift_normal. reflexivity.
Qed.

Lemma sse_tool_call_unparsed call e :
  has_function call = true ->
  JSON_parse (call_arguments call) = Throw e ->
  sse_tool_call call = ([], Throw e).
Proof.
  intros Hf Hp. destruct (has_function_get _ Hf) as [Hg Hk].
  unfold sse_tool_call, tool_call_name. rewrite Hg. cbn [cbind].
  rewrite Hk, !bind_lift_normal. rewrite Hk, bind_lift_normal.
  fold (call_arguments call). rewrite Hp. reflexivity.
Qed.

(** A loop that meets no exception reports what each round reports. *)
Lemma for_each_app {B} (l1 l2 : list B) (body : B -> unit -> Out unit) :
  for_each (l1 ++ l2) body tt
  = match for_each l1 body tt with
    | (o, Normal _) => let (o', r) := for_each l2 body tt in (o ++ o', r)
    | (o, Throw e) => (o, Throw e)
    end.
Proof.
  induction l1 as [|x rest IH]; simpl.
  - destruct (for_each l2 body tt). reflexivity.
  - unfold bind. destruct (body x tt) as [o [[]|e]]; [|reflexivity].
    rewrite IH. destruct (for_each rest body tt) as [o1 [[]|e1]]; [|reflexivity].
    destruct (for_each l2 body tt) as [o2 r2]. now rewrite app_assoc.
Qed.

Lemma sse_calls_parsed calls parsed :
  Forall (fun c => has_function c = true) calls ->
  Forall2 (fun call args => JSON_parse (call_arguments call) = Normal args) calls parsed ->
  for_each calls (fun toolCall _ => sse_tool_call toolCall) tt
  = (call_frames calls parsed, Normal tt).
Proof.
  intros Hf Hp. induction Hp as [|call args calls parsed Hc Hp IH]; [reflexivity|].
  apply Forall_cons in Hf as [Hf1 Hf]. cbn [for_each].
  rewrite (sse_tool_call_parsed _ _ Hf1 Hc). unfold bind. rewrite (IH Hf). reflexivity.
Qed.

Lemma sse_calls_unparsed calls parsed bad rest e :
  Forall (fun c => has_function c = true) calls ->
  Forall2 (fun call args => JSON_parse (call_arguments call) = Normal args) calls parsed ->
  has_function bad = true ->
  JSON_parse (call_arguments bad) = Throw e ->
  for_each (calls ++ bad :: rest) (fun toolCall _ => sse_tool_call toolCall) tt
  = (call_frames calls parsed, Throw e).
Proof.
  intros Hf Hp Hb He. rewrite for_each_app, (sse_calls_parsed _ _ Hf Hp).
  cbn [for_each]. rewrite (sse_tool_call_unparsed _ _ Hb He). cbn.
  now rewrite app_nil_r.
Qed.

(** The stream sink on a chunk whose last agent message is [m]. *)
Lemma sse_agent_unfold chunk m :
  nullish chunk = false ->
  truthy (opt_get chunk "agent") = true ->
  last_agent_message (opt_get chunk "agent") = Normal m ->
  nullish m = false ->
  sse_agent chunk
  = let tool_calls := opt_get (opt_get m "additional_kwargs") "tool_calls" in
    let (o, r) :=
      when (truthy tool_calls)
        (let* calls := lift (iterate tool_calls) in
         for_each calls (fun toolCall _ => sse_tool_call toolCall) tt) in
    (content_frames m ++ o, r).
Proof.
  intros Hc Ha Hm Hn. unfold sse_agent.
  rewrite (bind_get _ _ _ Hc), Ha. cbn [when]. rewrite Hm, bind_lift_normal.
  rewrite !(bind_get _ _ _ Hn). unfold content_frames.
  destruct (truthy (opt_get m "content")); cbn [when].
  - unfold write_event, emit, bind at 1.
    match goal with |- context [when ?c ?b] => destruct (when c b) as [o r] end.
    reflexivity.
  - rewrite bind_ret_unit.
    match goal with |- context [when ?c ?b] => destruct (when c b) as [o r] end.
    reflexivity.
Qed.

End ToolLemmas.

Section ExampleLemmas.
Context `{Builtins}.

Lemma example_tool_call_parsed call args :
  has_function call = true ->
  JSON_parse (call_arguments call) = Normal args ->
  example_tool_call call
  = ([Console (LToolName (call_name call)); Console (LToolArgs args)], Normal tt).
Proof.
  intros Hf Hp. destruct (has_function_get _ Hf) as [Hg Hk].
  unfold example_tool_call, tool_call_name. rewrite Hg. cbn [cbind].
  rewrite Hk, !bind_lift_normal. unfold console, emit, bind at 1.
  rewrite Hk, bind_lift_normal.
  fold (call_arguments call). rewrite Hp, bind_lift_normal. reflexivity.
Qed.

Lemma example_tool_call_unparsed call e :
  has_function call = true ->
  JSON_parse (call_arguments call) = Throw e ->
  example_tool_call call = ([Console (LToolName (call_name call))], Throw e).
Proof.
  intros Hf Hp. destruct (has_function_get _ Hf) as [Hg Hk].
  unfold example_tool_call, tool_call_name. rewrite Hg. cbn [cbind].
  rewrite Hk, !bind_lift_normal. unfold console, emit, bind at 1.
  rewrite Hk, bind_lift_normal.
  fold (call_arguments call). rewrite Hp. reflexivity.
Qed.

Lemma example_calls_parsed calls parsed :
  Forall (fun c => has_function c = true) calls ->
  Forall2 (fun call args => JSON_parse (call_arguments call) = Normal args) calls parsed ->
  for_each calls (fun toolCall _ => example_tool_call toolCall) tt
  = (call_lines calls parsed, Normal tt).
Proof.
  intros Hf Hp. induction Hp as [|call args calls parsed Hc Hp IH]; [reflexivity|].
  apply Forall_cons in Hf as [Hf1 Hf]. cbn [for_each].
  rewrite (example_tool_call_parsed _ _ Hf1 Hc). unfold bind. rewrite (IH Hf). reflexivity.
Qed.

Lemma example_calls_unparsed calls parsed bad rest e :
  Forall (fun c => has_function c = true) calls ->
  Forall2 (fun call args => JSON_parse (call_arguments call) = Normal args) calls parsed ->
  has_function bad = true ->
  JSON_parse (call_arguments bad) = Throw e ->
  for_each (calls ++ bad :: rest) (fun toolCall _ => example_tool_call toolCall) tt
  = (call_lines calls parsed ++ [Console (LToolName (call_name bad))], Throw e).
Proof.
  intros Hf Hp Hb He. rewrite for_each_app, (example_calls_parsed _ _ Hf Hp).
  cbn [for_each]. rewrite (example_tool_call_unparsed _ _ Hb He). reflexivity.
Qed.

Lemma example_tool_calls_unfold m calls :
  nullish m = false ->
  opt_get (opt_get m "additional_kwargs") "tool_calls" = JArr calls ->
  example_tool_calls m
  = let (o, r) := for_each calls (fun toolCall _ => example_tool_call toolCall) tt in
    (Console LCallingTools :: o, r).
Proof.
  intros Hn Hc. unfold example_tool_calls. rewrite (bind_get _ _ _ Hn), Hc.
  cbn [truthy when iterate]. unfold console, emit, bind at 1.
  rewrite bind_lift_normal.
  destruct (for_each calls _ tt) as [o r]. reflexivity.
Qed.

End ExampleLemmas.

Section ResultLemmas.
Context `{Builtins}.

Lemma opt_get_string_not_nullish v k s : opt_get v k = JStr s -> nullish v = false.
Proof. unfold opt_get. destruct v; simpl; intros E; try discriminate; reflexivity. Qed.

Lemma nonempty_truthy s : s <> "" -> truthy (JStr s) = true.
Proof.
  intros Hne. simpl. apply negb_true_iff. apply String.eqb_neq. exact Hne.
Qed.

Lemma before_colon_free s : colon_free (before_colon s) = true.
Proof.
  induction s as [|c rest IH]; simpl; [reflexivity|].
  destruct (Ascii.eqb c ":") eqn:E; simpl; [reflexivity|]. now rewrite E.
Qed.

Lemma before_colon_segment s :
  s = before_colon s \/ exists rest, s = before_colon s +:+ ":" +:+ rest.
Proof.
  induction s as [|c rest IH]; simpl; [now left|].
  destruct (Ascii.eqb c ":") eqn:E.
  - right. apply Ascii.eqb_eq in E. subst c. now exists rest.
  - destruct IH as [IH|[tail IH]].
    + left. now rewrite <- IH.
    + right. exists tail. rewrite IH at 1. reflexivity.
Qed.

Lemma sse_tool_message_named msg id :
  nullish msg = false ->
  opt_get (opt_get msg "kwargs") "tool_call_id" = JStr id -> id <> "" ->
  sse_tool_message msg
  = ([ResWrite (sse_frame (tool_response_event (before_colon id)))], Normal tt).
Proof.
  intros Hm Hid Hne. unfold sse_tool_message.
  rewrite (bind_get _ _ _ Hm), Hid, (nonempty_truthy _ Hne). cbn [when tool_name_of].
  now rewrite bind_lift_normal.
Qed.

Lemma console_tool_message_unfold msg id :
  nullish msg = false ->
  opt_get (opt_get msg "kwargs") "tool_call_id" = JStr id -> id <> "" ->
  console_tool_message msg
  = let (o, r) := console_tool_response (opt_get msg "kwargs") in
    (Console (LToolCalled (before_colon id)) :: Console (LToolCallId id) :: o, r).
Proof.
  intros Hm Hid Hne. unfold console_tool_message.
  rewrite (bind_get _ _ _ Hm), Hid, (nonempty_truthy _ Hne). cbn [when tool_name_of id_text].
  rewrite bind_lift_normal. unfold console, emit, bind.
  destruct (console_tool_response _) as [o r]. reflexivity.
Qed.

Lemma console_tool_response_raw kwargs e :
  nullish kwargs = false ->
  JSON_parse (opt_get kwargs "content") = Throw e ->
  console_tool_response kwargs = ([Console (LToolRaw (opt_get kwargs "content"))], Normal tt).
Proof.
  intros Hk Hp. unfold console_tool_response.
  rewrite (bind_get _ _ _ Hk), Hp. reflexivity.
Qed.

Lemma console_tool_response_null kwargs payload :
  nullish kwargs = false ->
  JSON_parse (opt_get kwargs "content") = Normal payload ->
  nullish payload = true ->
  console_tool_response kwargs = ([Console (LToolRaw (opt_get kwargs "content"))], Normal tt).
Proof.
  intros Hk Hp Hn. unfold console_tool_response.
  rewrite (bind_get _ _ _ Hk), Hp, bind_lift_normal.
  destruct payload; try discriminate; reflexivity.
Qed.

Lemma console_tool_response_success kwargs payload :
  nullish kwargs = false ->
  JSON_parse (opt_get kwargs "content") = Normal payload ->
  nullish payload = false ->
  is_zero (opt_get payload "code") = true ->
  truthy (opt_get payload "data") = true ->
  console_tool_response kwargs
  = ([Console (LToolSuccess (opt_get payload "data"))], Normal tt).
Proof.
  intros Hk Hp Hn Hz Hd. unfold console_tool_response.
  rewrite (bind_get _ _ _ Hk), Hp, bind_lift_normal, (bind_get _ _ _ Hn), Hz.
  rewrite (bind_get _ _ _ Hn), Hd. reflexivity.
Qed.

Lemma console_tool_response_failure kwargs payload :
  nullish kwargs = false ->
  JSON_parse (opt_get kwargs "content") = Normal payload ->
  nullish payload = false ->
  is_zero (opt_get payload "code") = false ->
  console_tool_response kwargs
  = ([Console (LToolError (js_or (opt_get payload "msg") (JStr "Unknown error")))],
     Normal tt).
Proof.
  intros Hk Hp Hn Hz. unfold console_tool_response.
  rewrite (bind_get _ _ _ Hk), Hp, bind_lift_normal, (bind_get _ _ _ Hn), Hz.
  rewrite bind_lift_normal. cbn [andb]. rewrite (bind_get _ _ _ Hn). reflexivity.
Qed.

End ResultLemmas.

(** ** The registry *)

Lemma clear_all_lookup timers (live : gmap nat string) timer docId :
  clear_all timers live !! timer = Some docId ->
  live !! timer = Some docId /\ forall d, (d, timer) ∉ timers.
Proof.
  induction timers as [|[d t] rest IH]; simpl.
  - intros E. split; [exact E|]. intros d Hd. now apply elem_of_nil in Hd.
  - intros E. apply lookup_delete_Some in E as [Hne E]. destruct (IH E) as [Hl Hn].
    split; [exact Hl|]. intros d' Hd'. apply elem_of_cons in Hd' as [[= -> ->]|Hd'].
    + now apply Hne.
    + now apply (Hn d').
Qed.

Section RegistryLemmas.
Context `{Builtins}.

Lemma initial_consistent : registry_consistent initial.
Proof. split; intros ? ? E; simpl in E; now rewrite lookup_empty in E. Qed.

Lemma step_consistent a m m' :
  registry_consistent m -> step a m = Some m' -> registry_consistent m'.
Proof.
  intros [I1 I2] Hstep. destruct a as [d|d| |t|i env]; simpl in Hstep.
  - injection Hstep as <-. split; simpl.
    + intros t d' E. apply lookup_insert_Some in E as [[<- <-]|[Hne E]].
      * apply lookup_insert_eq.
      * assert (Hd : intervals m !! t = Some d' /\ activeTimers m !! d <> Some t).
        { destruct (activeTimers m !! d) as [old|] eqn:Hold; simpl in E.
          - apply lookup_delete_Some in E as [Hne' E]. split; [exact E|congruence].
          - split; [exact E|discriminate]. }
        destruct Hd as [Hl Hn]. pose proof (I1 _ _ Hl) as Ha.
        rewrite lookup_insert_ne; [exact Ha|]. intros ->. now apply Hn.
    + intros d' t E. apply lookup_insert_Some in E as [[<- <-]|[Hne E]]; [lia|].
      apply I2 in E. lia.
  - destruct (activeTimers m !! d) as [old|] eqn:Hold.
    + injection Hstep as <-. split; simpl.
      * intros t d' E. apply lookup_delete_Some in E as [Hne E].
        pose proof (I1 _ _ E) as Ha. rewrite lookup_delete_ne; [exact Ha|].
        intros ->. congruence.
      * intros d' t E. apply lookup_delete_Some in E as [_ E]. now apply I2 in E.
    + injection Hstep as <-. now split.
  - injection Hstep as <-. split; simpl.
    + intros t d' E. apply clear_all_lookup in E as [E Hn].
      exfalso. apply (Hn d'). apply elem_of_map_to_list. now apply I1.
    + intros d' t E. now rewrite lookup_empty in E.
  - destruct (intervals m !! t); [|discriminate]. injection Hstep as <-. now split.
  - destruct (in_flight m !! i); [|discriminate]. injection Hstep as <-. now split.
Qed.

Lemma run_schedule_consistent actions m m' :
  registry_consistent m -> run_schedule actions m = Some m' -> registry_consistent m'.
Proof.
  revert m. induction actions as [|a rest IH]; intros m Hm; simpl.
  - now intros [= <-].
  - destruct (step a m) as [m1|] eqn:Hstep; [|discriminate].
    apply IH. eapply step_consistent; eauto.
Qed.

Lemma ticks_in_flight_snoc docId m :
  length (filter (fun d => d = docId) (in_flight m ++ [docId]))
  = S (ticks_in_flight docId m).
Proof.
  unfold ticks_in_flight. rewrite filter_app, length_app, filter_cons.
  rewrite decide_True by reflexivity. simpl. lia.
Qed.

End RegistryLemmas.

(** ** Successive polls *)

Lemma snapshot_ids_js_or v : snapshot_ids (js_or v (JArr [])) = snapshot_ids v.
Proof.
  unfold js_or. destruct (truthy v) eqn:E; [reflexivity|].
  destruct v; try discriminate; reflexivity.
Qed.

Lemma known_js_or v reply : known (js_or v (JArr [])) reply = known v reply.
Proof. unfold known. now rewrite snapshot_ids_js_or. Qed.

Lemma cumulative_weaken a b fetched :
  grows a b -> cumulative b fetched -> cumulative a fetched.
Proof.
  intros Hab. destruct fetched as [|c rest]; simpl; [auto|].
  intros [Hbc Hrest]. split; [|exact Hrest]. intros r Hr. apply Hbc, Hab, Hr.
Qed.

(** While no reply disappears, nothing a snapshot [seen] holds is reported
    once the stored snapshot holds it. *)
Lemma held_replies_not_reported seen fetched stored c :
  grows seen stored -> cumulative stored fetched ->
  c ∈ reported_by_polls stored fetched ->
  known seen (first_reply c) = false.
Proof.
  revert stored. induction fetched as [|current rest IH]; intros stored Hseen Hcum Hc.
  - now apply elem_of_nil in Hc.
  - destruct Hcum as [Hgrow Hcum]. simpl in Hc.
    destruct (detectNewComments stored current) as [o [news|e]] eqn:Hd; simpl in Hc.
    + apply elem_of_app in Hc as [Hc|Hc].
      * apply detect_returns in Hd as [(count & _ & _ & ->)|(_ & _ & _ & _ & _ & ->)].
        { now apply elem_of_nil in Hc. }
        apply diff_reply_unknown in Hc as (_ & Hk & _).
        destruct (known seen (first_reply c)) eqn:E; [|reflexivity].
        apply Hseen in E. congruence.
      * apply (IH (js_or current (JArr []))); [| |exact Hc].
        -- intros r Hr. rewrite known_js_or. apply Hgrow, Hseen, Hr.
        -- destruct rest as [|next rest']; simpl in *; [exact I|].
           destruct Hcum as [Hn Hrest]. split; [|exact Hrest].
           intros r Hr. rewrite known_js_or in Hr. now apply Hn.
    + apply (IH stored); [exact Hseen| |exact Hc].
      eapply cumulative_weaken; eauto.
Qed.

(** After an empty stored snapshot, the replies of the first fetched
    snapshot are never reported while no reply disappears. *)
Lemma absorbed_replies_not_reported first rest c :
  cumulative first rest ->
  c ∈ reported_by_polls (JArr []) (first :: rest) ->
  known first (first_reply c) = false.
Proof.
  intros Hcum Hc. simpl in Hc.
  destruct (detectNewComments (JArr []) first) as [o [news|e]] eqn:Hd; simpl in Hc.
  - apply detect_returns in Hd as [(count & _ & _ & ->)|(Hz & _)]; [|discriminate].
    simpl in Hc. apply (held_replies_not_reported first rest (js_or first (JArr []))).
    + intros r Hr. now rewrite known_js_or.
    + destruct rest as [|next rest']; simpl in *; [exact I|].
      destruct Hcum as [Hn Hrest]. split; [|exact Hrest].
      intros r Hr. rewrite known_js_or in Hr. now apply Hn.
    + exact Hc.
  - unfold detectNewComments in Hd. simpl in Hd.
    destruct first; simpl in Hd; try discriminate; reflexivity.
Qed.

(** One tick moves the stored snapshot as [reported_by_polls] does. *)
Lemma tick_stored_snapshot `{Builtins} env docId (cache : gmap string JSValue) result current :
  fetch_comments env docId = Normal (Some (result, current)) ->
  stored_snapshot (fst (invokeGetCommentsTools env docId cache)) docId
  = match snd (detectNewComments (stored_snapshot cache docId) current) with
    | Normal _ => js_or current (JArr [])
    | Throw _ => stored_snapshot cache docId
    end.
Proof.
  intros Hfetch.
  destruct (detectNewComments (stored_snapshot cache docId) current) as [o [news|e]] eqn:Hd.
  - rewrite (tick_succeeded _ _ _ _ _ _ _ Hfetch Hd). simpl.
    unfold stored_snapshot. now rewrite lookup_insert_eq.
  - now rewrite (tick_detect_failed _ _ _ _ _ _ _ Hfetch Hd).
Qed.

(** * More lemmas *)

Lemma same_value_zero_refl v : primitive v = true -> same_value_zero v v = true.
Proof.
  destruct v; simpl; try discriminate; intros _; try reflexivity.
  - now destruct b.
  - apply Z.eqb_refl.
  - apply String.eqb_refl.
Qed.

(** A reply of a snapshot with primitive identifiers is known to it. *)
Lemma own_reply_known snapshot c r :
  primitive_ids snapshot = true ->
  (c, r) ∈ snapshot_replies snapshot -> has_id r = true ->
  known snapshot r = true.
Proof.
  intros Hp Hin Hid. unfold known. apply existsb_exists.
  exists (reply_id r). split.
  - unfold snapshot_ids. apply in_map. apply list_elem_of_In.
    apply list_elem_of_filter. split; [exact Hid|].
    apply list_elem_of_fmap. now exists (c, r).
  - apply same_value_zero_refl. unfold primitive_ids in Hp.
    rewrite forallb_forall in Hp. apply (Hp (c, r)). now apply list_elem_of_In.
Qed.

Lemma diff_fresh old new :
  diff old new = map tagged (filter (fun cr => fresh old cr = true) (snapshot_replies new)).
Proof. reflexivity. Qed.

Lemma filter_none {A} (P : A -> Prop) `{forall x, Decision (P x)} (l : list A) :
  (forall x, x ∈ l -> ~ P x) -> filter P l = [].
Proof.
  induction l as [|x l IH]; intros Hn; [reflexivity|].
  rewrite filter_cons, decide_False by (apply Hn; left).
  apply IH. intros y Hy. apply Hn. now right.
Qed.

Lemma lookup_set_prop_ne k k' v props :
  k <> k' -> lookup_prop k' (set_prop k v props) = lookup_prop k' props.
Proof.
  intros Hne. induction props as [|[k0 v0] rest IH]; simpl.
  - destruct (k =? k') eqn:E; [apply String.eqb_eq in E; contradiction|reflexivity].
  - destruct (k0 =? k) eqn:E; simpl.
    + apply String.eqb_eq in E. subst k0.
      destruct (k =? k') eqn:E'; [apply String.eqb_eq in E'; contradiction|reflexivity].
    + now rewrite IH.
Qed.

(** Only an object has a property that is an array. *)
Lemma array_property_of_object v k l :
  opt_get v k = JArr l -> exists props, v = JObj props.
Proof.
  unfold opt_get. destruct v; simpl; try discriminate; eauto.
  - destruct (k =? "length"); discriminate.
  - destruct (k =? "length"); discriminate.
Qed.

Lemma snapshot_replies_parent snapshot parent reply :
  (parent, reply) ∈ snapshot_replies snapshot ->
  exists props props' replies,
    parent = JObj props /\ lookup_prop "reply_list" props = JObj props'
    /\ lookup_prop "replies" props' = JArr replies /\ reply ∈ replies.
Proof.
  destruct snapshot as [| | | | |comments|]; simpl; try (intros Hin; now apply elem_of_nil in Hin).
  intros Hin. apply list_elem_of_In, in_flat_map in Hin as (c & _ & Hin).
  apply in_map_iff in Hin as (r & [= <- <-] & Hr).
  unfold comment_replies in Hr.
  destruct (opt_get (opt_get c "reply_list") "replies") as [| | | | |replies|] eqn:E;
    try contradiction.
  destruct (array_property_of_object _ _ _ E) as [props' Hrl].
  assert (exists props, c = JObj props) as [props ->].
  { unfold opt_get in Hrl. destruct c; simpl in Hrl; try discriminate; eauto. }
  exists props, props', replies. unfold opt_get in Hrl, E. simpl in Hrl, E.
  rewrite Hrl in E. simpl in E.
  repeat split; auto. now apply list_elem_of_In.
Qed.

(** ** Where the agent is started *)

Lemma emits_try_catch (P : Event -> Prop) {A} (m : Out A) (h : JSError -> Out A) :
  Forall P (fst m) -> (forall e, Forall P (fst (h e))) -> Forall P (fst (try_catch m h)).
Proof.
  intros Hm Hh. destruct m as [o [a|e]]; simpl in *; [exact Hm|].
  specialize (Hh e). destruct (h e) as [o' r]. simpl in *. apply Forall_app. now split.
Qed.

Lemma emits_console (P : Event -> Prop) l : P (Console l) -> Forall P (fst (console l)).
Proof. intros Hl. repeat constructor. exact Hl. Qed.

Lemma agent_inputs_app o o' : agent_inputs (o ++ o') = agent_inputs o ++ agent_inputs o'.
Proof. unfold agent_inputs. apply omap_app. Qed.

Lemma agent_inputs_none o : Forall no_agent_call o -> agent_inputs o = [].
Proof.
  induction 1 as [|e o He _ IH]; [reflexivity|].
  destruct e; try contradiction; exact IH.
Qed.

Ltac quiet :=
  repeat first
    [ apply emits_ret | apply emits_lift | apply emits_console; exact I
    | apply emits_try_catch; [|intros ?]
    | apply emits_bind; [|intros ?]
    | apply emits_when
    | apply emits_for_tool_messages; intros ?
    | apply emits_for_await; intros ? ?
    | apply emits_for_each; intros ? ?
    | match goal with |- Forall _ (fst (if ?c then _ else _)) => destruct c end ].

Section DispatchLemmas.
Context `{Builtins}.

Lemma console_chunk_quiet chunk acc : Forall no_agent_call (fst (console_chunk chunk acc)).
Proof.
  unfold console_chunk, console_agent, console_tools, console_token_usage,
    console_tool_calls, console_tool_message, console_tool_response.
  quiet.
Qed.

(** With an agent, the handling of one comment starts it exactly once. *)
Lemma process_starts_agent_once agent comment docId :
  agent_inputs (fst (processNewCommentWithAgent (Some agent) comment docId))
  = [agent_input docId (comment_text comment)].
Proof.
  unfold processNewCommentWithAgent.
  match goal with
  | |- context [try_catch (console ?l ;;; emit ?c ;;; ?rest) ?h] => set (R := rest)
  end.
  assert (Hrest : Forall no_agent_call (fst R)).
  { subst R. apply emits_bind; [apply emits_lift|]. intros stream.
    apply emits_bind; [apply emits_console; exact I|]. intros _.
    apply emits_bind.
    - apply emits_for_await. intros chunk acc. apply console_chunk_quiet.
    - intros final. quiet. }
  clearbody R. destruct R as [o [v|e]]; cbn in *.
  - now rewrite agent_inputs_none.
  - rewrite agent_inputs_app, agent_inputs_none by exact Hrest. reflexivity.
Qed.

Lemma dispatch_comment_events env docId index comment :
  fst (snd (dispatch_comment env docId index comment ∅))
  = Console (LNewComment (S index) (comment_author comment) (comment_time comment)
               (comment_text comment))
      :: fst (processNewCommentWithAgent (reactAgent env) comment docId).
Proof.
  unfold dispatch_comment, task_bind, task_try, run. cbn [console emit].
  destruct (processNewCommentWithAgent (reactAgent env) comment docId) as [o [v|e]] eqn:E.
  - cbn. now rewrite app_nil_r.
  - destruct (processNewCommentWithAgent_returns (reactAgent env) comment docId)
      as (o' & v & E'). congruence.
Qed.

Lemma dispatch_output_cons env docId index comment rest :
  dispatch_output env docId index (comment :: rest)
  = fst (snd (dispatch_comment env docId index comment ∅))
      ++ dispatch_output env docId (S index) rest.
Proof.
  unfold dispatch_output. cbn [task_for]. unfold task_bind.
  rewrite (dispatch_comment_runs env docId index comment ∅).
  rewrite (task_for_dispatch env docId rest (S index) ∅). reflexivity.
Qed.

Lemma dispatch_output_calls env agent docId index newComments :
  reactAgent env = Some agent ->
  agent_inputs (dispatch_output env docId index newComments)
  = map (fun c => agent_input docId (comment_text c)) newComments.
Proof.
  intros Ha. revert index. induction newComments as [|c rest IH]; intros index.
  - reflexivity.
  - rewrite dispatch_output_cons, agent_inputs_app, IH, dispatch_comment_events, Ha.
    change (agent_inputs (Console ?l :: ?o)) with (agent_inputs o).
    now rewrite process_starts_agent_once.
Qed.

Lemma dispatch_output_unhandled env docId index newComments :
  reactAgent env = None ->
  dispatch_output env docId index newComments = unhandled_lines index newComments.
Proof.
  intros Ha. revert index. induction newComments as [|c rest IH]; intros index.
  - reflexivity.
  - rewrite dispatch_output_cons, IH, dispatch_comment_events, Ha.
    unfold unhandled_lines. simpl. rewrite Nat.add_0_r. do 3 f_equal.
    apply imap_ext. intros i x _. simpl. now rewrite Nat.add_succ_r.
Qed.

Lemma comment_text_tagged parent reply :
  comment_text (tagged (parent, reply)) = reply_text reply.
Proof. unfold comment_text. now rewrite first_reply_tagged. Qed.

End DispatchLemmas.

(** ** Document links *)

Lemma append_assoc (a b c : string) : (a +:+ b) +:+ c = a +:+ b +:+ c.
Proof.
  induction a as [|x a IH]; [reflexivity|].
  change (String x ((a +:+ b) +:+ c) = String x (a +:+ b +:+ c)). now rewrite IH.
Qed.

Lemma strip_prefix_spec p s rest : strip_prefix p s = Some rest <-> s = p +:+ rest.
Proof.
  revert s. induction p as [|a p IH]; intros s; simpl.
  - split; [now intros [= ->]|now intros ->].
  - destruct s as [|b s]; [split; discriminate|].
    destruct (Ascii.eqb a b) eqn:E.
    + apply Ascii.eqb_eq in E. subst b. rewrite IH. split; [now intros ->|now intros [= ->]].
    + split; [discriminate|]. intros [= -> _]. now rewrite Ascii.eqb_refl in E.
Qed.

Lemma take_alnum_spec s :
  all_alnum (take_alnum s) = true
  /\ exists rest, s = take_alnum s +:+ rest /\ stops rest = true.
Proof.
  induction s as [|c s (IH1 & rest & IH2 & IH3)]; simpl.
  - split; [reflexivity|]. now exists EmptyString.
  - destruct (is_alnum c) eqn:E; simpl.
    + rewrite E, IH1. split; [reflexivity|]. exists rest. split; [|exact IH3].
      change (String c s = String c (take_alnum s +:+ rest)). f_equal. exact IH2.
    + split; [reflexivity|]. exists (String c s). simpl. now rewrite E.
Qed.

Lemma take_alnum_all id rest :
  all_alnum id = true -> stops rest = true -> take_alnum (id +:+ rest) = id.
Proof.
  intros Hid Hrest. induction id as [|c id IH]; simpl in *.
  - destruct rest as [|c rest]; [reflexivity|]. simpl in *.
    apply negb_true_iff in Hrest. now rewrite Hrest.
  - apply andb_prop in Hid as [Hc Hid]. now rewrite Hc, IH.
Qed.

Lemma match_kind_spec s kind found :
  match_kind s kind = Some found ->
  fst found = kind /\ snd found <> ""
  /\ all_alnum (snd found) = true
  /\ exists rest, s = "/" +:+ kind +:+ "/" +:+ snd found +:+ rest /\ stops rest = true.
Proof.
  unfold match_kind. destruct (strip_prefix _ s) as [tail|] eqn:Hp; [|discriminate].
  destruct (take_alnum tail =? "") eqn:He; [discriminate|]. intros [= <-]. simpl.
  apply String.eqb_neq in He. apply strip_prefix_spec in Hp.
  destruct (take_alnum_spec tail) as (Hall & rest & Htail & Hstop).
  repeat split; auto. exists rest. split; [|exact Hstop].
  rewrite Hp. rewrite Htail at 1. now rewrite !append_assoc.
Qed.

Lemma match_any_spec s kinds found :
  match_any s kinds = Some found ->
  In (fst found) kinds /\ match_kind s (fst found) = Some found.
Proof.
  induction kinds as [|kind rest IH]; simpl; [discriminate|].
  destruct (match_kind s kind) as [f|] eqn:E.
  - intros [= <-]. destruct (match_kind_spec _ _ _ E) as [Hk _]. rewrite Hk. auto.
  - intros Hf. destruct (IH Hf). auto.
Qed.

Lemma search_spec s found :
  search s = Some found ->
  exists before here, s = before +:+ here /\ match_any here doc_kinds = Some found.
Proof.
  induction s as [|c s IH].
  - simpl. intros Hf. discriminate.
  - cbn [search]. destruct (match_any (String c s) doc_kinds) as [f|] eqn:E.
    + intros [= <-]. exists EmptyString, (String c s). split; [reflexivity|exact E].
    + intros Hf. destruct (IH Hf) as (before & here & -> & Hm).
      exists (String c before), here. split; [reflexivity|exact Hm].
Qed.

(** A path that starts with a document segment is matched at its head. *)
Lemma search_head kind id rest :
  In kind doc_kinds -> id <> "" -> all_alnum id = true -> stops rest = true ->
  search ("/" +:+ kind +:+ "/" +:+ id +:+ rest) = Some (kind, id).
Proof.
  intros Hk Hne Hid Hstop.
  assert (Hm : match_kind ("/" +:+ kind +:+ "/" +:+ id +:+ rest) kind = Some (kind, id)).
  { unfold match_kind.
    assert (Hp : strip_prefix ("/" +:+ kind +:+ "/") ("/" +:+ kind +:+ "/" +:+ id +:+ rest)
                 = Some (id +:+ rest)).
    { apply strip_prefix_spec. now rewrite !append_assoc. }
    rewrite Hp, (take_alnum_all _ _ Hid Hstop).
    destruct (id =? "") eqn:E; [apply String.eqb_eq in E; contradiction|reflexivity]. }
  assert (Hany : match_any ("/" +:+ kind +:+ "/" +:+ id +:+ rest) doc_kinds
                 = Some (kind, id)).
  { unfold doc_kinds in *. simpl in Hk.
    destruct Hk as [<-|[<-|[<-|[]]]]; cbn [match_any]; rewrite ?Hm; reflexivity. }
  change ("/" +:+ kind +:+ "/" +:+ id +:+ rest)
    with (String "/" (kind +:+ "/" +:+ id +:+ rest)) in *.
  cbn [search]. now rewrite Hany.
Qed.

(** ** The registry, continued *)

Section RegistryMore.
Context `{Builtins}.

Lemma step_timers_live a m m' :
  registry_consistent m -> timers_live m -> step a m = Some m' -> timers_live m'.
Proof.
  intros [I1 I2] L Hstep. destruct a as [d|d| |t|i env]; simpl in Hstep.
  - injection Hstep as <-. intros d' t E. simpl in *.
    apply lookup_insert_Some in E as [[<- <-]|[Hne E]]; [apply lookup_insert_eq|].
    pose proof (I2 _ _ E) as Hlt. rewrite lookup_insert_ne by lia.
    destruct (activeTimers m !! d) as [old|] eqn:Hold; simpl; [|now apply L].
    rewrite lookup_delete_ne; [now apply L|].
    intros ->. apply L in Hold. apply L in E. congruence.
  - destruct (activeTimers m !! d) as [old|] eqn:Hold.
    + injection Hstep as <-. intros d' t E. simpl in *.
      apply lookup_delete_Some in E as [Hne E].
      rewrite lookup_delete_ne; [now apply L|].
      intros ->. apply L in Hold. apply L in E. congruence.
    + now injection Hstep as <-.
  - injection Hstep as <-. intros d' t E. simpl in E. now rewrite lookup_empty in E.
  - destruct (intervals m !! t); [|discriminate]. now injection Hstep as <-.
  - destruct (in_flight m !! i); [|discriminate]. now injection Hstep as <-.
Qed.

Lemma run_schedule_exact actions m m' :
  registry_consistent m -> timers_live m -> run_schedule actions m = Some m' ->
  registry_consistent m' /\ timers_live m'.
Proof.
  revert m. induction actions as [|a rest IH]; intros m Hc Hl; simpl.
  - intros [= <-]. now split.
  - destruct (step a m) as [m1|] eqn:Hstep; [|discriminate].
    apply IH; [eapply step_consistent|eapply step_timers_live]; eauto.
Qed.

Lemma reachable_exact actions m :
  run_schedule actions initial = Some m -> registry_consistent m /\ timers_live m.
Proof.
  apply run_schedule_exact; [apply initial_consistent|].
  intros d t E. simpl in E. now rewrite lookup_empty in E.
Qed.

(** Clearing every registered timer of a consistent registry leaves no
    timer live. *)
Lemma clear_all_consistent m :
  registry_consistent m -> clear_all (map_to_list (activeTimers m)) (intervals m) = ∅.
Proof.
  intros [I1 _]. apply map_eq. intros t. rewrite lookup_empty.
  destruct (clear_all _ _ !! t) as [d|] eqn:E; [|reflexivity].
  apply clear_all_lookup in E as [E Hn]. exfalso. apply (Hn d).
  apply elem_of_map_to_list. now apply I1.
Qed.

End RegistryMore.

(** ** The translators, continued *)

Lemma bind_returns {A B} (m : Out A) (f : A -> Out B) o b :
  bind m f = (o, Normal b) ->
  exists o1 a o2, m = (o1, Normal a) /\ f a = (o2, Normal b) /\ o = o1 ++ o2.
Proof.
  unfold bind. destruct m as [o1 [a|e]]; [|discriminate].
  destruct (f a) as [o2 r] eqn:E. intros [= <- ->]. now exists o1, a, o2.
Qed.

Lemma last_cons {A} (x d : A) l : List.last (x :: l) d = List.last l x.
Proof.
  revert x d. induction l as [|y l IH]; intros x d; [reflexivity|].
  change (List.last (y :: l) d = List.last (y :: l) x). now rewrite !IH.
Qed.

Section FinalLemmas.
Context `{Builtins}.

Lemma console_chunk_returns chunk acc o v :
  console_chunk chunk acc = (o, Normal v) ->
  v = if truthy (opt_get chunk "__end__") then chunk else acc.
Proof.
  unfold console_chunk. intros E.
  apply bind_returns in E as (o1 & [] & o2 & _ & E & _).
  apply bind_returns in E as (o3 & [] & o4 & _ & E & _).
  apply bind_returns in E as (o5 & marker & o6 & Hg & E & _).
  unfold lift in Hg. injection Hg as _ Hg.
  rewrite (get_opt_get _ _ (get_returns _ _ _ Hg)) in Hg. injection Hg as <-.
  unfold ret in E. now injection E as _ <-.
Qed.

Lemma for_each_last_end chunks acc o v :
  for_each chunks console_chunk acc = (o, Normal v) ->
  v = List.last (end_chunks chunks) acc.
Proof.
  revert acc o. induction chunks as [|c rest IH]; intros acc o E; simpl in E.
  - unfold ret in E. now injection E as _ <-.
  - apply bind_returns in E as (o1 & acc' & o2 & Hc & E & _).
    apply console_chunk_returns in Hc. apply IH in E. subst v acc'.
    unfold end_chunks. simpl. destruct (truthy (opt_get c "__end__")); [|reflexivity].
    now rewrite last_cons.
Qed.

(** A loop over chunks reports, chunk by chunk, what its body reports on
    the chunks it reaches. *)
Lemma for_each_reached (body : JSValue -> Out unit) chunks :
  fst (for_each chunks (fun c _ => body c) tt)
  = concat (map (fun c => fst (body c)) (reached body chunks)).
Proof.
  induction chunks as [|c rest IH]; [reflexivity|].
  cbn [for_each reached]. unfold bind. destruct (body c) as [o [[]|e]] eqn:Eb; cbn [snd].
  - destruct (for_each rest _ tt) as [o' r]. simpl in *. now rewrite IH, Eb.
  - simpl. now rewrite Eb, app_nil_r.
Qed.

Lemma frames_no_json o : Forall data_frame o -> json_replies o = 0.
Proof.
  induction 1 as [|e o [v ->] _ IH]; [reflexivity|].
  unfold json_replies in *. rewrite filter_cons. cbn [is_json].
  now rewrite decide_False by discriminate.
Qed.

Lemma json_replies_app o o' : json_replies (o ++ o') = json_replies o + json_replies o'.
Proof. unfold json_replies. rewrite filter_app. apply length_app. Qed.

Lemma last_effect_apart {A} (a : A) p s l r :
  a :: p ++ s ++ [l; r] = (a :: p ++ s ++ [l]) ++ [r].
Proof. cbn [app]. f_equal. rewrite <- !app_assoc. reflexivity. Qed.


End FinalLemmas.

(** The chunks a loop reaches are the first chunks of the stream. *)
Lemma reached_prefix (body : JSValue -> Out unit) chunks :
  exists rest, chunks = reached body chunks ++ rest.
Proof.
  induction chunks as [|c l [rest IH]]; [now exists []|].
  cbn [reached]. destruct (snd (body c)).
  - exists rest. cbn [app]. now rewrite <- IH.
  - now exists l.
Qed.

(** * The diff engine *)




(** C5: when no snapshot is stored for the document, the diff of the stored
    snapshot against any fetched snapshot is empty, and the tick reports
    the baseline, stores the fetched snapshot and handles no reply. *)
Theorem first_poll_establishes_baseline `{Builtins} (cache : gmap string JSValue) docId :
  cache !! docId = None ->
  (forall new, nullish new = false ->
     detectNewComments (stored_snapshot cache docId) new
     = ([Console (LBaseline (opt_get new "length"))], Normal []))
  /\ (forall env result current,
        fetch_comments env docId = Normal (Some (result, current)) ->
        invokeGetCommentsTools env docId cache
        = (<[docId := current]> cache,
           ([Console (LBaseline (opt_get current "length")); CacheSet docId current],
            Normal result))).
Proof.
  intros Habsent. apply stored_absent in Habsent. split.
  - intros new Hn. rewrite Habsent. now apply detect_baseline.
  - intros env result current Hfetch.
    assert (Hn : nullish current = false)
      by (apply truthy_not_nullish; eapply fetch_current_truthy; eauto).
    erewrite tick_succeeded; [|exact Hfetch|rewrite Habsent; now apply detect_baseline].
    reflexivity.
Qed.

Lemma first_poll_establishes_baseline_witness :
  (forall new, nullish new = false ->
     detectNewComments (stored_snapshot ∅ "doc") new
     = ([Console (LBaseline (opt_get new "length"))], Normal []))
  /\ (forall env result current,
        fetch_comments env "doc" = Normal (Some (result, current)) ->
        invokeGetCommentsTools env "doc" ∅
        = (<["doc" := current]> ∅,
           ([Console (LBaseline (opt_get current "length")); CacheSet "doc" current],
            Normal result))).
Proof. apply (first_poll_establishes_baseline ∅ "doc"). reflexivity. Defined.

(** C10, as amended: a stored snapshot that is an empty list behaves as an
    absent one.  The diff against any fetched snapshot is empty; the tick
    handles no reply and stores the fetched snapshot; the replies of that
    snapshot are the baseline from then on: the diff of the following tick
    reports no reply whose identifier that snapshot held, and over any
    number of later ticks, while no reply disappears from the fetched
    snapshots, no reply of the first snapshot fetched after the empty one
    is ever reported.  Nothing is said of replies that arrive later. *)
Theorem empty_snapshot_is_baseline `{Builtins} (cache : gmap string JSValue) docId :
  cache !! docId = Some (JArr []) ->
  (forall new, nullish new = false ->
     detectNewComments (stored_snapshot cache docId) new
     = ([Console (LBaseline (opt_get new "length"))], Normal []))
  /\ (forall env result current,
        fetch_comments env docId = Normal (Some (result, current)) ->
        invokeGetCommentsTools env docId cache
        = (<[docId := current]> cache,
           ([Console (LBaseline (opt_get current "length")); CacheSet docId current],
            Normal result))
        /\ forall fetched o newComments c,
             detectNewComments (stored_snapshot (<[docId := current]> cache) docId) fetched
             = (o, Normal newComments) ->
             c ∈ newComments ->
             has_id (first_reply c) = true /\ known current (first_reply c) = false)
  /\ (forall first rest c,
        cumulative first rest ->
        c ∈ reported_by_polls (stored_snapshot cache docId) (first :: rest) ->
        known first (first_reply c) = false).
Proof.
  intros Hempty. apply stored_empty in Hempty. split; [|split].
  - intros new Hn. rewrite Hempty. now apply detect_baseline.
  - intros env result current Hfetch.
    pose proof (fetch_current_truthy _ _ _ _ Hfetch) as Ht.
    split.
    + erewrite tick_succeeded;
        [|exact Hfetch|rewrite Hempty; apply detect_baseline; now apply truthy_not_nullish].
      reflexivity.
    + intros fetched o news c Hd Hc. rewrite (stored_after_update _ _ _ Ht) in Hd.
      apply detect_returns in Hd as [(count & _ & _ & ->)|(_ & _ & _ & _ & _ & ->)].
      * now apply elem_of_nil in Hc.
      * apply diff_reply_unknown in Hc as (Hid & Hk & _). now split.
  - intros first rest c Hcum Hc. rewrite Hempty in Hc.
    eapply absorbed_replies_not_reported; eauto.
Qed.

Lemma empty_snapshot_is_baseline_witness :
  (forall new, nullish new = false ->
     detectNewComments (stored_snapshot (<["doc" := JArr []]> ∅) "doc") new
     = ([Console (LBaseline (opt_get new "length"))], Normal []))
  /\ (forall env result current,
        fetch_comments env "doc" = Normal (Some (result, current)) ->
        invokeGetCommentsTools env "doc" (<["doc" := JArr []]> ∅)
        = (<["doc" := current]> (<["doc" := JArr []]> ∅),
           ([Console (LBaseline (opt_get current "length")); CacheSet "doc" current],
            Normal result))
        /\ forall fetched o newComments c,
             detectNewComments
               (stored_snapshot (<["doc" := current]> (<["doc" := JArr []]> ∅)) "doc") fetched
             = (o, Normal newComments) ->
             c ∈ newComments ->
             has_id (first_reply c) = true /\ known current (first_reply c) = false)
  /\ (forall first rest c,
        cumulative first rest ->
        c ∈ reported_by_polls (stored_snapshot (<["doc" := JArr []]> ∅) "doc") (first :: rest) ->
        known first (first_reply c) = false).
Proof.
  apply (empty_snapshot_is_baseline (<["doc" := JArr []]> ∅) "doc"). reflexivity.
Defined.

(** C10 as stated fails: replies that arrive after a baseline poll that saw
    no comment are reported.  The first poll of a document without comments
    stores the empty list; the poll that fetches [r1] stores it without
    starting the agent; the poll that then fetches [r1] and [r2] starts the
    agent, once, for [r2].  And a reply of the absorbed snapshot that
    disappears and comes back is reported too: after the empty list, the
    polls that fetch [r1; r2], then [r2], then [r1; r2] report [r1]. *)
Lemma reply_after_empty_baseline_is_reported :
  invokeGetCommentsTools poll_none "doc" ∅
  = (<["doc" := JArr []]> ∅,
     ([Console (LBaseline (JNum 0)); CacheSet "doc" (JArr [])],
      Normal (JStr empty_response_text)))
  /\ fst (invokeGetCommentsTools poll_one "doc" (<["doc" := JArr []]> ∅)) = sample_cache
  /\ agent_calls (fst (snd (invokeGetCommentsTools poll_one "doc" (<["doc" := JArr []]> ∅))))
     = 0
  /\ agent_inputs (fst (snd (invokeGetCommentsTools poll_two "doc" sample_cache)))
     = [agent_input "doc" (reply_text (bare_reply "r2"))]
  /\ reported_by_polls (JArr [])
       [JArr []; response_snapshot ["r1"]; response_snapshot ["r1"; "r2"]]
     = [JObj [("reply_list", JObj [("replies", JArr [bare_reply "r2"])])]]
  /\ reported_by_polls (JArr [])
       [response_snapshot ["r1"; "r2"]; response_snapshot ["r2"];
        response_snapshot ["r1"; "r2"]]
     = [JObj [("reply_list", JObj [("replies", JArr [bare_reply "r1"])])]].
Proof. repeat split; vm_compute; reflexivity. Qed.

(** A document without comments is polled; a first reply arrives and is
    taken as the baseline; only the second reply is reported. *)
Example first_reply_after_empty_baseline_is_absorbed :
  reported_by_polls (JArr [])
    [JArr []; response_snapshot ["r1"]; response_snapshot ["r1"; "r2"]]
  = [JObj [("reply_list", JObj [("replies", JArr [bare_reply "r2"])])]].
Proof. vm_compute. reflexivity. Qed.

(** * The polling tick *)

(** C2: on every successful tick the stored snapshot is replaced by the
    fetched one before the handling of any new reply shows: nothing
    reported before the cache update belongs to a dispatch, and whatever
    the agent does the tick returns with the fetched snapshot stored; a
    reply reported by this tick is not reported by the diff of the next
    tick, whatever that tick fetches. *)
Theorem snapshot_replaced_before_dispatch `{Builtins}
    env docId (cache : gmap string JSValue) result current o newComments :
  fetch_comments env docId = Normal (Some (result, current)) ->
  detectNewComments (stored_snapshot cache docId) current = (o, Normal newComments) ->
  invokeGetCommentsTools env docId cache
  = (<[docId := current]> cache,
     (o ++ CacheSet docId current :: report_output env docId newComments, Normal result))
  /\ Forall (fun e => dispatch_event e = false) o
  /\ stored_snapshot (<[docId := current]> cache) docId = current
  /\ (forall c fetched o2 newComments2 c2,
        c ∈ newComments ->
        detectNewComments (stored_snapshot (<[docId := current]> cache) docId) fetched
        = (o2, Normal newComments2) ->
        c2 ∈ newComments2 ->
        same_value_zero (reply_id (first_reply c2)) (reply_id (first_reply c)) = false).
Proof.
  intros Hfetch Hd.
  pose proof (fetch_current_truthy _ _ _ _ Hfetch) as Ht.
  split; [|split; [|split]].
  - now apply tick_succeeded.
  - eapply detect_output_no_dispatch; eauto.
  - now apply stored_after_update.
  - intros c fetched o2 news2 c2 Hc Hd2 Hc2.
    rewrite (stored_after_update _ _ _ Ht) in Hd2.
    exact (reported_then_known _ _ _ _ _ _ _ _ _ Hd Hc Hd2 Hc2).
Qed.

(** C6: when the fetch or the parsing of its response fails, the tick
    leaves the cache as it was, reports the failure and nothing of a
    dispatch, and returns [null] instead of throwing; the timers of the
    registry are untouched, so the next tick is still scheduled. *)
Theorem failed_fetch_skips_tick `{Builtins} env docId (cache : gmap string JSValue) e :
  fetch_comments env docId = Throw e ->
  invokeGetCommentsTools env docId cache = (cache, (failure_output e, Normal JNull))
  /\ Forall (fun ev => dispatch_event ev = false) (failure_output e)
  /\ (forall m index,
        in_flight m !! index = Some docId ->
        step (FetchSettles index env) m
        = Some (mkMonitor (activeTimers m) (commentsCache m) (intervals m) (next_timer m)
                  (delete index (in_flight m)) (history m ++ failure_output e))).
Proof.
  intros Hfetch. split; [|split].
  - now apply tick_fetch_failed.
  - unfold failure_output. destruct (name e =? "ToolException"); repeat constructor.
  - intros m index Hin. unfold step. rewrite Hin.
    now rewrite (tick_fetch_failed _ _ _ _ Hfetch).
Qed.

Lemma snapshot_replaced_before_dispatch_witness :
  invokeGetCommentsTools sample_poll "doc" sample_cache
  = (<["doc" := response_snapshot ["r1"; "r2"]]> sample_cache,
     ([] ++ CacheSet "doc" (response_snapshot ["r1"; "r2"])
         :: report_output sample_poll "doc" (diff (response_snapshot ["r1"])
                                               (response_snapshot ["r1"; "r2"])),
      Normal (JStr (response_text ["r1"; "r2"]))))
  /\ Forall (fun e => dispatch_event e = false) []
  /\ stored_snapshot (<["doc" := response_snapshot ["r1"; "r2"]]> sample_cache) "doc"
     = response_snapshot ["r1"; "r2"]
  /\ (forall c fetched o2 newComments2 c2,
        c ∈ diff (response_snapshot ["r1"]) (response_snapshot ["r1"; "r2"]) ->
        detectNewComments
          (stored_snapshot (<["doc" := response_snapshot ["r1"; "r2"]]> sample_cache) "doc")
          fetched
        = (o2, Normal newComments2) ->
        c2 ∈ newComments2 ->
        same_value_zero (reply_id (first_reply c2)) (reply_id (first_reply c)) = false).
Proof.
  apply (snapshot_replaced_before_dispatch sample_poll "doc" sample_cache
           (JStr (response_text ["r1"; "r2"])) (response_snapshot ["r1"; "r2"]) []
           (diff (response_snapshot ["r1"]) (response_snapshot ["r1"; "r2"])));
    vm_compute; reflexivity.
Defined.

Lemma failed_fetch_skips_tick_witness :
  invokeGetCommentsTools broken_poll "doc" sample_cache
  = (sample_cache,
     (failure_output (SyntaxError "Unexpected token in JSON"), Normal JNull))
  /\ Forall (fun ev => dispatch_event ev = false)
       (failure_output (SyntaxError "Unexpected token in JSON"))
  /\ (forall m index,
        in_flight m !! index = Some "doc" ->
        step (FetchSettles index broken_poll) m
        = Some (mkMonitor (activeTimers m) (commentsCache m) (intervals m) (next_timer m)
                  (delete index (in_flight m))
                  (history m ++ failure_output (SyntaxError "Unexpected token in JSON")))).
Proof.
  apply (failed_fetch_skips_tick broken_poll "doc" sample_cache
           (SyntaxError "Unexpected token in JSON")).
  vm_compute. reflexivity.
Defined.

(** * The agent event translator *)




(** C7, as amended: for a chunk whose last agent message requests tool
    invocations, the stream sink writes one [tool_call] frame per
    invocation, in the order listed, with the arguments parsed from their
    serialized form (the example prints the name and the parsed arguments);
    when the arguments of an invocation fail to parse, the frames of the
    invocations before it have been written and the translation throws the
    parse error: no frame is written for that invocation. *)
Theorem tool_calls_translated_in_order `{Builtins} chunk m calls parsed :
  nullish chunk = false ->
  truthy (opt_get chunk "agent") = true ->
  last_agent_message (opt_get chunk "agent") = Normal m ->
  nullish m = false ->
  Forall (fun c => has_function c = true) calls ->
  Forall2 (fun call args => JSON_parse (call_arguments call) = Normal args) calls parsed ->
  (opt_get (opt_get m "additional_kwargs") "tool_calls" = JArr calls ->
   sse_agent chunk = (content_frames m ++ call_frames calls parsed, Normal tt)
   /\ example_tool_calls m = (Console LCallingTools :: call_lines calls parsed, Normal tt))
  /\ (forall bad rest e,
        has_function bad = true ->
        JSON_parse (call_arguments bad) = Throw e ->
        opt_get (opt_get m "additional_kwargs") "tool_calls" = JArr (calls ++ bad :: rest) ->
        sse_agent chunk = (content_frames m ++ call_frames calls parsed, Throw e)
        /\ example_tool_calls m
           = (Console LCallingTools
                :: call_lines calls parsed ++ [Console (LToolName (call_name bad))],
              Throw e)).
Proof.
  intros Hc Ha Hm Hn Hf Hp. split.
  - intros Htc. split.
    + rewrite (sse_agent_unfold _ _ Hc Ha Hm Hn), Htc. cbn [truthy when iterate].
      rewrite bind_lift_normal, (sse_calls_parsed _ _ Hf Hp). reflexivity.
    + rewrite (example_tool_calls_unfold _ _ Hn Htc), (example_calls_parsed _ _ Hf Hp).
      reflexivity.
  - intros bad rest e Hb He Htc. split.
    + rewrite (sse_agent_unfold _ _ Hc Ha Hm Hn), Htc. cbn [truthy when iterate].
      rewrite bind_lift_normal, (sse_calls_unparsed _ _ _ _ _ Hf Hp Hb He). reflexivity.
    + rewrite (example_tool_calls_unfold _ _ Hn Htc).
      rewrite (example_calls_unparsed _ _ _ _ _ Hf Hp Hb He). reflexivity.
Qed.

Lemma tool_calls_translated_in_order_witness :
  (opt_get (opt_get (calling_message [tool_call "search" "{}"; tool_call "edit" "{bad"])
              "additional_kwargs") "tool_calls"
   = JArr [tool_call "search" "{}"] ->
   sse_agent sample_calls_chunk
   = (content_frames (calling_message [tool_call "search" "{}"; tool_call "edit" "{bad"])
        ++ call_frames [tool_call "search" "{}"] [JObj []], Normal tt)
   /\ example_tool_calls (calling_message [tool_call "search" "{}"; tool_call "edit" "{bad"])
      = (Console LCallingTools :: call_lines [tool_call "search" "{}"] [JObj []],
         Normal tt))
  /\ (forall bad rest e,
        has_function bad = true ->
        JSON_parse (call_arguments bad) = Throw e ->
        opt_get (opt_get (calling_message [tool_call "search" "{}"; tool_call "edit" "{bad"])
                   "additional_kwargs") "tool_calls"
        = JArr ([tool_call "search" "{}"] ++ bad :: rest) ->
        sse_agent sample_calls_chunk
        = (content_frames (calling_message [tool_call "search" "{}"; tool_call "edit" "{bad"])
             ++ call_frames [tool_call "search" "{}"] [JObj []], Throw e)
        /\ example_tool_calls
             (calling_message [tool_call "search" "{}"; tool_call "edit" "{bad"])
           = (Console LCallingTools
                :: call_lines [tool_call "search" "{}"] [JObj []]
                   ++ [Console (LToolName (call_name bad))],
              Throw e)).
Proof.
  apply (tool_calls_translated_in_order sample_calls_chunk
           (calling_message [tool_call "search" "{}"; tool_call "edit" "{bad"])
           [tool_call "search" "{}"] [JObj []]);
    try reflexivity.
  - repeat constructor.
  - repeat constructor.
Defined.

(** C7 as stated fails when serialized arguments are not JSON: no frame
    carrying the raw string is written, the translation throws, and the
    response ends with an error frame. *)
Lemma unparsable_arguments_abort_translation :
  sse_chunk sample_calls_chunk tt
  = ([ResWrite (sse_frame (tool_call_event (JStr "search") (JObj [])))],
     Throw (SyntaxError "Unexpected token in JSON"))
  /\ example_chunk sample_calls_chunk tt
     = ([Console LCallingTools; Console (LToolName (JStr "search"));
         Console (LToolArgs (JObj [])); Console (LToolName (JStr "edit"))],
        Throw (SyntaxError "Unexpected token in JSON"))
  /\ response_body
       (fst (stream_to_response (fun _ => Normal (mkStream [sample_calls_chunk] None))
               (JStr "go")))
     = [sse_frame (tool_call_event (JStr "search") (JObj []));
        sse_frame (error_event "Unexpected token in JSON")].
Proof. repeat split; vm_compute; reflexivity. Qed.

(** X22: for every tool execution result whose call identifier is a
    non-empty string, the tool name every translator uses is the segment of
    the identifier before its first colon.  The console translator of
    [processNewCommentWithAgent] prints the name and the identifier and
    then parses the payload: a payload that does not parse (or parses to
    [null]) is printed as raw text, a parsed payload with code [0] and data
    is printed as a success with its data, and a parsed payload whose code
    is not [0] is printed as a failure with its message or
    ['Unknown error'].  The stream sink writes one [tool_response] frame
    with the name and does not read the payload.  No exception is thrown
    in any of these cases. *)
Theorem tool_result_translated `{Builtins} msg id :
  nullish msg = false ->
  opt_get (opt_get msg "kwargs") "tool_call_id" = JStr id ->
  id <> "" ->
  (colon_free (before_colon id) = true
   /\ (id = before_colon id \/ exists rest, id = before_colon id +:+ ":" +:+ rest))
  /\ sse_tool_message msg
     = ([ResWrite (sse_frame (tool_response_event (before_colon id)))], Normal tt)
  /\ console_tool_message msg
     = (Console (LToolCalled (before_colon id)) :: Console (LToolCallId id)
          :: fst (console_tool_response (opt_get msg "kwargs")), Normal tt)
  /\ match JSON_parse (opt_get (opt_get msg "kwargs") "content") with
     | Throw _ | Normal JNull | Normal JUndefined =>
         fst (console_tool_response (opt_get msg "kwargs"))
         = [Console (LToolRaw (opt_get (opt_get msg "kwargs") "content"))]
     | Normal data =>
         (is_zero (opt_get data "code") = false ->
          fst (console_tool_response (opt_get msg "kwargs"))
          = [Console (LToolError (js_or (opt_get data "msg") (JStr "Unknown error")))])
         /\ (is_zero (opt_get data "code") = true ->
             truthy (opt_get data "data") = true ->
             fst (console_tool_response (opt_get msg "kwargs"))
             = [Console (LToolSuccess (opt_get data "data"))])
     end.
Proof.
  intros Hm Hid Hne.
  pose proof (opt_get_string_not_nullish _ _ _ Hid) as Hk.
  split; [|split].
  - split; [apply before_colon_free | apply before_colon_segment].
  - now apply sse_tool_message_named.
  - rewrite (console_tool_message_unfold _ _ Hm Hid Hne).
    destruct (JSON_parse (opt_get (opt_get msg "kwargs") "content")) as [v|e] eqn:Hp.
    + destruct (nullish v) eqn:Hn.
      * rewrite (console_tool_response_null _ _ Hk Hp Hn).
        destruct v; try discriminate; split; reflexivity.
      * assert (Hret : console_tool_response (opt_get msg "kwargs")
                       = (fst (console_tool_response (opt_get msg "kwargs")), Normal tt)).
        { unfold console_tool_response.
          rewrite (bind_get _ _ _ Hk), Hp, bind_lift_normal, (bind_get _ _ _ Hn).
          destruct (is_zero (opt_get v "code")).
          - rewrite (bind_get _ _ _ Hn). cbn [andb].
            destruct (truthy (opt_get v "data")); [reflexivity|].
            rewrite (bind_get _ _ _ Hn). reflexivity.
          - rewrite bind_lift_normal. cbn [andb]. rewrite (bind_get _ _ _ Hn).
            reflexivity. }
        rewrite Hret at 1. split; [reflexivity|].
        assert (Hcases :
          (is_zero (opt_get v "code") = false ->
           fst (console_tool_response (opt_get msg "kwargs"))
           = [Console (LToolError (js_or (opt_get v "msg") (JStr "Unknown error")))])
          /\ (is_zero (opt_get v "code") = true ->
              truthy (opt_get v "data") = true ->
              fst (console_tool_response (opt_get msg "kwargs"))
              = [Console (LToolSuccess (opt_get v "data"))])).
        { split.
          - intros Hz. now rewrite (console_tool_response_failure _ _ Hk Hp Hn Hz).
          - intros Hz Hd. now rewrite (console_tool_response_success _ _ Hk Hp Hn Hz Hd). }
        destruct v; try discriminate; exact Hcases.
    + rewrite (console_tool_response_raw _ _ Hk Hp). split; reflexivity.
Qed.

Lemma tool_result_translated_witness :
  (colon_free (before_colon "search:call_1") = true
   /\ ("search:call_1" = before_colon "search:call_1"
       \/ exists rest, "search:call_1" = before_colon "search:call_1" +:+ ":" +:+ rest))
  /\ sse_tool_message (tool_message "search:call_1" denied_payload)
     = ([ResWrite (sse_frame (tool_response_event (before_colon "search:call_1")))],
        Normal tt)
  /\ console_tool_message (tool_message "search:call_1" denied_payload)
     = (Console (LToolCalled (before_colon "search:call_1"))
          :: Console (LToolCallId "search:call_1")
          :: fst (console_tool_response
                    (opt_get (tool_message "search:call_1" denied_payload) "kwargs")),
        Normal tt)
  /\ match JSON_parse (opt_get (opt_get (tool_message "search:call_1" denied_payload)
                                  "kwargs") "content") with
     | Throw _ | Normal JNull | Normal JUndefined =>
         fst (console_tool_response
                (opt_get (tool_message "search:call_1" denied_payload) "kwargs"))
         = [Console (LToolRaw (opt_get (opt_get (tool_message "search:call_1"
                                                    denied_payload) "kwargs") "content"))]
     | Normal data =>
         (is_zero (opt_get data "code") = false ->
          fst (console_tool_response
                 (opt_get (tool_message "search:call_1" denied_payload) "kwargs"))
          = [Console (LToolError (js_or (opt_get data "msg") (JStr "Unknown error")))])
         /\ (is_zero (opt_get data "code") = true ->
             truthy (opt_get data "data") = true ->
             fst (console_tool_response
                    (opt_get (tool_message "search:call_1" denied_payload) "kwargs"))
             = [Console (LToolSuccess (opt_get data "data"))])
     end.
Proof.
  apply (tool_result_translated (tool_message "search:call_1" denied_payload)
           "search:call_1"); [reflexivity | reflexivity | discriminate].
Defined.

(** C8: the code breaks the claim in the stream sink.  On a tool result
    whose payload parses and carries the failure code [1] with the message
    [denied], the handler of [POST /api/agent/execute] writes a
    [tool_response] frame with [success: true] and without the message: it
    never reads the payload.  On the same chunk the two sibling
    translators do what the claim says: the console translator of
    [processNewCommentWithAgent] and the one of [runAgent] both parse the
    payload and report the failure with its message. *)
Theorem stream_sink_reports_failure_as_success :
  JSON_parse (JStr denied_payload)
  = Normal (JObj [("code", JNum 1); ("msg", JStr "denied")])
  /\ sse_chunk (tool_chunk "search:call_1" denied_payload) tt
     = ([ResWrite (sse_frame (JObj [("type", JStr "tool_response");
                                    ("tool", JStr "search");
                                    ("success", JBool true)]))], Normal tt)
  /\ console_chunk (tool_chunk "search:call_1" denied_payload) JNull
     = ([Console (LToolCalled "search"); Console (LToolCallId "search:call_1");
         Console (LToolError (JStr "denied"))], Normal JNull)
  /\ example_chunk (tool_chunk "search:call_1" denied_payload) tt
     = ([Console (LToolResponseFrom "search"); Console (LToolError (JStr "denied"))],
        Normal tt).
Proof. repeat split; vm_compute; reflexivity. Qed.

(** The console translator on the same result, and on a success that
    carries no data. *)
Example console_reports_denied_tool :
  console_chunk (tool_chunk "search:call_1" denied_payload) JNull
  = ([Console (LToolCalled "search"); Console (LToolCallId "search:call_1");
      Console (LToolError (JStr "denied"))], Normal JNull).
Proof. vm_compute. reflexivity. Qed.

Example console_reports_bare_success_as_error :
  console_chunk (tool_chunk "search:call_1" bare_success_payload) JNull
  = ([Console (LToolCalled "search"); Console (LToolCallId "search:call_1");
      Console (LToolError (JStr "Unknown error"))], Normal JNull)
  /\ example_chunk (tool_chunk "search:call_1" bare_success_payload) tt
     = ([Console (LToolResponseFrom "search"); Console LToolOk], Normal tt).
Proof. split; vm_compute; reflexivity. Qed.

(** A payload that is not JSON is printed as it came, and a success that
    carries data is printed with its data. *)
Example console_forwards_unparsable_payload :
  console_chunk (tool_chunk "search:call_1" "<html>Bad Gateway</html>") JNull
  = ([Console (LToolCalled "search"); Console (LToolCallId "search:call_1");
      Console (LToolRaw (JStr "<html>Bad Gateway</html>"))], Normal JNull).
Proof. vm_compute. reflexivity. Qed.

Example console_reports_success_with_data :
  console_chunk
    (tool_chunk "search:call_1"
       ("{" +:+ json_key "code" +:+ "0," +:+ json_key "data" +:+ "[7]}")) JNull
  = ([Console (LToolCalled "search"); Console (LToolCallId "search:call_1");
      Console (LToolSuccess (JArr [JNum 7]))], Normal JNull).
Proof. vm_compute. reflexivity. Qed.

(** * The stream sink *)


(** A stream of two chunks that ends, and the same stream breaking after
    its first chunk. *)
Example stream_sink_on_a_finished_stream :
  stream_to_response
    (fun _ => Normal (mkStream [agent_chunk (JObj [("content", JStr "hello")]);
                                tool_chunk "search:call_1" denied_payload] None))
    (JStr "go")
  = ([ResWrite (sse_frame (agent_event (JStr "hello")));
      ResWrite (sse_frame (tool_response_event "search"));
      ResWrite done_frame; ResEnd], Normal tt).
Proof. vm_compute. reflexivity. Qed.

Example stream_sink_on_a_broken_stream :
  stream_to_response
    (fun _ => Normal (mkStream [agent_chunk (JObj [("content", JStr "hello")])]
                        (Some (mkError "Error" "socket hang up"))))
    (JStr "go")
  = ([ResWrite (sse_frame (agent_event (JStr "hello")));
      Console (LStreamError "socket hang up");
      ResWrite (sse_frame (error_event "socket hang up")); ResEnd], Normal tt).
Proof. vm_compute. reflexivity. Qed.

(** * The monitor registry *)

(** C4, as amended: in every state the event loop can reach, a document
    has at most one live interval timer, the one the registry records for
    it; but its ticks are not serialized: whenever that timer fires a new
    tick begins, whatever ticks of the document are still between their
    fetch and their snapshot update, and the stored snapshot is left as it
    is until a fetch settles. *)
Theorem one_timer_per_document_ticks_unserialized `{Builtins} actions m :
  run_schedule actions initial = Some m ->
  (forall t1 t2 docId,
      intervals m !! t1 = Some docId -> intervals m !! t2 = Some docId -> t1 = t2)
  /\ (forall timer docId,
        intervals m !! timer = Some docId ->
        activeTimers m !! docId = Some timer
        /\ exists m',
            step (TimerFires timer) m = Some m'
            /\ ticks_in_flight docId m' = S (ticks_in_flight docId m)
            /\ commentsCache m' = commentsCache m).
Proof.
  intros Hrun.
  destruct (run_schedule_consistent _ _ _ initial_consistent Hrun) as [I1 I2].
  split.
  - intros t1 t2 d H1 H2. apply I1 in H1, H2. congruence.
  - intros t d Hl. split; [now apply I1|].
    simpl. rewrite Hl. eexists. split; [reflexivity|]. split; [|reflexivity].
    unfold ticks_in_flight at 1. simpl. apply ticks_in_flight_snoc.
Qed.

Lemma one_timer_per_document_ticks_unserialized_witness :
  (forall t1 t2 docId,
      intervals restarted !! t1 = Some docId -> intervals restarted !! t2 = Some docId ->
      t1 = t2)
  /\ (forall timer docId,
        intervals restarted !! timer = Some docId ->
        activeTimers restarted !! docId = Some timer
        /\ exists m',
            step (TimerFires timer) restarted = Some m'
            /\ ticks_in_flight docId m' = S (ticks_in_flight docId restarted)
            /\ commentsCache m' = commentsCache restarted).
Proof.
  apply (one_timer_per_document_ticks_unserialized restart_schedule restarted).
  vm_compute. reflexivity.
Defined.

(** C4 as stated fails: the timer of a document fires while an earlier tick
    of the same document has not settled, so two ticks are in flight; and
    when the earlier tick settles last, its older snapshot replaces the
    newer one and the reply [r2] is handed to the agent a second time. *)
Lemma ticks_of_one_document_overlap :
  option_map (ticks_in_flight "doc")
    (run_schedule [StartMonitor "doc"; TimerFires 0; TimerFires 0] initial) = Some 2
  /\ option_map (fun m => agent_calls (history m)) (run_schedule racing_schedule initial)
     = Some 2.
Proof. split; vm_compute; reflexivity. Qed.

(** * The end-to-end scenario *)

(** The first poll reports nothing; the second hands exactly the reply [r4]
    to the agent, once, and leaves the four replies stored although the
    agent fails. *)
Example second_poll_reports_the_fourth_reply :
  option_map (fun m => (agent_calls (history m), commentsCache m !! "D"))
    (run_schedule scenario initial)
  = Some (1, Some (document_snapshot [["r1"; "r2"]; ["r3"; "r4"]]))
  /\ option_map (fun m => filter (fun e => dispatch_event e = true) (history m))
       (run_schedule scenario initial)
     = Some [Console (LNewCount 1);
             Console (LNewComment 1 (JStr "未知用户") (JStr "未知时间") (JStr "无法获取评论内容"));
             Console (LExecuting (JStr "无法获取评论内容") "D");
             AgentCall (agent_input "D" (JStr "无法获取评论内容"));
             Console (LAgentFailed "model unavailable")].
Proof. split; vm_compute; reflexivity. Qed.

(** * Further properties of the program *)

(** ** The diff engine *)

(** X1: polling a document twice without a change reports nothing: for a
    well-formed snapshot whose reply identifiers are primitive values, the
    diff of the snapshot against itself is empty. *)
Theorem unchanged_snapshot_reports_nothing snapshot :
  well_formed snapshot = true -> primitive_ids snapshot = true ->
  snd (detectNewComments snapshot snapshot) = Normal [].
Proof.
  intros Hwf Hp. destruct snapshot as [| | | | |comments|]; try discriminate.
  destruct comments as [|c rest]; [reflexivity|].
  rewrite (detect_well_formed _ _ Hwf Hwf) by discriminate. simpl snd. f_equal.
  rewrite diff_fresh, filter_none; [reflexivity|].
  intros [c' r] Hin. unfold fresh. simpl.
  destruct (has_id r) eqn:Hid; simpl; [|discriminate].
  rewrite (own_reply_known _ _ _ Hp Hin Hid). discriminate.
Qed.

Lemma unchanged_snapshot_reports_nothing_witness :
  snd (detectNewComments sample_snapshot_2 sample_snapshot_2) = Normal [].
Proof.
  apply (unchanged_snapshot_reports_nothing sample_snapshot_2); reflexivity.
Defined.

(** X2: when exactly one reply of the fresh snapshot has an identifier that
    the non-empty stored snapshot does not hold, exactly that reply is
    reported, under its own parent comment, wherever it sits. *)
Theorem single_new_reply_is_reported old new before parent reply after :
  well_formed old = true -> well_formed new = true -> old <> JArr [] ->
  snapshot_replies new = before ++ (parent, reply) :: after ->
  Forall (fun cr => fresh old cr = false) before ->
  Forall (fun cr => fresh old cr = false) after ->
  fresh old (parent, reply) = true ->
  detectNewComments old new = ([], Normal [tagged (parent, reply)]).
Proof.
  intros Hold Hnew Hne Hsplit Hb Ha Hf.
  rewrite (detect_well_formed _ _ Hold Hnew Hne). do 2 f_equal.
  rewrite diff_fresh, Hsplit, filter_app, filter_cons, decide_True by exact Hf.
  rewrite !filter_none; [reflexivity| |].
  - intros x Hx. rewrite Forall_forall in Ha. rewrite (Ha x Hx). discriminate.
  - intros x Hx. rewrite Forall_forall in Hb. rewrite (Hb x Hx). discriminate.
Qed.

Lemma single_new_reply_is_reported_witness :
  detectNewComments sample_snapshot_1 sample_snapshot_2
  = ([], Normal [tagged (sample_comment "c1" [sample_reply "r1" "first";
                                               sample_reply "r2" "second"],
                         sample_reply "r2" "second")]).
Proof.
  apply (single_new_reply_is_reported sample_snapshot_1 sample_snapshot_2
           [(sample_comment "c1" [sample_reply "r1" "first"; sample_reply "r2" "second"],
             sample_reply "r1" "first")]
           (sample_comment "c1" [sample_reply "r1" "first"; sample_reply "r2" "second"])
           (sample_reply "r2" "second") []);
    try reflexivity; try discriminate; repeat constructor.
Defined.

(** X3: every comment the diff returns is a copy of a comment of the fresh
    snapshot that carries exactly one reply, the new one: all other fields of
    the comment and all other fields of its reply list are kept as they
    were. *)
Theorem reported_comment_keeps_context old new o newComments c :
  detectNewComments old new = (o, Normal newComments) ->
  c ∈ newComments ->
  exists parent reply,
    (parent, reply) ∈ snapshot_replies new
    /\ c = tagged (parent, reply)
    /\ comment_replies c = [reply]
    /\ (forall k, k <> "reply_list" -> opt_get c k = opt_get parent k)
    /\ (forall k, k <> "replies" ->
          opt_get (opt_get c "reply_list") k = opt_get (opt_get parent "reply_list") k).
Proof.
  intros Hd Hc.
  apply detect_returns in Hd as [(count & _ & _ & ->)|(_ & _ & _ & _ & _ & ->)].
  { now apply elem_of_nil in Hc. }
  unfold diff in Hc. apply list_elem_of_fmap in Hc as ([parent reply] & -> & Hin).
  apply list_elem_of_filter in Hin as [_ Hin].
  exists parent, reply. split; [exact Hin|]. split; [reflexivity|].
  destruct (snapshot_replies_parent _ _ _ Hin) as (props & props' & replies & -> & Hrl & _).
  unfold tagged, single_reply_comment, comment_replies, opt_get. simpl. rewrite Hrl. simpl.
  rewrite !lookup_set_prop. simpl. rewrite lookup_set_prop. repeat split.
  - intros k Hk. apply lookup_set_prop_ne. congruence.
  - intros k Hk. apply lookup_set_prop_ne. congruence.
Qed.

Lemma reported_comment_keeps_context_witness :
  exists parent reply,
    (parent, reply) ∈ snapshot_replies sample_snapshot_2
    /\ tagged (sample_comment "c1" [sample_reply "r1" "first"; sample_reply "r2" "second"],
               sample_reply "r2" "second")
       = tagged (parent, reply)
    /\ comment_replies
         (tagged (sample_comment "c1" [sample_reply "r1" "first"; sample_reply "r2" "second"],
                  sample_reply "r2" "second")) = [reply]
    /\ (forall k, k <> "reply_list" ->
          opt_get (tagged (sample_comment "c1" [sample_reply "r1" "first";
                                                sample_reply "r2" "second"],
                           sample_reply "r2" "second")) k = opt_get parent k)
    /\ (forall k, k <> "replies" ->
          opt_get (opt_get (tagged (sample_comment "c1" [sample_reply "r1" "first";
                                                         sample_reply "r2" "second"],
                                    sample_reply "r2" "second")) "reply_list") k
          = opt_get (opt_get parent "reply_list") k).
Proof.
  apply (reported_comment_keeps_context sample_snapshot_1 sample_snapshot_2 []
           [tagged (sample_comment "c1" [sample_reply "r1" "first";
                                         sample_reply "r2" "second"],
                    sample_reply "r2" "second")]).
  - reflexivity.
  - apply list_elem_of_here.
Defined.

(** ** The polling tick *)

(** X4: when the agent exists, a tick on a non-empty stored snapshot starts
    it exactly once for every new reply, in the order the replies appear in
    the fetched snapshot, each time with the instruction built from the
    document identifier and the text of that new reply (not of the first
    reply of its thread). *)
Theorem one_agent_call_per_new_reply `{Builtins}
    env agent docId (cache : gmap string JSValue) result current :
  reactAgent env = Some agent ->
  fetch_comments env docId = Normal (Some (result, current)) ->
  well_formed (stored_snapshot cache docId) = true ->
  stored_snapshot cache docId <> JArr [] ->
  well_formed current = true ->
  agent_inputs (fst (snd (invokeGetCommentsTools env docId cache)))
  = map (fun cr => agent_input docId (reply_text (snd cr)))
      (filter (fun cr => fresh (stored_snapshot cache docId) cr = true)
         (snapshot_replies current)).
Proof.
  intros Ha Hfetch Hold Hne Hnew.
  rewrite (tick_succeeded _ _ _ _ _ _ _ Hfetch (detect_well_formed _ _ Hold Hnew Hne)).
  cbn [fst snd app]. change (agent_inputs (CacheSet ?d ?s :: ?o)) with (agent_inputs o).
  rewrite diff_fresh. unfold report_output.
  destruct (0 <? length _)%nat eqn:Hlen.
  - change (agent_inputs (Console ?l :: ?o)) with (agent_inputs o).
    rewrite agent_inputs_app, (dispatch_output_calls _ _ _ _ _ Ha), app_nil_r, map_map.
    apply map_ext. intros [parent reply]. simpl. now rewrite comment_text_tagged.
  - apply Nat.ltb_ge in Hlen. rewrite length_map in Hlen.
    destruct (filter _ (snapshot_replies current)); [reflexivity|simpl in Hlen; lia].
Qed.

Lemma one_agent_call_per_new_reply_witness :
  agent_inputs (fst (snd (invokeGetCommentsTools sample_poll "doc" sample_cache)))
  = map (fun cr => agent_input "doc" (reply_text (snd cr)))
      (filter (fun cr => fresh (stored_snapshot sample_cache "doc") cr = true)
         (snapshot_replies (response_snapshot ["r1"; "r2"]))).
Proof.
  apply (one_agent_call_per_new_reply sample_poll failing_agent "doc" sample_cache
           (JStr (response_text ["r1"; "r2"])) (response_snapshot ["r1"; "r2"]));
    try reflexivity.
  vm_compute. discriminate.
Defined.

(** X5: when the agent was never initialised, a successful tick still stores
    the fetched snapshot: every new reply is printed with the notice that it
    is skipped, the agent is not started, and the tick returns the raw
    result. *)
Theorem new_replies_without_agent_are_consumed `{Builtins}
    env docId (cache : gmap string JSValue) result current o newComments :
  reactAgent env = None ->
  fetch_comments env docId = Normal (Some (result, current)) ->
  detectNewComments (stored_snapshot cache docId) current = (o, Normal newComments) ->
  invokeGetCommentsTools env docId cache
  = (<[docId := current]> cache,
     (o ++ CacheSet docId current
        :: match newComments with
           | [] => []
           | _ => Console (LNewCount (length newComments))
                    :: unhandled_lines 0 newComments ++ [Console LSeparator]
           end, Normal result))
  /\ agent_inputs (fst (snd (invokeGetCommentsTools env docId cache))) = [].
Proof.
  intros Ha Hfetch Hd.
  assert (E : report_output env docId newComments
              = match newComments with
                | [] => []
                | _ => Console (LNewCount (length newComments))
                         :: unhandled_lines 0 newComments ++ [Console LSeparator]
                end).
  { unfold report_output. destruct newComments as [|c rest]; [reflexivity|].
    cbn [length Nat.ltb Nat.leb]. now rewrite (dispatch_output_unhandled _ _ _ _ Ha). }
  rewrite (tick_succeeded _ _ _ _ _ _ _ Hfetch Hd), E. split; [reflexivity|].
  cbn [fst snd]. rewrite agent_inputs_app.
  rewrite (agent_inputs_none o).
  - change (agent_inputs (CacheSet ?d ?s :: ?l)) with (agent_inputs l).
    destruct newComments as [|c rest]; [reflexivity|].
    change (agent_inputs (Console ?l :: ?l')) with (agent_inputs l').
    rewrite agent_inputs_app, app_nil_r. apply agent_inputs_none.
    unfold unhandled_lines. apply Forall_concat, Forall_forall.
    intros l Hl. apply list_elem_of_lookup in Hl as [i Hl].
    rewrite list_lookup_imap in Hl. destruct ((c :: rest) !! i); [|discriminate].
    injection Hl as <-. repeat constructor.
  - apply detect_output_no_dispatch in Hd. eapply Forall_impl; [exact Hd|].
    intros [] He; simpl in *; try exact I. discriminate.
Qed.

Lemma new_replies_without_agent_are_consumed_witness :
  invokeGetCommentsTools (agentless_env (JStr (response_text ["r1"; "r2"]))) "doc" sample_cache
  = (<["doc" := response_snapshot ["r1"; "r2"]]> sample_cache,
     ([] ++ CacheSet "doc" (response_snapshot ["r1"; "r2"])
         :: match diff (response_snapshot ["r1"]) (response_snapshot ["r1"; "r2"]) with
            | [] => []
            | _ => Console (LNewCount (length (diff (response_snapshot ["r1"])
                                                 (response_snapshot ["r1"; "r2"]))))
                     :: unhandled_lines 0 (diff (response_snapshot ["r1"])
                                             (response_snapshot ["r1"; "r2"]))
                        ++ [Console LSeparator]
            end, Normal (JStr (response_text ["r1"; "r2"]))))
  /\ agent_inputs
       (fst (snd (invokeGetCommentsTools (agentless_env (JStr (response_text ["r1"; "r2"])))
                    "doc" sample_cache))) = [].
Proof.
  apply (new_replies_without_agent_are_consumed
           (agentless_env (JStr (response_text ["r1"; "r2"]))) "doc" sample_cache
           (JStr (response_text ["r1"; "r2"])) (response_snapshot ["r1"; "r2"]) []
           (diff (response_snapshot ["r1"]) (response_snapshot ["r1"; "r2"])));
    vm_compute; reflexivity.
Defined.

(** X6: a response whose [items] is present but is not a list poisons the
    monitor: the first poll stores it as the baseline, and from then on
    every tick, whatever it fetches, fails in the diff, reports the failure,
    handles no reply and leaves the stored value in place. *)
Theorem misshapen_items_stall_the_monitor `{Builtins}
    env docId (cache : gmap string JSValue) result items :
  cache !! docId = None ->
  fetch_comments env docId = Normal (Some (result, items)) ->
  is_array items = false ->
  is_zero (opt_get items "length") = false ->
  invokeGetCommentsTools env docId cache
  = (<[docId := items]> cache,
     ([Console (LBaseline (opt_get items "length")); CacheSet docId items], Normal result))
  /\ (forall env' result' current,
        fetch_comments env' docId = Normal (Some (result', current)) ->
        invokeGetCommentsTools env' docId (<[docId := items]> cache)
        = (<[docId := items]> cache,
           (failure_output (TypeError "forEach is not a function"), Normal JNull))).
Proof.
  intros Habsent Hfetch Harr Hlen.
  pose proof (fetch_current_truthy _ _ _ _ Hfetch) as Ht.
  pose proof (truthy_not_nullish _ Ht) as Hn.
  split.
  - erewrite tick_succeeded;
      [|exact Hfetch|rewrite (stored_absent _ _ Habsent); now apply detect_baseline].
    reflexivity.
  - intros env' result' current Hfetch'.
    rewrite (tick_detect_failed _ _ _ _ _ [] (TypeError "forEach is not a function") Hfetch');
      [reflexivity|].
    rewrite (stored_after_update _ _ _ Ht). unfold detectNewComments.
    rewrite (get_opt_get _ _ Hn). cbn [lift bind]. rewrite Hlen.
    destruct items; try discriminate; reflexivity.
Qed.

Lemma misshapen_items_stall_the_monitor_witness :
  invokeGetCommentsTools (sample_env misshapen_response) "doc" ∅
  = (<["doc" := JObj [("total", JNum 0)]]> ∅,
     ([Console (LBaseline (opt_get (JObj [("total", JNum 0)]) "length"));
       CacheSet "doc" (JObj [("total", JNum 0)])], Normal misshapen_response))
  /\ (forall env' result' current,
        fetch_comments env' "doc" = Normal (Some (result', current)) ->
        invokeGetCommentsTools env' "doc" (<["doc" := JObj [("total", JNum 0)]]> ∅)
        = (<["doc" := JObj [("total", JNum 0)]]> ∅,
           (failure_output (TypeError "forEach is not a function"), Normal JNull))).
Proof.
  apply (misshapen_items_stall_the_monitor (sample_env misshapen_response) "doc" ∅
           misshapen_response (JObj [("total", JNum 0)])); reflexivity.
Defined.

(** ** The monitor registry *)

(** X7: in every state the event loop can reach, the registry lists exactly
    the documents whose interval timer is live: a document is registered
    with a timer if and only if that timer is live and polls that
    document. *)
Theorem registry_lists_live_timers `{Builtins} actions m :
  run_schedule actions initial = Some m -> registry_exact m.
Proof.
  intros Hrun. destruct (reachable_exact _ _ Hrun) as [[I1 _] L].
  intros d t. split; [apply L|apply I1].
Qed.

Lemma registry_lists_live_timers_witness : registry_exact two_documents.
Proof.
  apply (registry_lists_live_timers
           [StartMonitor "doc"; StartMonitor "other"; TimerFires 0; FetchSettles 0 poll_one]).
  vm_compute. reflexivity.
Defined.

(** X8: stopping all monitors of a reachable registry answers with the
    number of registered documents and leaves nothing behind: no document
    registered, no snapshot stored, and no timer that can still fire. *)
Theorem stop_all_leaves_no_timer `{Builtins} actions now m :
  run_schedule actions initial = Some m ->
  snd (delete_monitors now m)
  = [SendJson 200 (JObj [("message", JStr "所有监控任务已停止");
                         ("stoppedCount", JNum (Z.of_nat (size (activeTimers m))));
                         ("timestamp", JStr now)])]
  /\ activeTimers (fst (delete_monitors now m)) = ∅
  /\ commentsCache (fst (delete_monitors now m)) = ∅
  /\ intervals (fst (delete_monitors now m)) = ∅
  /\ forall timer, step (TimerFires timer) (fst (delete_monitors now m)) = None.
Proof.
  intros Hrun. destruct (reachable_exact _ _ Hrun) as [Hc _].
  unfold delete_monitors. cbn [fst snd step default].
  rewrite (clear_all_consistent _ Hc). repeat split.
Qed.

Lemma stop_all_leaves_no_timer_witness :
  snd (delete_monitors "now" two_documents)
  = [SendJson 200 (JObj [("message", JStr "所有监控任务已停止");
                         ("stoppedCount",
                          JNum (Z.of_nat (size (activeTimers two_documents))));
                         ("timestamp", JStr "now")])]
  /\ activeTimers (fst (delete_monitors "now" two_documents)) = ∅
  /\ commentsCache (fst (delete_monitors "now" two_documents)) = ∅
  /\ intervals (fst (delete_monitors "now" two_documents)) = ∅
  /\ forall timer, step (TimerFires timer) (fst (delete_monitors "now" two_documents)) = None.
Proof.
  apply (stop_all_leaves_no_timer
           [StartMonitor "doc"; StartMonitor "other"; TimerFires 0; FetchSettles 0 poll_one]).
  vm_compute. reflexivity.
Defined.

(** X9: stopping the monitor of a registered document in a reachable
    registry answers 200, unregisters the document, drops its snapshot and
    silences its timer, and leaves every other document registered, with
    its snapshot and its timer live. *)
Theorem stop_one_monitor_spares_the_others `{Builtins} actions docId timer now m :
  run_schedule actions initial = Some m ->
  activeTimers m !! docId = Some timer ->
  snd (delete_monitor docId now m)
  = [SendJson 200 (JObj [("message", JStr "监控任务停止成功");
                         ("documentId", JStr docId); ("timestamp", JStr now)])]
  /\ activeTimers (fst (delete_monitor docId now m)) !! docId = None
  /\ commentsCache (fst (delete_monitor docId now m)) !! docId = None
  /\ step (TimerFires timer) (fst (delete_monitor docId now m)) = None
  /\ (forall other, other <> docId ->
        activeTimers (fst (delete_monitor docId now m)) !! other = activeTimers m !! other
        /\ commentsCache (fst (delete_monitor docId now m)) !! other
           = commentsCache m !! other
        /\ forall timer', activeTimers m !! other = Some timer' ->
             intervals (fst (delete_monitor docId now m)) !! timer' = Some other).
Proof.
  intros Hrun Hd. destruct (reachable_exact _ _ Hrun) as [[I1 I2] L].
  unfold delete_monitor. rewrite Hd. cbn [fst snd step default]. rewrite Hd.
  cbn [default from_option id fst activeTimers commentsCache intervals].
  split; [reflexivity|]. split; [apply lookup_delete_eq|].
  split; [apply lookup_delete_eq|]. split.
  - cbn. now rewrite lookup_delete_eq.
  - intros other Hne. split; [now apply lookup_delete_ne|].
    split; [now apply lookup_delete_ne|].
    intros t' Ho. rewrite lookup_delete_ne; [now apply L|].
    intros <-. apply L in Hd. apply L in Ho. congruence.
Qed.

Lemma stop_one_monitor_spares_the_others_witness :
  snd (delete_monitor "doc" "now" two_documents)
  = [SendJson 200 (JObj [("message", JStr "监控任务停止成功");
                         ("documentId", JStr "doc"); ("timestamp", JStr "now")])]
  /\ activeTimers (fst (delete_monitor "doc" "now" two_documents)) !! "doc" = None
  /\ commentsCache (fst (delete_monitor "doc" "now" two_documents)) !! "doc" = None
  /\ step (TimerFires 0) (fst (delete_monitor "doc" "now" two_documents)) = None
  /\ (forall other, other <> "doc" ->
        activeTimers (fst (delete_monitor "doc" "now" two_documents)) !! other
        = activeTimers two_documents !! other
        /\ commentsCache (fst (delete_monitor "doc" "now" two_documents)) !! other
           = commentsCache two_documents !! other
        /\ forall timer', activeTimers two_documents !! other = Some timer' ->
             intervals (fst (delete_monitor "doc" "now" two_documents)) !! timer'
             = Some other).
Proof.
  apply (stop_one_monitor_spares_the_others
           [StartMonitor "doc"; StartMonitor "other"; TimerFires 0; FetchSettles 0 poll_one]
           "doc" 0 "now" two_documents); vm_compute; reflexivity.
Defined.

(** X10: starting the monitor of a document that is already registered, in
    a reachable registry, silences the old timer, registers a fresh one and
    drops the stored snapshot, so that the next tick that fetches
    successfully reports no reply and only sets the baseline. *)
Theorem restart_clears_baseline `{Builtins} actions docId timer m :
  run_schedule actions initial = Some m ->
  activeTimers m !! docId = Some timer ->
  exists m',
    step (StartMonitor docId) m = Some m'
    /\ commentsCache m' !! docId = None
    /\ step (TimerFires timer) m' = None
    /\ activeTimers m' !! docId = Some (next_timer m)
    /\ intervals m' !! next_timer m = Some docId
    /\ (forall env result current,
          fetch_comments env docId = Normal (Some (result, current)) ->
          invokeGetCommentsTools env docId (commentsCache m')
          = (<[docId := current]> (commentsCache m'),
             ([Console (LBaseline (opt_get current "length")); CacheSet docId current],
              Normal result))).
Proof.
  intros Hrun Hd. destruct (reachable_exact _ _ Hrun) as [[I1 I2] L].
  eexists. split; [reflexivity|]. cbn [step]. rewrite Hd.
  cbn [fst snd activeTimers commentsCache intervals].
  pose proof (I2 _ _ Hd) as Hlt.
  split; [apply lookup_delete_eq|]. split.
  - cbn. rewrite lookup_insert_ne by lia. now rewrite lookup_delete_eq.
  - split; [apply lookup_insert_eq|]. split; [apply lookup_insert_eq|].
    intros env result current Hfetch.
    assert (Hn : nullish current = false)
      by (apply truthy_not_nullish; eapply fetch_current_truthy; eauto).
    erewrite tick_succeeded;
      [|exact Hfetch
       |rewrite stored_absent by apply lookup_delete_eq; now apply detect_baseline].
    reflexivity.
Qed.

Lemma restart_clears_baseline_witness :
  exists m',
    step (StartMonitor "doc") two_documents = Some m'
    /\ commentsCache m' !! "doc" = None
    /\ step (TimerFires 0) m' = None
    /\ activeTimers m' !! "doc" = Some (next_timer two_documents)
    /\ intervals m' !! next_timer two_documents = Some "doc"
    /\ (forall env result current,
          fetch_comments env "doc" = Normal (Some (result, current)) ->
          invokeGetCommentsTools env "doc" (commentsCache m')
          = (<["doc" := current]> (commentsCache m'),
             ([Console (LBaseline (opt_get current "length")); CacheSet "doc" current],
              Normal result))).
Proof.
  apply (restart_clears_baseline
           [StartMonitor "doc"; StartMonitor "other"; TimerFires 0; FetchSettles 0 poll_one]
           "doc" 0 two_documents); vm_compute; reflexivity.
Defined.

(** X11: stopping a monitor does not cancel a tick of the document that is
    in flight: when its fetch settles after the stop, the snapshot is stored
    again although the document is no longer registered, and starting the
    monitor afterwards does not drop it. *)
Theorem tick_in_flight_outlives_stop `{Builtins} docId timer index env result current m :
  activeTimers m !! docId = Some timer ->
  in_flight m !! index = Some docId ->
  fetch_comments env docId = Normal (Some (result, current)) ->
  exists stopped restarted,
    run_schedule [StopMonitor docId; FetchSettles index env] m = Some stopped
    /\ activeTimers stopped !! docId = None
    /\ commentsCache stopped !! docId = Some current
    /\ step (StartMonitor docId) stopped = Some restarted
    /\ commentsCache restarted !! docId = Some current.
Proof.
  intros Hd Hin Hfetch.
  assert (Hn : nullish current = false)
    by (apply truthy_not_nullish; eapply fetch_current_truthy; eauto).
  cbn [run_schedule step]. rewrite Hd. cbn [step in_flight commentsCache]. rewrite Hin.
  erewrite tick_succeeded;
    [|exact Hfetch|rewrite stored_absent by apply lookup_delete_eq; now apply detect_baseline].
  do 2 eexists. split; [reflexivity|]. cbn [activeTimers commentsCache fst].
  split; [apply lookup_delete_eq|]. split; [apply lookup_insert_eq|].
  cbn [step activeTimers]. rewrite lookup_delete_eq. split; [reflexivity|].
  cbn. apply lookup_insert_eq.
Qed.

Lemma tick_in_flight_outlives_stop_witness :
  exists stopped restarted,
    run_schedule [StopMonitor "doc"; FetchSettles 0 poll_one] polling = Some stopped
    /\ activeTimers stopped !! "doc" = None
    /\ commentsCache stopped !! "doc" = Some (response_snapshot ["r1"])
    /\ step (StartMonitor "doc") stopped = Some restarted
    /\ commentsCache restarted !! "doc" = Some (response_snapshot ["r1"]).
Proof.
  apply (tick_in_flight_outlives_stop "doc" 0 0 poll_one (JStr (response_text ["r1"]))
           (response_snapshot ["r1"]) polling); vm_compute; reflexivity.
Defined.

(** ** Document links *)

(** X12: whatever link [parseFeishuDocId] accepts, the identifier it returns
    is a non-empty run of letters and digits that follows a [/docx/],
    [/docs/] or [/wiki/] segment of the link's path and ends where the run
    ends; the kind is that segment's name, and [fullId] equals [id]. *)
Theorem parsed_link_names_a_document `{Platform} url info :
  snd (parseFeishuDocId url) = Some info ->
  fullId info = doc_id info
  /\ In (doc_type info) doc_kinds
  /\ doc_id info <> ""
  /\ all_alnum (doc_id info) = true
  /\ exists before rest,
       URL_pathname url
       = Normal (before +:+ "/" +:+ doc_type info +:+ "/" +:+ doc_id info +:+ rest)
       /\ stops rest = true.
Proof.
  unfold parseFeishuDocId. destruct (URL_pathname url) as [path|e]; [|discriminate].
  destruct (search path) as [[kind id]|] eqn:Hs; [|discriminate].
  intros [= <-]. simpl.
  apply search_spec in Hs as (before & here & -> & Hm).
  apply match_any_spec in Hm as [Hk Hm]. simpl in *.
  apply match_kind_spec in Hm as (_ & Hne & Hall & rest & -> & Hstop). simpl in *.
  repeat split; auto. now exists before, rest.
Qed.

Lemma parsed_link_names_a_document_witness :
  fullId (mkDocInfo "wiki" "wikcn42" "wikcn42") = doc_id (mkDocInfo "wiki" "wikcn42" "wikcn42")
  /\ In (doc_type (mkDocInfo "wiki" "wikcn42" "wikcn42")) doc_kinds
  /\ doc_id (mkDocInfo "wiki" "wikcn42" "wikcn42") <> ""
  /\ all_alnum (doc_id (mkDocInfo "wiki" "wikcn42" "wikcn42")) = true
  /\ exists before rest,
       URL_pathname "https://example.feishu.cn/space/wiki/wikcn42"
       = Normal (before +:+ "/" +:+ doc_type (mkDocInfo "wiki" "wikcn42" "wikcn42") +:+ "/"
                 +:+ doc_id (mkDocInfo "wiki" "wikcn42" "wikcn42") +:+ rest)
       /\ stops rest = true.
Proof.
  apply (parsed_link_names_a_document
           "https://example.feishu.cn/space/wiki/wikcn42"
           (mkDocInfo "wiki" "wikcn42" "wikcn42")).
  reflexivity.
Defined.

(** X13: a link whose path starts with [/docx/], [/docs/] or [/wiki/]
    followed by an identifier of letters and digits is accepted, with that
    kind and exactly that identifier, and nothing is printed. *)
Theorem document_link_is_parsed `{Platform} url kind id rest :
  In kind doc_kinds -> id <> "" -> all_alnum id = true -> stops rest = true ->
  URL_pathname url = Normal ("/" +:+ kind +:+ "/" +:+ id +:+ rest) ->
  parseFeishuDocId url = ([], Some (mkDocInfo kind id id)).
Proof.
  intros Hk Hne Hid Hstop Hpath. unfold parseFeishuDocId.
  now rewrite Hpath, (search_head _ _ _ Hk Hne Hid Hstop).
Qed.

Lemma document_link_is_parsed_witness :
  parseFeishuDocId "https://example.feishu.cn/docx/doxcnAbC123/edit"
  = ([], Some (mkDocInfo "docx" "doxcnAbC123" "doxcnAbC123")).
Proof.
  apply (document_link_is_parsed "https://example.feishu.cn/docx/doxcnAbC123/edit"
           "docx" "doxcnAbC123" "/edit"); try reflexivity.
  - left. reflexivity.
  - discriminate.
Defined.

(** X14: a request with a link always ends in a redirect to that very link,
    after console lines only.  When the link is not a document link the
    registry is left as it is; when it is, the document is registered with a
    fresh, live timer and every other document keeps its registration and
    its snapshot. *)
Theorem link_request_redirects `{Builtins} `{Platform} url now m :
  url <> "" ->
  (exists logs,
      snd (get_root url now m) = logs ++ [SendRedirect 302 url] /\ Forall is_log logs)
  /\ match snd (parseFeishuDocId url) with
     | None => fst (get_root url now m) = m
     | Some info =>
         activeTimers (fst (get_root url now m)) !! fullId info = Some (next_timer m)
         /\ intervals (fst (get_root url now m)) !! next_timer m = Some (fullId info)
         /\ forall other, other <> fullId info ->
              activeTimers (fst (get_root url now m)) !! other = activeTimers m !! other
              /\ commentsCache (fst (get_root url now m)) !! other
                 = commentsCache m !! other
     end.
Proof.
  intros Hne. unfold get_root.
  destruct (url =? "") eqn:E; [apply String.eqb_eq in E; contradiction|].
  cbn [fst snd]. split.
  - eexists. split.
    + apply last_effect_apart.
    + constructor; [exact I|]. apply Forall_app. split.
      * unfold parseFeishuDocId. destruct (URL_pathname url) as [path|e].
        -- destruct (search path) as [[kind id]|]; constructor.
        -- repeat constructor.
      * apply Forall_app. split; [|repeat constructor].
        destruct (snd (parseFeishuDocId url)); repeat constructor.
  - destruct (snd (parseFeishuDocId url)) as [info|]; [|reflexivity].
    cbn [fst step default from_option id activeTimers intervals commentsCache].
    split; [apply lookup_insert_eq|]. split; [apply lookup_insert_eq|].
    intros other Ho. split; [now apply lookup_insert_ne|].
    destruct (activeTimers m !! fullId info); cbn [snd]; [|reflexivity].
    now apply lookup_delete_ne.
Qed.

Lemma link_request_redirects_witness :
  (exists logs,
      snd (get_root "https://example.feishu.cn/docx/doxcnAbC123" "now" two_documents)
      = logs ++ [SendRedirect 302 "https://example.feishu.cn/docx/doxcnAbC123"]
      /\ Forall is_log logs)
  /\ match snd (parseFeishuDocId "https://example.feishu.cn/docx/doxcnAbC123") with
     | None =>
         fst (get_root "https://example.feishu.cn/docx/doxcnAbC123" "now" two_documents)
         = two_documents
     | Some info =>
         activeTimers
           (fst (get_root "https://example.feishu.cn/docx/doxcnAbC123" "now" two_documents))
         !! fullId info = Some (next_timer two_documents)
         /\ intervals
              (fst (get_root "https://example.feishu.cn/docx/doxcnAbC123" "now"
                      two_documents))
            !! next_timer two_documents = Some (fullId info)
         /\ forall other, other <> fullId info ->
              activeTimers
                (fst (get_root "https://example.feishu.cn/docx/doxcnAbC123" "now"
                        two_documents)) !! other
              = activeTimers two_documents !! other
              /\ commentsCache
                   (fst (get_root "https://example.feishu.cn/docx/doxcnAbC123" "now"
                           two_documents)) !! other
                 = commentsCache two_documents !! other
     end.
Proof.
  apply (link_request_redirects "https://example.feishu.cn/docx/doxcnAbC123" "now"
           two_documents).
  discriminate.
Defined.

(** ** Shutdown *)

(** X15: on [SIGINT] and on [SIGTERM] alike, from every reachable registry,
    every timer is cleared and every snapshot dropped; the OAuth provider
    and the MCP client are each released when they exist, the client also
    when releasing the provider failed; and the last thing the handler does
    is exit with code 0, also when a release failed. *)
Theorem shutdown_releases_and_exits `{Builtins} actions r m :
  run_schedule actions initial = Some m ->
  teardown (snd (on_sigint r m)) = owed r
  /\ teardown (snd (on_sigterm r m)) = owed r
  /\ (exists before, snd (on_sigint r m) = before ++ [Exit 0])
  /\ (exists before, snd (on_sigterm r m) = before ++ [Exit 0])
  /\ fst (on_sigint r m) = fst (on_sigterm r m)
  /\ activeTimers (fst (on_sigint r m)) = ∅
  /\ commentsCache (fst (on_sigint r m)) = ∅
  /\ intervals (fst (on_sigint r m)) = ∅.
Proof.
  intros Hrun. destruct (reachable_exact _ _ Hrun) as [Hc _].
  unfold on_sigint, on_sigterm, owed. cbn [fst snd step default from_option id].
  rewrite (clear_all_consistent _ Hc).
  split; [destruct r as [[[[]|ea]|] [[[]|ec]|]]; reflexivity|].
  split; [destruct r as [[[[]|ea]|] [[[]|ec]|]]; reflexivity|].
  split; [eexists; apply last_effect_apart|].
  split; [eexists (_ :: _ ++ _); cbn [app]; f_equal; apply app_assoc|].
  repeat split.
Qed.

Lemma shutdown_releases_and_exits_witness :
  teardown (snd (on_sigint (mkResources (Some (Throw (mkError "Error" "revoked")))
                            (Some (Normal tt))) two_documents))
  = owed (mkResources (Some (Throw (mkError "Error" "revoked"))) (Some (Normal tt)))
  /\ teardown (snd (on_sigterm (mkResources (Some (Throw (mkError "Error" "revoked")))
                                (Some (Normal tt))) two_documents))
     = owed (mkResources (Some (Throw (mkError "Error" "revoked"))) (Some (Normal tt)))
  /\ (exists before,
        snd (on_sigint (mkResources (Some (Throw (mkError "Error" "revoked")))
                          (Some (Normal tt))) two_documents) = before ++ [Exit 0])
  /\ (exists before,
        snd (on_sigterm (mkResources (Some (Throw (mkError "Error" "revoked")))
                           (Some (Normal tt))) two_documents) = before ++ [Exit 0])
  /\ fst (on_sigint (mkResources (Some (Throw (mkError "Error" "revoked")))
                       (Some (Normal tt))) two_documents)
     = fst (on_sigterm (mkResources (Some (Throw (mkError "Error" "revoked")))
                          (Some (Normal tt))) two_documents)
  /\ activeTimers (fst (on_sigint (mkResources (Some (Throw (mkError "Error" "revoked")))
                                     (Some (Normal tt))) two_documents)) = ∅
  /\ commentsCache (fst (on_sigint (mkResources (Some (Throw (mkError "Error" "revoked")))
                                      (Some (Normal tt))) two_documents)) = ∅
  /\ intervals (fst (on_sigint (mkResources (Some (Throw (mkError "Error" "revoked")))
                                  (Some (Normal tt))) two_documents)) = ∅.
Proof.
  apply (shutdown_releases_and_exits
           [StartMonitor "doc"; StartMonitor "other"; TimerFires 0; FetchSettles 0 poll_one]).
  vm_compute. reflexivity.
Defined.

(** ** The handler of [POST /api/agent/execute] *)

(** X16: the handler answers every request exactly once and never throws:
    it sends either one JSON body or one event stream that it closes once,
    never both.  The JSON body is sent exactly when no agent was built, the
    request has no body, or the [message] of the body is falsy; in every
    other case the response head is written and the stream sink takes
    over, whatever the agent does. *)
Theorem execute_answers_exactly_once `{Builtins} reactAgent now body :
  snd (agent_execute reactAgent now body) = Normal tt
  /\ json_replies (fst (agent_execute reactAgent now body))
     + times_ended (fst (agent_execute reactAgent now body)) = 1
  /\ (json_replies (fst (agent_execute reactAgent now body)) = 1
      <-> reactAgent = None \/ nullish body = true
          \/ truthy (opt_get body "message") = false).
Proof.
  destruct reactAgent as [agent|].
  2:{ cbn. repeat split; auto. }
  destruct (nullish body) eqn:Hb.
  { destruct body; try discriminate Hb; cbn; repeat split; auto. }
  destruct (truthy (opt_get body "message")) eqn:Hm.
  - rewrite (agent_execute_streams agent now body Hb Hm). cbn [fst snd].
    rewrite stream_to_response_unfold.
    pose proof (sse_translate_frames agent (opt_get body "message")) as Hf.
    destruct (sse_translate agent (opt_get body "message")) as [o r]. cbn [fst] in Hf.
    destruct (frames_body _ Hf) as [He _]. pose proof (frames_no_json _ Hf) as Hj.
    assert (Hhead : forall line status tail,
               json_replies (Console line :: ResWriteHead status :: o ++ tail)
               = json_replies tail
               /\ times_ended (Console line :: ResWriteHead status :: o ++ tail)
                  = times_ended tail).
    { intros line status tail.
      change (json_replies (o ++ tail) = json_replies tail
              /\ times_ended (o ++ tail) = times_ended tail).
      now rewrite json_replies_app, times_ended_app, Hj, He. }
    destruct r as [[]|e]; cbn [fst];
      rewrite (proj1 (Hhead _ _ _)), (proj2 (Hhead _ _ _));
      (split; [reflexivity|]); (split; [reflexivity|]);
      (split; [discriminate|]); intros [|[|]]; discriminate.
  - unfold agent_execute. rewrite (bind_get _ _ _ Hb), Hm. cbn. repeat split; auto.
Qed.

(** ** The value [processNewCommentWithAgent] returns *)

(** X17: [processNewCommentWithAgent] returns [null] or a chunk of the
    stream.  When it returns something else than [null], the agent was
    built, it opened a stream for the instruction made of the document and
    the text of the comment, the stream ended without an exception, and
    the value returned is the last chunk of the stream that carries a
    truthy [__end__]: later end markers replace earlier ones. *)
Theorem final_response_is_last_end_chunk `{Builtins} reactAgent comment docId v :
  snd (processNewCommentWithAgent reactAgent comment docId) = Normal v ->
  v <> JNull ->
  exists agent stream,
    reactAgent = Some agent
    /\ agent (agent_input docId (comment_text comment)) = Normal stream
    /\ failure stream = None
    /\ v = List.last (end_chunks (chunks stream)) JNull
    /\ In v (chunks stream)
    /\ truthy (opt_get v "__end__") = true.
Proof.
  intros E Hv. unfold processNewCommentWithAgent in E.
  destruct reactAgent as [agent|]; [|cbn in E; congruence].
  exists agent. unfold try_catch in E.
  match type of E with context [match ?m with _ => _ end] => destruct m as [o [v'|e]] eqn:Em end.
  2:{ cbn in E. congruence. }
  cbn [snd] in E. injection E as ->.
  apply bind_returns in Em as (? & [] & ? & _ & Em & _).
  apply bind_returns in Em as (? & [] & ? & _ & Em & _).
  apply bind_returns in Em as (? & stream & ? & Hs & Em & _).
  unfold lift in Hs. injection Hs as _ Hs. exists stream.
  apply bind_returns in Em as (? & [] & ? & _ & Em & _).
  apply bind_returns in Em as (? & final & ? & Hf & Em & _).
  apply bind_returns in Em as (? & messages & ? & _ & Em & _).
  apply bind_returns in Em as (? & [] & ? & _ & Em & _).
  apply bind_returns in Em as (? & [] & ? & _ & Em & _).
  unfold ret in Em. injection Em as _ <-.
  unfold for_await in Hf. apply bind_returns in Hf as (? & acc & ? & Hl & Hf & _).
  destruct (failure stream) as [err|] eqn:Hfail; [discriminate Hf|].
  unfold ret in Hf. injection Hf as _ <-.
  apply for_each_last_end in Hl. subst acc.
  split; [reflexivity|]. split; [exact Hs|]. split; [reflexivity|]. split; [reflexivity|].
  assert (Hin : In (List.last (end_chunks (chunks stream)) JNull) (end_chunks (chunks stream))).
  { revert Hv. destruct (end_chunks (chunks stream)) as [|c l]; intros Hv.
    - exfalso. apply Hv. reflexivity.
    - destruct (@exists_last _ (c :: l)) as (l' & c' & Hl); [discriminate|].
      rewrite Hl, last_last. apply in_or_app. right. now left. }
  unfold end_chunks in Hin at 2. apply filter_In in Hin. exact Hin.
Qed.

Lemma final_response_is_last_end_chunk_witness :
  exists agent stream,
    Some two_ends_agent = Some agent
    /\ agent (agent_input "doc" (comment_text (sample_comment "c1" [sample_reply "r1" "first"]))) = Normal stream
    /\ failure stream = None
    /\ JObj [("__end__", JBool true); ("step", JNum 2)]
       = List.last (end_chunks (chunks stream)) JNull
    /\ In (JObj [("__end__", JBool true); ("step", JNum 2)]) (chunks stream)
    /\ truthy (opt_get (JObj [("__end__", JBool true); ("step", JNum 2)]) "__end__") = true.
Proof.
  apply (final_response_is_last_end_chunk (Some two_ends_agent)
           (sample_comment "c1" [sample_reply "r1" "first"]) "doc").
  - vm_compute. reflexivity.
  - discriminate.
Defined.

(** ** The order of the translated stream *)

(** X18: the stream sink translates the chunks one by one, in the order of
    the stream, each chunk on its own: what it writes before the closing
    frame is the concatenation of the translations of the chunks up to and
    including the first one whose translation throws.  Nothing is written
    for a later chunk. *)
Theorem stream_sink_translates_in_order `{Builtins} agent msg stream :
  agent (user_request msg) = Normal stream ->
  fst (sse_translate agent msg)
  = concat (map (fun chunk => fst (sse_chunk chunk tt))
              (reached (fun chunk => sse_chunk chunk tt) (chunks stream)))
  /\ exists unreached,
       chunks stream = reached (fun chunk => sse_chunk chunk tt) (chunks stream) ++ unreached.
Proof.
  intros Ha. split; [|apply reached_prefix].
  unfold sse_translate. rewrite Ha, bind_lift_normal. unfold for_await.
  rewrite <- (for_each_reached (fun chunk => sse_chunk chunk tt)).
  change (fun (c : JSValue) (_ : unit) => sse_chunk c tt) with sse_chunk.
  unfold bind. destruct (for_each (chunks stream) sse_chunk tt) as [o [[]|e]]; cbn [fst].
  - destruct (failure stream); cbn; now rewrite app_nil_r.
  - reflexivity.
Qed.

Lemma stream_sink_translates_in_order_witness :
  fst (sse_translate broken_agent (JStr "hi"))
  = concat (map (fun chunk => fst (sse_chunk chunk tt))
              (reached (fun chunk => sse_chunk chunk tt) (chunks broken_stream)))
  /\ exists unreached,
       chunks broken_stream
       = reached (fun chunk => sse_chunk chunk tt) (chunks broken_stream) ++ unreached.
Proof.
  apply (stream_sink_translates_in_order broken_agent (JStr "hi") broken_stream).
  reflexivity.
Defined.

(** The third chunk of [broken_stream] is not reached. *)
Example broken_stream_is_cut :
  reached (fun chunk => sse_chunk chunk tt) (chunks broken_stream)
  = [agent_chunk (JObj [("content", JStr "hello")]); JObj [("agent", JObj [])]].
Proof. vm_compute. reflexivity. Qed.

(** ** Start-up *)

(** X19: starting from a process without an agent, [initializeMCPClient]
    leaves an agent behind exactly when every step succeeded: the OAuth
    provider, the client, the tool listing with at least one tool, the chat
    model and [createReactAgent].  In that case the client is kept and the
    listed tools are returned.  When the client is not kept, no agent is
    kept either and the empty list is returned. *)
Theorem agent_requires_whole_startup serverUrl s g agent :
  agent_of g = None ->
  (agent_of (fst (fst (initializeMCPClient serverUrl s g))) = Some agent
   <-> create_auth s = Normal tt /\ create_client s = Normal tt
       /\ create_model s = Normal tt /\ create_agent s = Normal agent
       /\ exists tools, get_tools s = Normal tools /\ tools <> [])
  /\ (agent_of (fst (fst (initializeMCPClient serverUrl s g))) = Some agent ->
      has_client (fst (fst (initializeMCPClient serverUrl s g))) = true
      /\ get_tools s = Normal (snd (initializeMCPClient serverUrl s g)))
  /\ (has_client (fst (fst (initializeMCPClient serverUrl s g))) = false ->
      agent_of (fst (fst (initializeMCPClient serverUrl s g))) = None
      /\ snd (initializeMCPClient serverUrl s g) = []).
Proof.
  intros Hg. unfold initializeMCPClient, initializeChatModel, startup_failed.
  destruct (create_auth s) as [[]|e1]; cbn [fst snd agent_of has_client].
  2:{ split; [split; [discriminate|intros (E & _); discriminate]|].
      split; [discriminate|auto]. }
  destruct (create_client s) as [[]|e2]; cbn [fst snd agent_of has_client].
  2:{ split; [split; [discriminate|intros (_ & E & _); discriminate]|].
      split; [discriminate|auto]. }
  destruct (get_tools s) as [tools|e3]; cbn [fst snd agent_of has_client].
  2:{ split; [split; [discriminate|intros (_ & _ & _ & _ & t & E & _); discriminate]|].
      split; [discriminate|auto]. }
  destruct (create_model s) as [[]|e4]; cbn [fst snd agent_of has_client andb].
  2:{ rewrite Hg. split; [split; [discriminate|intros (_ & _ & E & _); discriminate]|].
      split; discriminate. }
  destruct tools as [|tool tools]; cbn [length Nat.ltb Nat.leb fst snd agent_of has_client].
  { rewrite Hg. split; [split; [discriminate|]|split; discriminate].
    intros (_ & _ & _ & _ & t & [= <-] & Ht). contradiction. }
  destruct (create_agent s) as [a|e5]; cbn [fst snd agent_of has_client].
  2:{ split; [split; [discriminate|intros (_ & _ & _ & E & _); discriminate]|].
      split; [discriminate|auto]. }
  split; [split|split].
  - intros [= ->]. repeat split. exists (tool :: tools). split; [reflexivity|discriminate].
  - intros (_ & _ & _ & [= ->] & _). reflexivity.
  - intros _. split; reflexivity.
  - discriminate.
Qed.

Lemma agent_requires_whole_startup_witness :
  (agent_of (fst (fst (initializeMCPClient "https://mcp.example/sse" full_startup no_globals)))
   = Some failing_agent
   <-> create_auth full_startup = Normal tt /\ create_client full_startup = Normal tt
       /\ create_model full_startup = Normal tt
       /\ create_agent full_startup = Normal failing_agent
       /\ exists tools, get_tools full_startup = Normal tools /\ tools <> [])
  /\ (agent_of (fst (fst (initializeMCPClient "https://mcp.example/sse" full_startup
                            no_globals))) = Some failing_agent ->
      has_client (fst (fst (initializeMCPClient "https://mcp.example/sse" full_startup
                              no_globals))) = true
      /\ get_tools full_startup
         = Normal (snd (initializeMCPClient "https://mcp.example/sse" full_startup no_globals)))
  /\ (has_client (fst (fst (initializeMCPClient "https://mcp.example/sse" full_startup
                              no_globals))) = false ->
      agent_of (fst (fst (initializeMCPClient "https://mcp.example/sse" full_startup
                            no_globals))) = None
      /\ snd (initializeMCPClient "https://mcp.example/sse" full_startup no_globals) = []).
Proof.
  apply (agent_requires_whole_startup "https://mcp.example/sse" full_startup no_globals
           failing_agent).
  reflexivity.
Defined.

(** X20: when everything but [createReactAgent] succeeds, the start-up
    throws the connected client away with the agent, although the tools had
    been listed: it returns no tool, and from then on every tick finds no
    client, prints that notice and fetches nothing, whatever the server
    would answer. *)
Theorem failed_agent_creation_disables_monitoring `{Builtins}
    serverUrl s g tools error tools_now docId (cache : gmap string JSValue) :
  create_auth s = Normal tt ->
  create_client s = Normal tt ->
  get_tools s = Normal tools ->
  tools <> [] ->
  create_model s = Normal tt ->
  create_agent s = Throw error ->
  snd (initializeMCPClient serverUrl s g) = []
  /\ has_auth (fst (fst (initializeMCPClient serverUrl s g))) = true
  /\ has_model (fst (fst (initializeMCPClient serverUrl s g))) = true
  /\ env_of (fst (fst (initializeMCPClient serverUrl s g))) tools_now = mkEnv None None
  /\ invokeGetCommentsTools (env_of (fst (fst (initializeMCPClient serverUrl s g))) tools_now)
       docId cache
     = (cache, ([Console LClientMissing], Normal JNull)).
Proof.
  intros Hauth Hclient Htools Hne Hmodel Hagent.
  unfold initializeMCPClient, initializeChatModel, startup_failed.
  rewrite Hauth, Hclient, Htools, Hmodel.
  destruct tools as [|tool tools]; [contradiction|].
  cbn [length Nat.ltb Nat.leb andb]. rewrite Hagent. repeat split.
Qed.

Lemma failed_agent_creation_disables_monitoring_witness :
  snd (initializeMCPClient "https://mcp.example/sse" agentless_startup no_globals) = []
  /\ has_auth (fst (fst (initializeMCPClient "https://mcp.example/sse" agentless_startup
                           no_globals))) = true
  /\ has_model (fst (fst (initializeMCPClient "https://mcp.example/sse" agentless_startup
                            no_globals))) = true
  /\ env_of (fst (fst (initializeMCPClient "https://mcp.example/sse" agentless_startup
                         no_globals)))
       (Normal [sample_tool (JStr (response_text ["r1"]))]) = mkEnv None None
  /\ invokeGetCommentsTools
       (env_of (fst (fst (initializeMCPClient "https://mcp.example/sse" agentless_startup
                            no_globals)))
          (Normal [sample_tool (JStr (response_text ["r1"]))])) "doc" sample_cache
     = (sample_cache, ([Console LClientMissing], Normal JNull)).
Proof.
  apply (failed_agent_creation_disables_monitoring "https://mcp.example/sse"
           agentless_startup no_globals [sample_tool (JStr "{}")]
           (mkError "Error" "unsupported model"));
    first [reflexivity | discriminate].
Defined.

(** X21: when only the chat model cannot be built, the start-up keeps the
    client and returns the listed tools, and [createReactAgent] is not
    attempted: a process that had no agent still has none.  The ticks then
    fetch and compare as usual; a tick that finds new replies stores the
    fetched snapshot and starts no agent for them. *)
Theorem missing_model_keeps_monitoring `{Builtins}
    serverUrl s g tools error tools_now docId (cache : gmap string JSValue)
    result current o newComments :
  agent_of g = None ->
  create_auth s = Normal tt ->
  create_client s = Normal tt ->
  get_tools s = Normal tools ->
  create_model s = Throw error ->
  fetch_comments (mkEnv (Some tools_now) None) docId = Normal (Some (result, current)) ->
  detectNewComments (stored_snapshot cache docId) current = (o, Normal newComments) ->
  snd (initializeMCPClient serverUrl s g) = tools
  /\ env_of (fst (fst (initializeMCPClient serverUrl s g))) tools_now
     = mkEnv (Some tools_now) None
  /\ Forall is_log (snd (fst (initializeMCPClient serverUrl s g)))
  /\ fst (invokeGetCommentsTools
            (env_of (fst (fst (initializeMCPClient serverUrl s g))) tools_now) docId cache)
     = <[docId := current]> cache
  /\ agent_inputs
       (fst (snd (invokeGetCommentsTools
                    (env_of (fst (fst (initializeMCPClient serverUrl s g))) tools_now)
                    docId cache))) = [].
Proof.
  intros Hg Hauth Hclient Htools Hmodel Hfetch Hd.
  assert (E : initializeMCPClient serverUrl s g
              = (mkGlobals true None false true,
                 [Log "正在初始化MCP客户端..." [];
                  Log ("尝试连接到MCP服务器: " +:+ serverUrl) [];
                  Log "MCP客户端初始化成功" [];
                  Log "可用工具数量:" [JNum (Z.of_nat (length tools))];
                  Log "正在初始化ChatOpenAI模型..." [];
                  Log "ChatOpenAI模型初始化失败:" [JStr (message error)]], tools)).
  { unfold initializeMCPClient, initializeChatModel.
    rewrite Hauth, Hclient, Htools, Hmodel. cbn [andb agent_of has_client has_auth app].
    now rewrite Hg. }
  rewrite E. cbn [fst snd]. unfold env_of. cbn [has_client agent_of].
  split; [reflexivity|]. split; [reflexivity|]. split; [repeat constructor|].
  rewrite (tick_succeeded _ _ _ _ _ _ _ Hfetch Hd). cbn [fst snd].
  split; [reflexivity|].
  rewrite agent_inputs_app, (agent_inputs_none o).
  - change (agent_inputs (CacheSet ?d ?c :: ?l)) with (agent_inputs l).
    unfold report_output. destruct newComments as [|c rest]; [reflexivity|].
    cbn [length Nat.ltb Nat.leb].
    rewrite dispatch_output_unhandled by reflexivity.
    change (agent_inputs (Console ?l :: ?l')) with (agent_inputs l').
    rewrite agent_inputs_app, app_nil_r. apply agent_inputs_none.
    unfold unhandled_lines. apply Forall_concat, Forall_forall.
    intros l Hl. apply list_elem_of_lookup in Hl as [i Hl].
    rewrite list_lookup_imap in Hl. destruct ((c :: rest) !! i); [|discriminate].
    injection Hl as <-. repeat constructor.
  - apply detect_output_no_dispatch in Hd. eapply Forall_impl; [exact Hd|].
    intros [] He; simpl in *; try exact I. discriminate.
Qed.

Lemma missing_model_keeps_monitoring_witness :
  snd (initializeMCPClient "https://mcp.example/sse" modelless_startup no_globals)
  = [sample_tool (JStr "{}")]
  /\ env_of (fst (fst (initializeMCPClient "https://mcp.example/sse" modelless_startup
                         no_globals)))
       (Normal [sample_tool (JStr (response_text ["r1"; "r2"]))])
     = mkEnv (Some (Normal [sample_tool (JStr (response_text ["r1"; "r2"]))])) None
  /\ Forall is_log
       (snd (fst (initializeMCPClient "https://mcp.example/sse" modelless_startup no_globals)))
  /\ fst (invokeGetCommentsTools
            (env_of (fst (fst (initializeMCPClient "https://mcp.example/sse"
                                 modelless_startup no_globals)))
               (Normal [sample_tool (JStr (response_text ["r1"; "r2"]))])) "doc" sample_cache)
     = <["doc" := response_snapshot ["r1"; "r2"]]> sample_cache
  /\ agent_inputs
       (fst (snd (invokeGetCommentsTools
                    (env_of (fst (fst (initializeMCPClient "https://mcp.example/sse"
                                         modelless_startup no_globals)))
                       (Normal [sample_tool (JStr (response_text ["r1"; "r2"]))]))
                    "doc" sample_cache))) = [].
Proof.
  apply (missing_model_keeps_monitoring "https://mcp.example/sse" modelless_startup
           no_globals [sample_tool (JStr "{}")] (mkError "Error" "missing API key")
           (Normal [sample_tool (JStr (response_text ["r1"; "r2"]))]) "doc" sample_cache
           (JStr (response_text ["r1"; "r2"])) (response_snapshot ["r1"; "r2"]) []
           (diff (response_snapshot ["r1"]) (response_snapshot ["r1"; "r2"])));
    vm_compute; reflexivity.
Defined.
